(** * Hybrid retrieval and fusion core of the housing-lease RAG pipeline

    Shallow embedding of [final_module_cld.py] (the unified RAG module):
    BM25 scoring, rank fusion, rerank selection, case expansion, priority
    tiers and the retrieval orchestrator, followed by the properties that
    the design document states about them and by further properties of
    the code itself.

    Conventions of the embedding.
    - Python [float] values are idealised as exact rationals ([Q]); Python
      [==] on numbers is [Qeq].  [math.log] is transcendental and is a field
      of the runtime record.  What holds of the code only while the floats
      stay finite is stated under a bound on the numbers involved
      ([float_int_limit], [float_score_bound]).
    - Python [str] is a Rocq [string] holding the UTF-8 encoding; [len],
      slices, [strip] and the token class work on code points.  The digits
      of [int] and the letters that [lower] turns into token characters
      are those of the Unicode database 14.0.
    - Python [dict] is an insertion-ordered association list with unique
      keys; a [set] of strings is enumerated in the order given by the
      runtime record, since CPython derives it from the per-process string
      hash.
    - An exception is a value of [Exn]; code that may raise lives in the
      [Result] monad, and a [try/except Exception] is a [match]. *)

From Stdlib Require Import List String Ascii ZArith QArith Lia Bool.
From Stdlib Require Import Permutation Sorted DecimalString.
From Stdlib Require Import Qfield Lqa.
Import ListNotations.

Open Scope string_scope.
Open Scope Z_scope.

(* ====================================================================== *)
(** * Python runtime layer *)
(* ====================================================================== *)

(** Exceptions.  [ServiceError] stands for whatever an external
    collaborator raises; the others are raised by the interpreter itself. *)
Inductive Exn : Type :=
| ServiceError (who : string)
| ZeroDivisionError
| IndexError
| TypeError
| ValueError (msg : string).

Inductive Result (A : Type) : Type :=
| Ok (a : A)
| Raise (e : Exn).

Arguments Ok {A} a.
Arguments Raise {A} e.

Definition bind {A B : Type} (c : Result A) (k : A -> Result B) : Result B :=
  match c with
  | Ok a => k a
  | Raise e => Raise e
  end.

Declare Scope py_scope.
Delimit Scope py_scope with py.
Notation "x <- c ;; k" := (bind c (fun x => k))
  (at level 61, c at next level, right associativity) : py_scope.
Notation "' pat <- c ;; k" :=
  (bind c (fun x => match x with pat => k end))
  (at level 61, pat pattern, c at next level, right associativity) : py_scope.
Open Scope py_scope.

(** Monadic traversals of a list, left to right, stopping at the first
    exception, as a Python [for] loop does. *)
Fixpoint mapM {A B : Type} (f : A -> Result B) (l : list A) : Result (list B) :=
  match l with
  | [] => Ok []
  | x :: xs => y <- f x ;; ys <- mapM f xs ;; Ok (y :: ys)
  end.

Fixpoint foldM {A S : Type} (f : S -> A -> Result S) (l : list A) (s : S)
  : Result S :=
  match l with
  | [] => Ok s
  | x :: xs => s' <- f s x ;; foldM f xs s'
  end.

(** ** Scalars stored in document metadata *)

Inductive PyVal : Type :=
| VNone
| VBool (b : bool)
| VInt (z : Z)
| VFloat (q : Q)
| VStr (s : string).

(** The part of the interpreter that the embedding cannot compute:
    [math.log], [repr] of a float, the (per-process, salted) hash of a
    string, and the enumeration order of a set of strings built from a
    given sequence of insertions. *)
Record PyRuntime : Type := {
  math_log : Q -> Q;
  float_repr : Q -> string;
  str_hash : string -> Z;
  set_iter : list string -> list string
}.

(** What every CPython set guarantees about that enumeration: each element
    once, and exactly the inserted elements. *)
Definition set_iter_ok (rt : PyRuntime) : Prop :=
  forall l : list string,
    NoDup (set_iter rt l) /\ (forall x, In x (set_iter rt l) <-> In x l).

Definition nl : string := String (ascii_of_nat 10) EmptyString.

Definition str_of_Z (z : Z) : string := NilZero.string_of_int (Z.to_int z).

(** [bool(v)] *)
Definition py_truthy (v : PyVal) : bool :=
  match v with
  | VNone => false
  | VBool b => b
  | VInt z => negb (z =? 0)
  | VFloat q => negb (Qeq_bool q 0)
  | VStr s => negb (String.eqb s "")
  end.

(** [str(v)] *)
Definition py_str (rt : PyRuntime) (v : PyVal) : string :=
  match v with
  | VNone => "None"
  | VBool true => "True"
  | VBool false => "False"
  | VInt z => str_of_Z z
  | VFloat q => float_repr rt q
  | VStr s => s
  end.

Definition num_of (v : PyVal) : option Q :=
  match v with
  | VBool b => Some (if b then 1%Q else 0%Q)
  | VInt z => Some (inject_Z z)
  | VFloat q => Some q
  | _ => None
  end.

(** [a == b]: numbers compare by value across [bool], [int] and [float]. *)
Definition py_eqb (a b : PyVal) : bool :=
  match a, b with
  | VNone, VNone => true
  | VStr s, VStr t => String.eqb s t
  | _, _ =>
      match num_of a, num_of b with
      | Some x, Some y => Qeq_bool x y
      | _, _ => false
      end
  end.

(** ** Strings *)

Definition ord (c : ascii) : Z := Z.of_N (N_of_ascii c).

(** A character of a Python string: the bytes of one UTF-8 sequence. *)
Definition Char : Type := list ascii.

Definition is_continuation (c : ascii) : bool :=
  (128 <=? ord c) && (ord c <=? 191).

(** Splitting the bytes into characters: every byte that is not a
    continuation byte opens one.  [cur] is the character being read. *)
Fixpoint split_chars (l : list ascii) (cur : Char) : list Char :=
  match l with
  | [] => match cur with [] => [] | _ => [cur] end
  | b :: rest =>
      if is_continuation b then split_chars rest (cur ++ [b])%list
      else match cur with
           | [] => split_chars rest [b]
           | _ => cur :: split_chars rest [b]
           end
  end.

Definition chars_of (s : string) : list Char :=
  split_chars (list_ascii_of_string s) [].

Definition str_of_chars (l : list Char) : string :=
  string_of_list_ascii (List.concat l).

(** [len(s)] *)
Definition py_len (s : string) : Z := Z.of_nat (List.length (chars_of s)).

(** The code point of a character. *)
Definition code_point (c : Char) : Z :=
  match c with
  | [b1] => ord b1
  | [b1; b2] => (ord b1 - 192) * 64 + (ord b2 - 128)
  | [b1; b2; b3] => (ord b1 - 224) * 4096 + (ord b2 - 128) * 64 + (ord b3 - 128)
  | [b1; b2; b3; b4] =>
      (ord b1 - 240) * 262144 + (ord b2 - 128) * 4096 + (ord b3 - 128) * 64
      + (ord b4 - 128)
  | _ => -1
  end.

(** The characters that [str.strip] and [int] treat as blank. *)
Definition is_space (c : Char) : bool :=
  let n := code_point c in
  ((9 <=? n) && (n <=? 13)) || ((28 <=? n) && (n <=? 32))
  || (n =? 133) || (n =? 160) || (n =? 5760)
  || ((8192 <=? n) && (n <=? 8202))
  || (n =? 8232) || (n =? 8233) || (n =? 8239) || (n =? 8287) || (n =? 12288).

Fixpoint lstrip_chars (l : list Char) : list Char :=
  match l with
  | c :: cs => if is_space c then lstrip_chars cs else l
  | [] => []
  end.

Definition strip_chars (l : list Char) : list Char :=
  rev (lstrip_chars (rev (lstrip_chars l))).

(** [s.strip()] *)
Definition py_strip (s : string) : string :=
  str_of_chars (strip_chars (chars_of s)).

(** The blanks that [int] skips around a number: those of [str.strip]
    without the four separators U+001C to U+001F, which [int] leaves in
    place and then rejects. *)
Definition is_int_space (c : Char) : bool :=
  let n := code_point c in
  is_space c && negb ((28 <=? n) && (n <=? 31)).

Fixpoint lstrip_int (l : list Char) : list Char :=
  match l with
  | c :: cs => if is_int_space c then lstrip_int cs else l
  | [] => []
  end.

(** The code points of the digits zero of the decimal digits known to
    [int]: the characters of category [Nd] of the Unicode database 14.0
    (that of CPython 3.11), each followed by its digits one to nine. *)
Definition decimal_zeros : list Z :=
  [48; 1632; 1776; 1984; 2406; 2534; 2662; 2790; 2918; 3046; 3174; 3302;
   3430; 3558; 3664; 3792; 3872; 4160; 4240; 6112; 6160; 6470; 6608; 6784;
   6800; 6992; 7088; 7232; 7248; 42528; 43216; 43264; 43472; 43504; 43600;
   44016; 65296; 66720; 68912; 69734; 69872; 69942; 70096; 70384; 70736;
   70864; 71248; 71360; 71472; 71904; 72016; 72784; 73040; 73120; 92768;
   92864; 93008; 120782; 120792; 120802; 120812; 120822; 123200; 123632;
   125264; 130032].

(** The value of a decimal digit. *)
Definition digit_of (c : Char) : option Z :=
  let n := code_point c in
  match find (fun z => (z <=? n) && (n <=? z + 9)) decimal_zeros with
  | Some z => Some (n - z)
  | None => None
  end.

Definition is_char (a : ascii) (c : Char) : bool :=
  match c with
  | [b] => Ascii.eqb b a
  | _ => false
  end.

(** Digits with single underscores between them; [prev] tells whether the
    previous character was a digit. *)
Fixpoint parse_digits (l : list Char) (acc : Z) (prev : bool) : option Z :=
  match l with
  | [] => if prev then Some acc else None
  | c :: cs =>
      match digit_of c with
      | Some d => parse_digits cs (10 * acc + d) true
      | None =>
          if (is_char "_" c && prev)%bool
          then match cs with
               | [] => None
               | _ => parse_digits cs acc false
               end
          else None
      end
  end.

(** [int(s)] for a string, base 10: blanks skipped at both ends, optional
    sign, decimal digits with single underscores; [None] is a
    [ValueError]. *)
Definition int_of_str (s : string) : option Z :=
  match rev (lstrip_int (rev (lstrip_int (chars_of s)))) with
  | [] => None
  | c :: cs =>
      if is_char "-" c then option_map Z.opp (parse_digits cs 0 false)
      else if is_char "+" c then parse_digits cs 0 false
      else parse_digits (c :: cs) 0 false
  end.

(** [int(v)]; [None] is the [TypeError]/[ValueError] that [int] raises. *)
Definition py_int (v : PyVal) : option Z :=
  match v with
  | VNone => None
  | VBool b => Some (if b then 1 else 0)
  | VInt z => Some z
  | VFloat q => Some (Z.quot (Qnum q) (Zpos (Qden q)))
  | VStr s => int_of_str s
  end.

(** ** Lists: slices, indexing, stable sort *)

(** [l[:n]] for any integer [n]. *)
Definition slice_to {A : Type} (n : Z) (l : list A) : list A :=
  if 0 <=? n then firstn (Z.to_nat n) l
  else firstn (List.length l - Z.to_nat (- n)) l.

(** [l[i]], with Python's negative indices. *)
Definition py_index {A : Type} (l : list A) (i : Z) : Result A :=
  let len := Z.of_nat (List.length l) in
  let j := if i <? 0 then i + len else i in
  if (0 <=? j) && (j <? len)
  then match nth_error l (Z.to_nat j) with
       | Some x => Ok x
       | None => Raise IndexError
       end
  else Raise IndexError.

(** [[(1, x1); (2, x2); ...]]: [enumerate(l, start=1)]. *)
Fixpoint enumerate_from {A : Type} (i : Z) (l : list A) : list (Z * A) :=
  match l with
  | [] => []
  | x :: xs => (i, x) :: enumerate_from (i + 1) xs
  end.

Definition enumerate1 {A : Type} (l : list A) : list (Z * A) :=
  enumerate_from 1 l.

Section StableSort.
Context {A : Type}.
(** [strictly_before y x]: the key of [y] is strictly smaller than the
    key of [x] in the requested direction. *)
Variable strictly_before : A -> A -> bool.

Fixpoint insert_stable (x : A) (l : list A) : list A :=
  match l with
  | [] => [x]
  | y :: ys =>
      if strictly_before y x then y :: insert_stable x ys
      else x :: y :: ys
  end.

(** A stable sort: elements that compare equal keep their input order.
    [sorted] is specified to be stable, so it agrees with this one on
    every totally pre-ordered key. *)
Definition stable_sort (l : list A) : list A :=
  fold_right insert_stable [] l.
End StableSort.

(** [sorted(l, key=key, reverse=True)] on rational keys: descending, and
    equal keys keep their input order. *)
Definition sorted_by_Q_desc {A : Type} (key : A -> Q) (l : list A) : list A :=
  stable_sort (fun y x => negb (Qle_bool (key y) (key x))) l.

(** [sorted(l, key=key)] on integer keys. *)
Definition sorted_by_Z {A : Type} (key : A -> Z) (l : list A) : list A :=
  stable_sort (fun y x => key y <? key x) l.

(** [sorted(l, key=key)] on string keys (code-point order, which on UTF-8
    is byte order). *)
Definition sorted_by_str {A : Type} (key : A -> string) (l : list A) : list A :=
  stable_sort (fun y x => String.ltb (key y) (key x)) l.

(** ** Dictionaries *)

Definition Dict (V : Type) : Type := list (string * V).

Fixpoint dict_get {V : Type} (k : string) (d : Dict V) : option V :=
  match d with
  | [] => None
  | (k', v) :: rest => if String.eqb k k' then Some v else dict_get k rest
  end.

(** [d[k] = v]: overwrite in place, or append a new key at the end. *)
Fixpoint dict_set {V : Type} (k : string) (v : V) (d : Dict V) : Dict V :=
  match d with
  | [] => [(k, v)]
  | (k', v') :: rest =>
      if String.eqb k k' then (k', v) :: rest
      else (k', v') :: dict_set k v rest
  end.

Definition dict_keys {V : Type} (d : Dict V) : list string := map fst d.
Definition dict_values {V : Type} (d : Dict V) : list V := map snd d.

(** Counting one more occurrence of [t]. *)
Definition counter_step (c : Dict Z) (t : string) : Dict Z :=
  dict_set t (match dict_get t c with Some n => n + 1 | None => 1 end) c.

(** [collections.Counter(l)]: counts, keys in order of first occurrence. *)
Definition Counter (l : list string) : Dict Z := fold_left counter_step l [].

Definition str_mem (s : string) (l : list string) : bool :=
  existsb (String.eqb s) l.

(** [a / b] on numbers, for a divisor within the range of a float.  An
    [int] divisor of magnitude [float_int_limit] or more cannot be turned
    into a float: there the code raises [OverflowError], which the
    embedding leaves out, and the statements that depend on it bound the
    divisor. *)
Definition py_div (a b : Q) : Result Q :=
  if Qeq_bool b 0 then Raise ZeroDivisionError else Ok (a / b)%Q.

(** The least magnitude of an [int] that does not convert to a float:
    the midpoint between the largest double and [2 ^ 1024]. *)
Definition float_int_limit : Z := 2 ^ 1024 - 2 ^ 970.

(** Floats of at most this magnitude have finite differences. *)
Definition float_score_bound : Q := inject_Z (2 ^ 1022).

(* ====================================================================== *)
(** * Documents and utility functions *)
(* ====================================================================== *)

(** A LangChain [Document]: text and a metadata dictionary. *)
Record Document : Type := mkDoc {
  page_content : string;
  metadata : Dict PyVal
}.

(** [_safe_int(x, default)]: [int(x)], or [default] when [int] raises. *)
Definition _safe_int (x : PyVal) (default : Z) : Z :=
  match py_int x with
  | Some z => z
  | None => default
  end.

(** [s[:n]] *)
Definition str_slice_to (n : Z) (s : string) : string :=
  str_of_chars (slice_to n (chars_of s)).

(** [_truncate(text, max_chars)] *)
Definition _truncate (text : string) (max_chars : Z) : string :=
  if String.eqb text "" then ""
  else if py_len text <=? max_chars then text
  else str_slice_to (max_chars - 1) text ++ "…".

(** The first key field whose metadata value is truthy, formatted as
    ["field:value"]. *)
Fixpoint first_key_field (rt : PyRuntime) (md : Dict PyVal)
    (key_fields : list string) : option string :=
  match key_fields with
  | [] => None
  | f :: fs =>
      match dict_get f md with
      | Some v =>
          if py_truthy v then Some (f ++ ":" ++ py_str rt v)
          else first_key_field rt md fs
      | None => first_key_field rt md fs
      end
  end.

Definition dedupe_key (rt : PyRuntime) (key_fields : list string)
    (d : Document) : string :=
  match first_key_field rt (metadata d) key_fields with
  | Some key => key
  | None => "content:" ++ str_of_Z (str_hash rt (page_content d))
  end.

(** The loop of [_dedupe_docs]; [seen] is the set of keys met so far. *)
Fixpoint dedupe_loop (rt : PyRuntime) (key_fields : list string)
    (seen : list string) (docs : list Document) : list Document :=
  match docs with
  | [] => []
  | d :: ds =>
      let key := dedupe_key rt key_fields d in
      if str_mem key seen then dedupe_loop rt key_fields seen ds
      else d :: dedupe_loop rt key_fields (key :: seen) ds
  end.

(** [_dedupe_docs(docs, key_fields)] *)
Definition _dedupe_docs (rt : PyRuntime) (docs : list Document)
    (key_fields : list string) : list Document :=
  dedupe_loop rt key_fields [] docs.

(* ====================================================================== *)
(** * Tokenizer *)
(* ====================================================================== *)

Definition Tokenizer : Type := string -> list string.

(** [lower] on one character, as far as the token class can tell: the
    ASCII capitals become small letters, the Kelvin sign U+212A becomes
    [k], and the dotted capital I U+0130 becomes [i] followed by the
    combining dot U+0307.  Every other character that [str.lower]
    changes lies outside the token class before and after the change
    (Unicode database 14.0), so it separates tokens either way and is
    left as it is. *)
Definition lower_char (c : Char) : list Char :=
  let n := code_point c in
  if (65 <=? n) && (n <=? 90) then [[ascii_of_N (Z.to_N (n + 32))]]
  else if n =? 8490 then [["k"%char]]
  else if n =? 304
  then [["i"%char]; [ascii_of_N 204; ascii_of_N 135]]
  else [c].

(** The class [[0-9A-Za-z가-힣]] of [_TOKEN_RE]. *)
Definition is_token_char (c : Char) : bool :=
  let n := code_point c in
  ((48 <=? n) && (n <=? 57)) || ((65 <=? n) && (n <=? 90))
  || ((97 <=? n) && (n <=? 122)) || ((44032 <=? n) && (n <=? 55203)).

Definition flush_token (cur : list Char) (acc : list (list Char))
  : list (list Char) :=
  match cur with
  | [] => acc
  | _ => (acc ++ [cur])%list
  end.

(** [_TOKEN_RE.findall]: the maximal runs of token characters. *)
Fixpoint findall_tokens (l : list Char) (cur : list Char)
    (acc : list (list Char)) : list (list Char) :=
  match l with
  | [] => flush_token cur acc
  | c :: rest =>
      if is_token_char c then findall_tokens rest (cur ++ [c])%list acc
      else findall_tokens rest [] (flush_token cur acc)
  end.

(** [SimpleTokenizer(min_length).tokenize] *)
Definition SimpleTokenizer (min_length : Z) : Tokenizer :=
  fun text =>
    if String.eqb text "" then []
    else
      let tokens := findall_tokens (flat_map lower_char (chars_of text)) [] [] in
      map str_of_chars
          (filter (fun t => min_length <=? Z.of_nat (List.length t)) tokens).

(* ====================================================================== *)
(** * BM25 *)
(* ====================================================================== *)

Definition Qnat (n : nat) : Q := inject_Z (Z.of_nat n).

Definition Qsum (l : list Q) : Q := fold_left Qplus l 0%Q.

Section BM25.
Variable rt : PyRuntime.
Local Open Scope Q_scope.

(** [df[t] += 1] on the [defaultdict(int)]. *)
Definition df_step (df : Dict Z) (t : string) : Dict Z :=
  dict_set t (match dict_get t df with Some n => n | None => 0%Z end + 1)%Z df.

(** The [df] dictionary: every document adds one to each of its distinct
    tokens. *)
Definition doc_freq (docs_tokens : list (list string)) : Dict Z :=
  fold_left (fun df toks => fold_left df_step (set_iter rt toks) df)
            docs_tokens [].

Definition idf_value (N : nat) (dfi : Z) : Q :=
  math_log rt (1 + (Qnat N - inject_Z dfi + (1#2)) / (inject_Z dfi + (1#2))).

Definition idf_table (N : nat) (df : Dict Z) : Dict Q :=
  map (fun '(t, dfi) => (t, idf_value N dfi)) df.

(** The score of one document: the loop over [qtf.items()]. *)
Definition bm25_doc_score (idf : Dict Q) (qtf : Dict Z) (k1 b avgdl : Q)
    (toks : list string) : Q :=
  let dl := Qnat (List.length toks) in
  let tf := Counter toks in
  let norm := (1 - b) + b * (dl / avgdl) in
  fold_left
    (fun score '(term, qf) =>
       match dict_get term tf with
       | None => score
       | Some f =>
           let denom := inject_Z f + k1 * norm in
           if Qeq_bool denom 0 then score
           else
             score
             + (match dict_get term idf with Some v => v | None => 0 end
                * (inject_Z f * (k1 + 1) / denom))
               * (1 + (1#10) * (inject_Z qf - 1))
       end)
    qtf 0.

(** [_bm25_scores_builtin(query_tokens, docs_tokens, k1=, b=)].  The
    divisions cannot raise: [N] and [avgdl] are tested before use, and a
    document frequency is at least one. *)
Definition _bm25_scores_builtin (query_tokens : list string)
    (docs_tokens : list (list string)) (k1 b : Q) : list Q :=
  let N := List.length docs_tokens in
  match N with
  | O => []
  | _ =>
      match query_tokens with
      | [] => repeat 0 N
      | _ =>
          let doc_lens := map (fun toks => Qnat (List.length toks)) docs_tokens in
          let avgdl := Qsum doc_lens / Qnat N in
          let avgdl := if Qle_bool avgdl 0 then 1 else avgdl in
          let df := doc_freq docs_tokens in
          let idf := idf_table N df in
          let qtf := Counter query_tokens in
          map (bm25_doc_score idf qtf k1 b avgdl) docs_tokens
      end
  end.
End BM25.

(** The optional [rank_bm25] package: absent, or a scorer taking the
    algorithm name, the corpus, [k1], [b] and the query tokens. *)
Definition RankBM25 : Type :=
  option (string -> list (list string) -> Q -> Q -> list string
          -> Result (list Q)).

(** [BM25Scorer(tokenizer, algorithm, k1, b).fit(documents).score(query)] *)
Definition BM25Scorer_fit_score (rt : PyRuntime) (lib : RankBM25)
    (tokenizer : Tokenizer) (algorithm : string) (k1 b : Q)
    (documents : list Document) (query : string) : Result (list Q) :=
  let corpus_tokens := map (fun doc => tokenizer (page_content doc)) documents in
  let query_tokens := tokenizer query in
  match lib with
  | Some external =>
      if String.eqb algorithm "builtin"
      then Ok (_bm25_scores_builtin rt query_tokens corpus_tokens k1 b)
      else external algorithm corpus_tokens k1 b query_tokens
  | None => Ok (_bm25_scores_builtin rt query_tokens corpus_tokens k1 b)
  end.

(* ====================================================================== *)
(** * Score fusion *)
(* ====================================================================== *)

Module ScoreFusion.
Section Fusion.
Variable rt : PyRuntime.
Local Open Scope Q_scope.

(** One [if doc_id in ranks: score += w / (k + ranks[doc_id])]. *)
Definition rrf_side (w : Q) (k : Z) (ranks : Dict Z) (doc_id : string)
    (score : Q) : Result Q :=
  match dict_get doc_id ranks with
  | Some r => x <- py_div w (inject_Z (k + r)) ;; Ok (score + x)
  | None => Ok score
  end.

(** The body of the loop of [reciprocal_rank_fusion] for one id. *)
Definition rrf_score (dense_ranks sparse_ranks : Dict Z) (k : Z)
    (w_dense w_sparse : Q) (doc_id : string) : Result Q :=
  score <- rrf_side w_dense k dense_ranks doc_id 0 ;;
  rrf_side w_sparse k sparse_ranks doc_id score.

(** [ScoreFusion.reciprocal_rank_fusion] *)
Definition reciprocal_rank_fusion (dense_ranks sparse_ranks : Dict Z)
    (k : Z) (w_dense w_sparse : Q) : Result (Dict Q) :=
  let all_docs := set_iter rt (dict_keys dense_ranks ++ dict_keys sparse_ranks) in
  foldM
    (fun scores doc_id =>
       score <- rrf_score dense_ranks sparse_ranks k w_dense w_sparse doc_id ;;
       Ok (dict_set doc_id score scores))
    all_docs [].

Definition Qmin_list (x : Q) (l : list Q) : Q :=
  fold_left (fun m v => if Qle_bool m v then m else v) l x.

Definition Qmax_list (x : Q) (l : list Q) : Q :=
  fold_left (fun m v => if Qle_bool v m then m else v) l x.

(** [ScoreFusion._normalize]: min-max normalisation. *)
Definition _normalize (scores : Dict Q) : Dict Q :=
  match dict_values scores with
  | [] => scores
  | v0 :: vs =>
      let min_val := Qmin_list v0 vs in
      let max_val := Qmax_list v0 vs in
      if Qeq_bool max_val min_val
      then map (fun '(k, _) => (k, 1)) scores
      else map (fun '(k, v) => (k, (v - min_val) / (max_val - min_val))) scores
  end.

(** [ScoreFusion.weighted_sum] *)
Definition weighted_sum (dense_scores sparse_scores : Dict Q) (alpha : Q)
    (normalize : bool) : Dict Q :=
  let dense_scores := if normalize then _normalize dense_scores else dense_scores in
  let sparse_scores := if normalize then _normalize sparse_scores else sparse_scores in
  let all_docs := set_iter rt (dict_keys dense_scores ++ dict_keys sparse_scores) in
  fold_left
    (fun scores doc_id =>
       let d_score := match dict_get doc_id dense_scores with
                      | Some v => v | None => 0 end in
       let s_score := match dict_get doc_id sparse_scores with
                      | Some v => v | None => 0 end in
       dict_set doc_id (alpha * d_score + (1 - alpha) * s_score) scores)
    all_docs [].

(** The local [to_unit] of [rank_sum], for [n] documents. *)
Definition to_unit (n : nat) (r : Z) : Q :=
  1 - (inject_Z (r - 1)) / (inject_Z (Z.of_nat n - 1)).

(** [ScoreFusion.rank_sum] *)
Definition rank_sum (dense_ranks sparse_ranks : Dict Z)
    (w_dense w_sparse : Q) : Dict Q :=
  let all_docs := set_iter rt (dict_keys dense_ranks ++ dict_keys sparse_ranks) in
  let n := List.length all_docs in
  if (n <=? 1)%nat
  then map (fun doc_id => (doc_id, w_dense + w_sparse)) all_docs
  else
    fold_left
      (fun scores doc_id =>
         let d_rank := match dict_get doc_id dense_ranks with
                       | Some r => r | None => Z.of_nat n end in
         let s_rank := match dict_get doc_id sparse_ranks with
                       | Some r => r | None => Z.of_nat n end in
         dict_set doc_id
           (w_dense * to_unit n d_rank + w_sparse * to_unit n s_rank) scores)
      all_docs [].
End Fusion.
End ScoreFusion.

(* ====================================================================== *)
(** * Configuration *)
(* ====================================================================== *)

Record RAGConfig : Type := {
  normalize_model : string;
  normalize_temperature : Q;
  generation_model : string;
  generation_temperature : Q;
  fallback_model : string;
  embedding_model : string;
  k_law : Z;
  k_rule : Z;
  k_case : Z;
  search_multiplier : Z;
  enable_hybrid : bool;
  hybrid_method : string;
  hybrid_alpha : Q;
  rrf_k : Z;
  hybrid_dense_weight : Q;
  hybrid_sparse_weight : Q;
  bm25_algorithm : string;
  bm25_k1 : Q;
  bm25_b : Q;
  bm25_max_doc_chars : Z;
  use_kiwi_tokenizer : bool;
  enable_rerank : bool;
  rerank_threshold : Q;
  rerank_model : string;
  rerank_max_documents : Z;
  rerank_doc_max_chars : Z;
  case_candidate_k : Z;
  case_expand_top_n : option Z;
  case_context_top_k : Z;
  dedupe_key_fields : list string
}.

(** The field defaults of the dataclass. *)
Definition default_config : RAGConfig := {|
  normalize_model := "solar-pro2";
  normalize_temperature := 0%Q;
  generation_model := "gpt-4o-mini";
  generation_temperature := (1#10)%Q;
  fallback_model := "exaone3.5:2.4b";
  embedding_model := "solar-embedding-1-large-passage";
  k_law := 5;
  k_rule := 5;
  k_case := 3;
  search_multiplier := 2;
  enable_hybrid := true;
  hybrid_method := "rrf";
  hybrid_alpha := (1#2)%Q;
  rrf_k := 60;
  hybrid_dense_weight := (6#10)%Q;
  hybrid_sparse_weight := (4#10)%Q;
  bm25_algorithm := "builtin";
  bm25_k1 := (3#2)%Q;
  bm25_b := (3#4)%Q;
  bm25_max_doc_chars := 4000;
  use_kiwi_tokenizer := true;
  enable_rerank := true;
  rerank_threshold := (2#10)%Q;
  rerank_model := "rerank-multilingual-v3.0";
  rerank_max_documents := 80;
  rerank_doc_max_chars := 2000;
  case_candidate_k := 40;
  case_expand_top_n := None;
  case_context_top_k := 50;
  dedupe_key_fields := ["chunk_id"; "id"]
|}.

Definition Qbetween (lo x hi : Q) : bool := Qle_bool lo x && Qle_bool x hi.

(** [RAGConfig.__post_init__]: the three checks it makes, in order. *)
Definition RAGConfig_post_init (c : RAGConfig) : Result unit :=
  if negb (Qbetween 0 (generation_temperature c) 2)
  then Raise (ValueError "generation_temperature는 0~2 사이여야 합니다.")
  else if negb (Qbetween 0 (rerank_threshold c) 1)
  then Raise (ValueError "rerank_threshold는 0~1 사이여야 합니다.")
  else if negb (str_mem (hybrid_method c) ["rrf"; "weighted"; "rank_sum"])
  then Raise (ValueError "hybrid_method는 'rrf', 'weighted', 'rank_sum' 중 하나여야 합니다.")
  else Ok tt.

(** Constructing a [RAGConfig]: the dataclass stores the fields and then
    runs [__post_init__]. *)
Definition RAGConfig_new (c : RAGConfig) : Result RAGConfig :=
  _ <- RAGConfig_post_init c ;; Ok c.

(* ====================================================================== *)
(** * The pipeline and its collaborators *)
(* ====================================================================== *)

(** A Pinecone vector store: the scored search, and the plain search with
    its optional [case_no] equality filter.  Either call may raise. *)
Record VectorStore : Type := {
  similarity_search_with_score : string -> Z -> Result (list (Document * Q));
  similarity_search : string -> Z -> option string -> Result (list Document)
}.

(** [cohere.Client.rerank(model, query, documents, top_n)]: pairs of an
    index into [documents] and a relevance score. *)
Definition CohereClient : Type :=
  string -> string -> list string -> Z -> Result (list (Z * Q)).

Record RAGPipeline : Type := {
  config : RAGConfig;
  law_store : VectorStore;
  rule_store : VectorStore;
  case_store : VectorStore;
  (** the normalisation chain, applied to the question *)
  _normalize_llm : string -> Result string;
  (** the generation chain, applied to the context and the question *)
  _generation_llm : string -> string -> Result string;
  _tokenizer : option Tokenizer;
  _cohere_client : option CohereClient;
  (** the optional [rank_bm25] import of the module *)
  rank_bm25 : RankBM25
}.

Definition with_md (d : Document) (k : string) (v : PyVal) : Document :=
  mkDoc (page_content d) (dict_set k v (metadata d)).

(** [md.get(k)], with [None] for a missing key. *)
Definition md_get (k : string) (d : Document) : PyVal :=
  match dict_get k (metadata d) with
  | Some v => v
  | None => VNone
  end.

(** [a or b] *)
Definition py_or (a b : PyVal) : PyVal := if py_truthy a then a else b.

Definition no_answer : string :=
  "죄송합니다. 관련 법령이나 판례를 찾을 수 없습니다.".

Definition generation_failed : string :=
  "죄송합니다. 답변 생성 중 오류가 발생했습니다.".

Definition full_case_prefix : string := "[판례 전문: ".

Definition section_1_header : string :=
  "## [SECTION 1: 핵심 법령 (최우선 법적 근거)]".
Definition section_2_header : string :=
  "## [SECTION 2: 관련 규정 및 절차 (세부 기준)]".
Definition section_3_header : string :=
  "## [SECTION 3: 판례 및 해석 사례 (적용 예시)]".

(** A rank stored in metadata, used as a number.  The pipeline only ever
    stores an [int] there; [None] and strings make the arithmetic raise
    [TypeError].  The rank maps are [Dict[str, int]]: a [float] put there
    by hand, with which the code would go on computing, is outside the
    embedding and is rejected here as well. *)
Definition rank_of (v : PyVal) : Result Z :=
  match v with
  | VInt z => Ok z
  | VBool b => Ok (if b then 1 else 0)
  | _ => Raise TypeError
  end.

Section Pipeline.
Variable rt : PyRuntime.
Variable p : RAGPipeline.
Let cfg : RAGConfig := config p.

(** [normalize_query]: the answer of the normalisation chain, stripped;
    the unchanged question when the chain raises. *)
Definition normalize_query (user_query : string) : string :=
  match _normalize_llm p user_query with
  | Ok normalized => py_strip normalized
  | Raise _ => user_query
  end.

(** [get_full_case_context]: the chunks of one case, sorted by
    [chunk_id], deduplicated and joined; [""] when the search raises. *)
Definition get_full_case_context (case_no : string) : string :=
  match similarity_search (case_store p) "판례 전문 검색"
          (case_context_top_k cfg) (Some case_no) with
  | Ok results =>
      let sorted_docs :=
        sorted_by_str
          (fun x => py_str rt (match dict_get "chunk_id" (metadata x) with
                               | Some v => v | None => VStr "" end))
          results in
      let unique_docs := _dedupe_docs rt sorted_docs (dedupe_key_fields cfg) in
      py_strip (String.concat nl (map page_content unique_docs))
  | Raise _ => ""
  end.

(** [_attach_source] *)
Definition _attach_source (docs : list Document) (source : string)
  : list Document :=
  map (fun d => with_md d "__source_index" (VStr source)) docs.

(** [_get_doc_id] *)
Definition _get_doc_id (doc : Document) : string :=
  match first_key_field rt (metadata doc) (dedupe_key_fields cfg) with
  | Some key => key
  | None => "hash:" ++ str_of_Z (str_hash rt (page_content doc))
  end.

(** [_search_with_dense_rank]: the scored search; when it raises, the
    plain search, whose own exception is not caught. *)
Definition _search_with_dense_rank (store : VectorStore) (query : string)
    (k : Z) : Result (list Document) :=
  match similarity_search_with_score store query k with
  | Ok pairs =>
      Ok (map (fun '(rank, (doc, score)) =>
                 with_md (with_md doc "__dense_score" (VFloat score))
                         "__dense_rank" (VInt rank))
              (enumerate1 pairs))
  | Raise _ =>
      docs <- similarity_search store query k None ;;
      Ok (map (fun '(rank, doc) => with_md doc "__dense_rank" (VInt rank))
              (enumerate1 docs))
  end.

(** The [dense_ranks] and [dense_scores] dictionaries of
    [_hybrid_fusion]. *)
Definition dense_tables (docs : list Document) : Result (Dict Z * Dict Q) :=
  foldM
    (fun '(dense_ranks, dense_scores) '(i, d) =>
       let doc_id := _get_doc_id d in
       r <- rank_of (match dict_get "__dense_rank" (metadata d) with
                     | Some v => v | None => VInt i end) ;;
       s <- py_div 1 (inject_Z r) ;;
       Ok (dict_set doc_id r dense_ranks, dict_set doc_id s dense_scores))
    (enumerate1 docs) ([], []).

(** The [bm25_scores] and [sparse_ranks] dictionaries of
    [_hybrid_fusion]. *)
Definition sparse_tables (tokenizer : Tokenizer) (query : string)
    (docs : list Document) : Result (Dict Q * Dict Z) :=
  let truncated_docs :=
    map (fun d => mkDoc (_truncate (page_content d) (bm25_max_doc_chars cfg))
                        (metadata d)) docs in
  bm25_scores_list <-
    BM25Scorer_fit_score rt (rank_bm25 p) tokenizer (bm25_algorithm cfg)
      (bm25_k1 cfg) (bm25_b cfg) truncated_docs query ;;
  let bm25_scores :=
    fold_left (fun acc '(d, score) => dict_set (_get_doc_id d) score acc)
      (combine docs bm25_scores_list) [] in
  let sorted_bm25 := sorted_by_Q_desc snd bm25_scores in
  let sparse_ranks :=
    fold_left (fun acc '(rank, (doc_id, _)) => dict_set doc_id rank acc)
      (enumerate1 sorted_bm25) [] in
  Ok (bm25_scores, sparse_ranks).

(** The dispatch on [cfg.hybrid_method]. *)
Definition fuse (dense_ranks : Dict Z) (dense_scores : Dict Q)
    (bm25_scores : Dict Q) (sparse_ranks : Dict Z) : Result (Dict Q) :=
  if String.eqb (hybrid_method cfg) "rrf" then
    ScoreFusion.reciprocal_rank_fusion rt dense_ranks sparse_ranks
      (rrf_k cfg) (hybrid_dense_weight cfg) (hybrid_sparse_weight cfg)
  else if String.eqb (hybrid_method cfg) "weighted" then
    Ok (ScoreFusion.weighted_sum rt dense_scores bm25_scores
          (hybrid_alpha cfg) true)
  else
    Ok (ScoreFusion.rank_sum rt dense_ranks sparse_ranks
          (hybrid_dense_weight cfg) (hybrid_sparse_weight cfg)).

(** "Reorder by fused score": the keys of [fused], in the order in which
    the dictionary holds them, sorted by score with [reverse=True]. *)
Definition reorder (fused : Dict Q) (docs : list Document) : list Document :=
  let doc_map :=
    fold_left (fun acc d => dict_set (_get_doc_id d) d acc) docs [] in
  let score_of x := match dict_get x fused with Some v => v | None => 0%Q end in
  let sorted_ids := sorted_by_Q_desc score_of (dict_keys fused) in
  flat_map
    (fun '(rank, doc_id) =>
       match dict_get doc_id doc_map with
       | Some d =>
           [with_md (with_md d "__hybrid_score" (VFloat (score_of doc_id)))
                    "__hybrid_rank" (VInt rank)]
       | None => []
       end)
    (enumerate1 sorted_ids).

(** [_hybrid_fusion] *)
Definition _hybrid_fusion (query : string) (docs : list Document)
  : Result (list Document) :=
  match enable_hybrid cfg, docs, _tokenizer p with
  | true, _ :: _, Some tokenizer =>
      let docs := _dedupe_docs rt docs (dedupe_key_fields cfg) in
      if (List.length docs <=? 1)%nat then Ok docs
      else
        '(dense_ranks, dense_scores) <- dense_tables docs ;;
        '(bm25_scores, sparse_ranks) <- sparse_tables tokenizer query docs ;;
        fused <- fuse dense_ranks dense_scores bm25_scores sparse_ranks ;;
        Ok (reorder fused docs)
  | _, _, _ => Ok docs
  end.

(** The [texts] sent to the rerank client. *)
Definition rerank_texts (docs : list Document) : list string :=
  map (fun d => _truncate (page_content d) (rerank_doc_max_chars cfg)) docs.

(** [_rerank]: [None] without a client, and [None] when the client
    raises. *)
Definition _rerank (query : string) (docs : list Document)
  : option (list (Z * Q)) :=
  match _cohere_client p with
  | None => None
  | Some client =>
      let texts := rerank_texts docs in
      match client (rerank_model cfg) query texts
              (Z.of_nat (List.length texts)) with
      | Ok results => Some results
      | Raise _ => None
      end
  end.

(** [_cap_for_rerank] *)
Definition _cap_for_rerank (law rule case : list Document) : list Document :=
  let law := _dedupe_docs rt law (dedupe_key_fields cfg) in
  let rule := _dedupe_docs rt rule (dedupe_key_fields cfg) in
  let case := _dedupe_docs rt case (dedupe_key_fields cfg) in
  let base := (law ++ rule)%list in
  if rerank_max_documents cfg <=? Z.of_nat (List.length base)
  then slice_to (rerank_max_documents cfg) base
  else
    let remaining := rerank_max_documents cfg - Z.of_nat (List.length base) in
    (base ++ slice_to remaining case)%list.

(** Steps 1 to 3 of [triple_hybrid_retrieval]: the three dense searches
    in source order, the per-index fusion when enabled, and the cap. *)
Definition retrieve_candidates (query : string) : Result (list Document) :=
  let mult := search_multiplier cfg in
  docs_law <- _search_with_dense_rank (law_store p) query (k_law cfg * mult) ;;
  let docs_law := _attach_source docs_law "law" in
  docs_rule <- _search_with_dense_rank (rule_store p) query (k_rule cfg * mult) ;;
  let docs_rule := _attach_source docs_rule "rule" in
  docs_case_chunks <-
    _search_with_dense_rank (case_store p) query (case_candidate_k cfg) ;;
  let docs_case_chunks := _attach_source docs_case_chunks "case" in
  if enable_hybrid cfg then
    docs_law <- _hybrid_fusion query docs_law ;;
    docs_rule <- _hybrid_fusion query docs_rule ;;
    docs_case_chunks <- _hybrid_fusion query docs_case_chunks ;;
    Ok (_cap_for_rerank docs_law docs_rule docs_case_chunks)
  else Ok (_cap_for_rerank docs_law docs_rule docs_case_chunks).

(** The rerank entries kept in step 4 when [ranked] is a non-empty list:
    those at or above the threshold, or else the first [desired] ones. *)
Definition kept_entries (ranked : list (Z * Q)) : list (Z * Q) :=
  match filter (fun '(_, s) => Qle_bool (rerank_threshold cfg) s) ranked with
  | [] =>
      let desired :=
        Z.min (k_law cfg + k_rule cfg + k_case cfg)
              (Z.of_nat (List.length ranked)) in
      slice_to desired ranked
  | filtered => filtered
  end.

(** Step 4 after the call of [_rerank]: [selected_docs]. *)
Definition select_docs (ranked : option (list (Z * Q)))
    (combined : list Document) : Result (list Document) :=
  match ranked with
  | Some ((_ :: _) as ranked) =>
      mapM (fun '(i, _) => py_index combined i) (kept_entries ranked)
  | _ => Ok combined
  end.

(** The selection loop of the case expansion: the first [top_n]
    candidates with a truthy, not yet seen [case_no].  [n] is
    [len(chosen_cases)]; the bound is tested after each append. *)
Fixpoint choose_cases (top_n : Z) (seen : list PyVal) (n : nat)
    (case_ranked : list Document) : list Document :=
  match case_ranked with
  | [] => []
  | d :: ds =>
      let case_no := md_get "case_no" d in
      if negb (py_truthy case_no) || existsb (py_eqb case_no) seen
      then choose_cases top_n seen n ds
      else
        d :: (if top_n <=? Z.of_nat (S n) then []
              else choose_cases top_n (case_no :: seen) (S n) ds)
  end.

(** One round of the expansion loop: nothing for a falsy [case_no], the
    chunk itself when no full text comes back, else the replacement
    document. *)
Definition expand_case (d : Document) : list Document :=
  let case_no := md_get "case_no" d in
  if negb (py_truthy case_no) then []
  else
    let full_text := get_full_case_context (py_str rt case_no) in
    if String.eqb full_text "" then [d]
    else
      let title :=
        py_or (md_get "title" d)
              (py_or (md_get "case_name" d) (VStr (py_str rt case_no))) in
      [mkDoc (full_case_prefix ++ py_str rt title ++ "]" ++ nl ++ full_text)
             (dict_set "__expanded" (VBool true) (metadata d))].

(** [cfg.case_expand_top_n or cfg.k_case] *)
Definition expansion_top_n : Z :=
  match case_expand_top_n cfg with
  | Some n => if n =? 0 then k_case cfg else n
  | None => k_case cfg
  end.

(** The case expansion of step 6, before the cap to [k_case]. *)
Definition expand_cases (case_ranked : list Document) : list Document :=
  flat_map expand_case (choose_cases expansion_top_n [] 0 case_ranked).

Definition from_source (source : string) (d : Document) : bool :=
  match dict_get "__source_index" (metadata d) with
  | Some v => py_eqb v (VStr source)
  | None => false
  end.

Definition priority_key (x : Document) : Z :=
  _safe_int (match dict_get "priority" (metadata x) with
             | Some v => v | None => VInt 99 end) 99.

(** Steps 5 to 7: deduplicate, split by source, cap, expand the cases,
    sort by priority. *)
Definition finalize (selected_docs : list Document) : list Document :=
  let selected_docs := _dedupe_docs rt selected_docs (dedupe_key_fields cfg) in
  let law_ranked := filter (from_source "law") selected_docs in
  let rule_ranked := filter (from_source "rule") selected_docs in
  let case_ranked := filter (from_source "case") selected_docs in
  let final_law := slice_to (k_law cfg) law_ranked in
  let final_rule := slice_to (k_rule cfg) rule_ranked in
  let final_case := slice_to (k_case cfg) (expand_cases case_ranked) in
  sorted_by_Z priority_key (final_law ++ final_rule ++ final_case)%list.

(** [triple_hybrid_retrieval] *)
Definition triple_hybrid_retrieval (query : string) : Result (list Document) :=
  combined <- retrieve_candidates query ;;
  let ranked := if enable_rerank cfg then _rerank query combined else None in
  selected_docs <- select_docs ranked combined ;;
  Ok (finalize selected_docs).

(** The text of one document in the context block. *)
Definition context_entry (doc : Document) : string :=
  let src :=
    match dict_get "src_title" (metadata doc) with
    | Some v => v
    | None => match dict_get "__source_index" (metadata doc) with
              | Some v => v
              | None => VStr "자료"
              end
    end in
  let title := match dict_get "title" (metadata doc) with
               | Some v => v | None => VStr "" end in
  py_strip ("[" ++ py_str rt src ++ "] " ++ py_str rt title ++ nl
            ++ page_content doc).

(** The three section lists built by the loop of
    [format_context_with_hierarchy]. *)
Definition sections (docs : list Document)
  : list string * list string * list string :=
  fold_left
    (fun '(section_1_law, section_2_rule, section_3_case) doc =>
       let pr := priority_key doc in
       let entry := context_entry doc in
       if existsb (Z.eqb pr) [1; 2; 4; 5]
       then ((section_1_law ++ [entry])%list, section_2_rule, section_3_case)
       else if existsb (Z.eqb pr) [3; 6; 7; 8; 11]
       then (section_1_law, (section_2_rule ++ [entry])%list, section_3_case)
       else (section_1_law, section_2_rule, (section_3_case ++ [entry])%list))
    docs ([], [], []).

(** One [if section: parts.append(header + join(section))]. *)
Definition add_part (header : string) (section : list string)
    (parts : list string) : list string :=
  match section with
  | [] => parts
  | _ =>
      (parts ++ [(header ++ nl ++ String.concat (nl ++ nl) section)%string])%list
  end.

(** [format_context_with_hierarchy] *)
Definition format_context_with_hierarchy (docs : list Document) : string :=
  let '(section_1_law, section_2_rule, section_3_case) := sections docs in
  let parts := add_part section_1_header section_1_law [] in
  let parts := add_part section_2_header section_2_rule parts in
  let parts := add_part section_3_header section_3_case parts in
  py_strip (String.concat (nl ++ nl) parts).

(** [generate_answer] *)
Definition generate_answer (user_input : string) (skip_normalization : bool)
  : Result string :=
  let normalized_query :=
    if skip_normalization then user_input else normalize_query user_input in
  retrieved_docs <- triple_hybrid_retrieval normalized_query ;;
  match retrieved_docs with
  | [] => Ok no_answer
  | _ =>
      let hierarchical_context := format_context_with_hierarchy retrieved_docs in
      match _generation_llm p hierarchical_context normalized_query with
      | Ok answer => Ok (py_strip answer)
      | Raise _ => Ok generation_failed
      end
  end.
End Pipeline.

(* ====================================================================== *)
(** * Concrete runtimes and fixtures *)
(* ====================================================================== *)

(** A rational approximation of the natural logarithm: four terms of
    [2 * artanh((x-1)/(x+1))]. *)
Definition log_series (x : Q) : Q :=
  let z := Qred ((x - 1) / (x + 1)) in
  Qred (2 * (z + z ^ 3 / 3 + z ^ 5 / 5 + z ^ 7 / 7)).

Fixpoint frac_digits (fuel : nat) (num den : Z) : string :=
  match fuel with
  | O => ""
  | S fuel' =>
      if num =? 0 then ""
      else str_of_Z (10 * num / den) ++ frac_digits fuel' ((10 * num) mod den) den
  end.

(** Decimal rendering of a rational, sixteen fractional digits at most. *)
Definition decimal_repr (q : Q) : string :=
  let n := Qnum q in
  let d := Zpos (Qden q) in
  let a := Z.abs n in
  let fp := frac_digits 16 (a mod d) d in
  (if n <? 0 then "-" else "") ++ str_of_Z (a / d) ++ "."
  ++ (if String.eqb fp "" then "0" else fp).

Definition poly_hash (s : string) : Z :=
  fold_left (fun h c => (31 * h + ord c) mod 2305843009213693951)
            (list_ascii_of_string s) 7.

(** A process whose sets enumerate their elements in insertion order. *)
Definition rt_insertion : PyRuntime := {|
  math_log := log_series;
  float_repr := decimal_repr;
  str_hash := poly_hash;
  set_iter := fun l => rev (nodup string_dec (rev l))
|}.

(** A process with another hash seed: the same sets come out reversed. *)
Definition rt_reversed : PyRuntime := {|
  math_log := log_series;
  float_repr := decimal_repr;
  str_hash := poly_hash;
  set_iter := fun l => nodup string_dec (rev l)
|}.

(** A store that answers every search with the first [k] of [docs]
    (restricted to one [case_no] when a filter is given). *)
Definition fixture_store (docs : list (Document * Q)) : VectorStore := {|
  similarity_search_with_score := fun _ k => Ok (slice_to k docs);
  similarity_search := fun _ k flt =>
    Ok (slice_to k
          (filter (fun d => match flt with
                            | Some c => py_eqb (md_get "case_no" d) (VStr c)
                            | None => true
                            end)
                  (map fst docs)))
|}.

(** A store whose two searches both raise. *)
Definition unreachable_store (who : string) : VectorStore := {|
  similarity_search_with_score := fun _ _ => Raise (ServiceError who);
  similarity_search := fun _ _ _ => Raise (ServiceError who)
|}.

(** A copy of [c] with another multiplier, other fusion weights and
    another expansion bound. *)
Definition configure (c : RAGConfig) (mult : Z) (w_dense w_sparse : Q)
    (top_n : option Z) : RAGConfig := {|
  normalize_model := normalize_model c;
  normalize_temperature := normalize_temperature c;
  generation_model := generation_model c;
  generation_temperature := generation_temperature c;
  fallback_model := fallback_model c;
  embedding_model := embedding_model c;
  k_law := k_law c;
  k_rule := k_rule c;
  k_case := k_case c;
  search_multiplier := mult;
  enable_hybrid := enable_hybrid c;
  hybrid_method := hybrid_method c;
  hybrid_alpha := hybrid_alpha c;
  rrf_k := rrf_k c;
  hybrid_dense_weight := w_dense;
  hybrid_sparse_weight := w_sparse;
  bm25_algorithm := bm25_algorithm c;
  bm25_k1 := bm25_k1 c;
  bm25_b := bm25_b c;
  bm25_max_doc_chars := bm25_max_doc_chars c;
  use_kiwi_tokenizer := use_kiwi_tokenizer c;
  enable_rerank := enable_rerank c;
  rerank_threshold := rerank_threshold c;
  rerank_model := rerank_model c;
  rerank_max_documents := rerank_max_documents c;
  rerank_doc_max_chars := rerank_doc_max_chars c;
  case_candidate_k := case_candidate_k c;
  case_expand_top_n := top_n;
  case_context_top_k := case_context_top_k c;
  dedupe_key_fields := dedupe_key_fields c
|}.

Definition set_search_multiplier (m : Z) (c : RAGConfig) : RAGConfig :=
  configure c m (hybrid_dense_weight c) (hybrid_sparse_weight c)
            (case_expand_top_n c).

Definition set_hybrid_weights (w_dense w_sparse : Q) (c : RAGConfig)
  : RAGConfig :=
  configure c (search_multiplier c) w_dense w_sparse (case_expand_top_n c).

Definition set_case_expand_top_n (n : option Z) (c : RAGConfig) : RAGConfig :=
  configure c (search_multiplier c) (hybrid_dense_weight c)
            (hybrid_sparse_weight c) n.

(** A pipeline over three stores.  The language models echo their input
    when [llm_up] holds and raise otherwise; [client] is the rerank
    client, if any. *)
Definition fixture_pipeline (c : RAGConfig) (law rule case : VectorStore)
    (client : option CohereClient) (llm_up : bool) : RAGPipeline := {|
  config := c;
  law_store := law;
  rule_store := rule;
  case_store := case;
  _normalize_llm := fun q =>
    if llm_up then Ok q else Raise (ServiceError "solar-pro2");
  _generation_llm := fun ctx q =>
    if llm_up then Ok ctx else Raise (ServiceError "gpt-4o-mini");
  _tokenizer := if enable_hybrid c then Some (SimpleTokenizer 1) else None;
  _cohere_client := client;
  rank_bm25 := None
|}.

Definition chunk (id : string) (text : string) (extra : Dict PyVal) : Document :=
  mkDoc text (("chunk_id", VStr id) :: extra).

(** Two statute chunks; only the second contains the query word. *)
Definition doc_A : Document := chunk "A" "lease term and renewal" [].
Definition doc_B : Document := chunk "B" "return of the deposit" [].

Definition equal_weight_config : RAGConfig :=
  set_hybrid_weights (1#2) (1#2) default_config.

Definition tie_pipeline : RAGPipeline :=
  fixture_pipeline equal_weight_config
    (fixture_store [(doc_A, (9#10)%Q); (doc_B, (8#10)%Q)])
    (fixture_store []) (fixture_store []) None true.

Definition chunk_ids (docs : list Document) : list PyVal :=
  map (md_get "chunk_id") docs.

Definition ranked_A : Document := with_md doc_A "__dense_rank" (VInt 1).
Definition ranked_B : Document := with_md doc_B "__dense_rank" (VInt 2).

(** The chunk ids and fused scores of a fusion result, in output order. *)
Definition fusion_outcome (rt : PyRuntime) (p : RAGPipeline) (query : string)
    (docs : list Document) : Result (list PyVal * list PyVal) :=
  out <- _hybrid_fusion rt p query docs ;;
  Ok (chunk_ids out, map (md_get "__hybrid_score") out).

(** A case store that answers the scored search but raises on the plain
    search, which is the one the full-text fetch uses. *)
Definition half_store (docs : list (Document * Q)) (who : string)
  : VectorStore := {|
  similarity_search_with_score := fun _ k => Ok (slice_to k docs);
  similarity_search := fun _ _ _ => Raise (ServiceError who)
|}.

Definition failing_client (who : string) : CohereClient :=
  fun _ _ _ _ => Raise (ServiceError who).

(** Five case-law chunks of two rulings. *)
Definition case_chunk (id no title text : string) : Document :=
  chunk id text [("case_no", VStr no); ("title", VStr title); ("priority", VInt 9)].

Definition case_chunks : list Document :=
  [ case_chunk "c1" "2019da1" "Deposit ruling" "deposit part one";
    case_chunk "c2" "2019da1" "Deposit ruling" "deposit part two";
    case_chunk "c3" "2020da7" "Renewal ruling" "renewal part one";
    case_chunk "c4" "2019da1" "Deposit ruling" "deposit part three";
    case_chunk "c5" "2020da7" "Renewal ruling" "renewal part two" ].

Definition scored (docs : list Document) : list (Document * Q) :=
  map (fun d => (d, (1#2)%Q)) docs.

Definition statute : Document :=
  chunk "s1" "the lessor returns the deposit" [("priority", VInt 1)].
Definition regulation : Document :=
  chunk "r1" "procedure for the deposit claim" [("priority", VInt 3)].

(** Every collaborator but the dense searches is down: the rerank client,
    the full-text search and both language models raise. *)
Definition degraded_pipeline : RAGPipeline :=
  fixture_pipeline default_config
    (fixture_store (scored [statute]))
    (fixture_store (scored [regulation]))
    (half_store (scored case_chunks) "case-index-final")
    (Some (failing_client "cohere")) false.

(** The statute index cannot be reached at all. *)
Definition down_pipeline : RAGPipeline :=
  fixture_pipeline default_config
    (unreachable_store "law-index-final")
    (fixture_store (scored [regulation]))
    (fixture_store (scored case_chunks))
    None true.

(** All collaborators answer; at most two cases are expanded. *)
Definition case_pipeline : RAGPipeline :=
  fixture_pipeline (set_case_expand_top_n (Some 2) default_config)
    (fixture_store (scored [statute]))
    (fixture_store (scored [regulation]))
    (fixture_store (scored case_chunks))
    None true.

(** The three result counts of a configuration. *)
Definition set_result_counts (n_law n_rule n_case : Z) (c : RAGConfig)
  : RAGConfig := {|
  normalize_model := normalize_model c;
  normalize_temperature := normalize_temperature c;
  generation_model := generation_model c;
  generation_temperature := generation_temperature c;
  fallback_model := fallback_model c;
  embedding_model := embedding_model c;
  k_law := n_law;
  k_rule := n_rule;
  k_case := n_case;
  search_multiplier := search_multiplier c;
  enable_hybrid := enable_hybrid c;
  hybrid_method := hybrid_method c;
  hybrid_alpha := hybrid_alpha c;
  rrf_k := rrf_k c;
  hybrid_dense_weight := hybrid_dense_weight c;
  hybrid_sparse_weight := hybrid_sparse_weight c;
  bm25_algorithm := bm25_algorithm c;
  bm25_k1 := bm25_k1 c;
  bm25_b := bm25_b c;
  bm25_max_doc_chars := bm25_max_doc_chars c;
  use_kiwi_tokenizer := use_kiwi_tokenizer c;
  enable_rerank := enable_rerank c;
  rerank_threshold := rerank_threshold c;
  rerank_model := rerank_model c;
  rerank_max_documents := rerank_max_documents c;
  rerank_doc_max_chars := rerank_doc_max_chars c;
  case_candidate_k := case_candidate_k c;
  case_expand_top_n := case_expand_top_n c;
  case_context_top_k := case_context_top_k c;
  dedupe_key_fields := dedupe_key_fields c
|}.

(** A rerank client whose scores all stay below the default threshold. *)
Definition lukewarm_client : CohereClient :=
  fun _ _ _ _ => Ok [(0, (1#10)%Q); (1, (5#100)%Q)].

(** All three result counts are zero; the case-law search still asks for
    [case_candidate_k] chunks. *)
Definition zero_count_pipeline : RAGPipeline :=
  fixture_pipeline (set_result_counts 0 0 0 default_config)
    (fixture_store (scored [statute]))
    (fixture_store (scored [regulation]))
    (fixture_store (scored case_chunks))
    (Some lukewarm_client) true.

(** Five case-law chunks of two rulings again; the texts of the first
    ruling begin or end with a blank, those of the second are one blank
    each. *)
Definition padded_case_chunks : list Document :=
  [ case_chunk "c1" "2019da1" "Deposit ruling" " deposit part one";
    case_chunk "c2" "2019da1" "Deposit ruling" "deposit part two";
    case_chunk "c3" "2020da7" "Renewal ruling" " ";
    case_chunk "c4" "2019da1" "Deposit ruling" "deposit part three ";
    case_chunk "c5" "2020da7" "Renewal ruling" " " ].

Definition padded_pipeline : RAGPipeline :=
  fixture_pipeline (set_case_expand_top_n (Some 2) default_config)
    (fixture_store (scored [statute]))
    (fixture_store (scored [regulation]))
    (fixture_store (scored padded_case_chunks))
    None true.

(* ====================================================================== *)
(** * The design document's wording, as definitions *)
(* ====================================================================== *)

(** The tier of a document as the design document words it: priorities
    1, 2, 4, 5 are tier 1; 3, 6, 7, 8, 11 are tier 2; anything else, a
    missing priority and one that does not parse are tier 3. *)
Definition spec_tier (d : Document) : nat :=
  match dict_get "priority" (metadata d) with
  | None => 3%nat
  | Some v =>
      match py_int v with
      | None => 3%nat
      | Some z =>
          if existsb (Z.eqb z) [1; 2; 4; 5] then 1%nat
          else if existsb (Z.eqb z) [3; 6; 7; 8; 11] then 2%nat
          else 3%nat
      end
  end.

(** The rendered entries of the documents of tier [t], in input order. *)
Definition tier_entries (rt : PyRuntime) (t : nat) (docs : list Document)
  : list string :=
  map (context_entry rt) (filter (fun d => Nat.eqb (spec_tier d) t) docs).

(** What a tier contributes to the output: nothing when it is empty, else
    its header and its entries separated by blank lines. *)
Definition tier_block (header : string) (entries : list string) : list string :=
  match entries with
  | [] => []
  | _ => [header ++ nl ++ String.concat (nl ++ nl) entries]
  end.

(** What one side adds to a reciprocal-rank score: [w / (k + rank)] for a
    ranked document, nothing for a document that side does not rank. *)
Definition rrf_term (w : Q) (k : Z) (ranks : Dict Z) (doc_id : string) : Q :=
  match dict_get doc_id ranks with
  | Some r => (w / inject_Z (k + r))%Q
  | None => 0%Q
  end.

(** The text of a ruling as the design document words it: the chunks
    sorted by [chunk_id], deduplicated by the configured keys, their
    texts joined by newlines. *)
Definition concatenated_chunk_text (rt : PyRuntime) (p : RAGPipeline)
    (chunks : list Document) : string :=
  String.concat nl
    (map page_content
       (_dedupe_docs rt
          (sorted_by_str
             (fun x => py_str rt (match dict_get "chunk_id" (metadata x) with
                                  | Some v => v | None => VStr "" end))
             chunks)
          (dedupe_key_fields (config p)))).

(** The replacement document of a candidate [d] of case number [c] whose
    fetched chunks are [chunks]: the title in the bracket, then the text
    of the ruling without the blanks at its two ends; the metadata of
    [d] with the flag added. *)
Definition replacement_document (rt : PyRuntime) (p : RAGPipeline)
    (d : Document) (c : string) (chunks : list Document) : Document :=
  mkDoc (full_case_prefix
         ++ py_str rt (py_or (md_get "title" d)
                             (py_or (md_get "case_name" d) (VStr c)))
         ++ "]" ++ nl ++ py_strip (concatenated_chunk_text rt p chunks))
        (dict_set "__expanded" (VBool true) (metadata d)).

(** A candidate of case number [c], and a candidate without a case
    number (missing, [None] or empty). *)
Definition case_is (c : string) (d : Document) : Prop :=
  md_get "case_no" d = VStr c.

Definition no_case (d : Document) : Prop :=
  py_truthy (md_get "case_no" d) = false.

(** A rerank entry whose index points into [combined]. *)
Definition index_in_range (combined : list Document) (e : Z * Q) : Prop :=
  0 <= fst e < Z.of_nat (List.length combined).

(** The number of distinct documents of two rank maps. *)
Definition distinct_docs (dense_ranks sparse_ranks : Dict Z) : nat :=
  List.length (nodup string_dec (dict_keys dense_ranks ++ dict_keys sparse_ranks)).

(* ====================================================================== *)
(** * Definitions used by the further properties *)
(* ====================================================================== *)

(** The fused score and the fused rank that the reordering writes into a
    document's metadata. *)
Definition hybrid_score_of (d : Document) : Q :=
  match md_get "__hybrid_score" d with
  | VFloat q => q
  | _ => 0%Q
  end.

Definition hybrid_rank_of (d : Document) : Z :=
  match md_get "__hybrid_rank" d with
  | VInt z => z
  | _ => 0
  end.

(** The documents of step 6 before the priority sort: capped statutes,
    capped regulations, capped expanded cases. *)
Definition merged_docs (rt : PyRuntime) (p : RAGPipeline)
    (selected_docs : list Document) : list Document :=
  let selected_docs :=
    _dedupe_docs rt selected_docs (dedupe_key_fields (config p)) in
  (slice_to (k_law (config p)) (filter (from_source "law") selected_docs)
   ++ slice_to (k_rule (config p)) (filter (from_source "rule") selected_docs)
   ++ slice_to (k_case (config p))
        (expand_cases rt p (filter (from_source "case") selected_docs)))%list.

(** A rerank index that Python's list indexing rejects. *)
Definition index_rejected (combined : list Document) (e : Z * Q) : Prop :=
  fst e < - Z.of_nat (List.length combined)
  \/ Z.of_nat (List.length combined) <= fst e.

(** A pipeline whose rerank client answers with an index that no
    candidate has. *)
Definition misindexing_pipeline : RAGPipeline :=
  fixture_pipeline default_config
    (fixture_store (scored [statute]))
    (fixture_store (scored [regulation]))
    (fixture_store (scored case_chunks))
    (Some (fun _ _ _ _ => Ok [(99, (9#10)%Q)])) true.

(** [e] is [d] up to the two metadata fields that the fusion writes. *)
Definition same_up_to_hybrid_fields (d e : Document) : Prop :=
  page_content e = page_content d
  /\ forall k, k <> "__hybrid_score" -> k <> "__hybrid_rank" ->
               dict_get k (metadata e) = dict_get k (metadata d).

(** Well-formed characters: a character is a byte followed by continuation
    bytes; every character but the first of a string opens with a byte that
    is not a continuation byte. *)
Definition char_ok (c : Char) : bool :=
  match c with
  | [] => false
  | _ :: bs => forallb is_continuation bs
  end.

Definition char_opens (c : Char) : bool :=
  match c with
  | [] => false
  | b :: bs => negb (is_continuation b) && forallb is_continuation bs
  end.

Definition chars_ok (l : list Char) : bool :=
  match l with
  | [] => true
  | c :: cs => char_ok c && forallb char_opens cs
  end.

(** The token class after [lower]: digits, small letters, Hangul
    syllables. *)
Definition is_lower_token_char (c : Char) : bool :=
  let n := code_point c in
  ((48 <=? n) && (n <=? 57)) || ((97 <=? n) && (n <=? 122))
  || ((44032 <=? n) && (n <=? 55203)).

(** A document that carries one of the three source tags. *)
Definition source_tagged (d : Document) : bool :=
  from_source "law" d || from_source "rule" d || from_source "case" d.

(* ====================================================================== *)
(** * Properties *)
(* ====================================================================== *)

(** ** Dictionaries and folds *)

Lemma dict_get_set_same {V : Type} (k : string) (v : V) (d : Dict V) :
  dict_get k (dict_set k v d) = Some v.
Proof.
  induction d as [|[k' v'] rest IH]; simpl.
  - now rewrite String.eqb_refl.
  - destruct (String.eqb k k') eqn:E; simpl; rewrite E; auto.
Qed.

Lemma dict_get_set_other {V : Type} (k k' : string) (v : V) (d : Dict V) :
  k' <> k -> dict_get k' (dict_set k v d) = dict_get k' d.
Proof.
  intros Hne. induction d as [|[k0 v0] rest IH]; simpl.
  - destruct (String.eqb k' k) eqn:E; auto.
    apply String.eqb_eq in E. contradiction.
  - destruct (String.eqb k k0) eqn:E; simpl.
    + apply String.eqb_eq in E. subst k0.
      destruct (String.eqb k' k) eqn:E'; auto.
      apply String.eqb_eq in E'. contradiction.
    + destruct (String.eqb k' k0); auto.
Qed.

(** ** The stable sort *)

Lemma insert_stable_perm {A : Type} (before : A -> A -> bool) (x : A)
    (l : list A) :
  Permutation (x :: l) (insert_stable before x l).
Proof.
  induction l as [|y ys IH]; simpl; [reflexivity|].
  destruct (before y x); [|reflexivity].
  rewrite perm_swap. now constructor.
Qed.

Lemma stable_sort_perm {A : Type} (before : A -> A -> bool) (l : list A) :
  Permutation l (stable_sort before l).
Proof.
  induction l as [|x xs IH]; simpl; [constructor|].
  rewrite <- insert_stable_perm. now constructor.
Qed.

(** [sorted(..., reverse=True)] returns the keys in non-increasing order. *)
Lemma sorted_by_Q_desc_sorted {A : Type} (key : A -> Q) (l : list A) :
  StronglySorted (fun a b => (key b <= key a)%Q) (sorted_by_Q_desc key l).
Proof.
  unfold sorted_by_Q_desc.
  induction l as [|x xs IH]; simpl; [constructor|].
  revert IH. generalize (stable_sort
    (fun y x0 => negb (Qle_bool (key y) (key x0))) xs) as sorted.
  induction sorted as [|y ys IHs]; intros Hs; simpl.
  - repeat constructor.
  - destruct (Qle_bool (key y) (key x)) eqn:E; simpl.
    + apply Qle_bool_iff in E. constructor; [exact Hs|].
      constructor; [exact E|].
      apply StronglySorted_inv in Hs. destruct Hs as [_ Hall].
      eapply Forall_impl; [|exact Hall].
      intros z Hz. simpl in Hz. now apply Qle_trans with (key y).
    + pose proof Hs as Hs'. apply StronglySorted_inv in Hs'.
      destruct Hs' as [Hys Hall].
      constructor; [now apply IHs|].
      apply (Permutation_Forall (insert_stable_perm _ x ys)).
      constructor; [|exact Hall].
      apply Qlt_le_weak, Qnot_le_lt. intros H.
      apply Qle_bool_iff in H. congruence.
Qed.

(** Equal keys keep their order: a list that is already in non-increasing
    key order comes back unchanged. *)
Lemma sorted_by_Q_desc_fixes_sorted {A : Type} (key : A -> Q) (l : list A) :
  StronglySorted (fun a b => (key b <= key a)%Q) l ->
  sorted_by_Q_desc key l = l.
Proof.
  unfold sorted_by_Q_desc.
  induction 1 as [|x xs Hs IH Hall]; simpl; [reflexivity|].
  rewrite IH. destruct xs as [|y ys]; simpl; [reflexivity|].
  apply Forall_inv in Hall. apply Qle_bool_iff in Hall. now rewrite Hall.
Qed.

(** ** Configuration *)

Lemma post_init_ignores_multiplier (m : Z) (c : RAGConfig) :
  RAGConfig_post_init (set_search_multiplier m c) = RAGConfig_post_init c.
Proof. reflexivity. Qed.

(** C8.  The claim asks that a configuration with an oversampling
    multiplier below 1 be rejected when it is built.  [__post_init__] of
    this module checks the generation temperature, the rerank threshold and
    the fusion method only: the default configuration with
    [search_multiplier = 0] is constructed without error, and the dense
    searches are then asked for [k_law * 0 = 0] candidates. *)
Theorem zero_multiplier_is_accepted :
  RAGConfig_new (set_search_multiplier 0 default_config)
  = Ok (set_search_multiplier 0 default_config)
  /\ k_law (set_search_multiplier 0 default_config)
     * search_multiplier (set_search_multiplier 0 default_config) = 0.
Proof. split; reflexivity. Qed.

(** ** Fusion order *)

(** C1.  The claim asks that ties of the fused score keep the input order
    and that equal inputs give equal orders.  Here the two documents enter
    as [A; B], the reciprocal-rank scores tie (ranks 1,2 against 2,1 with
    equal weights), and the output order is the order in which the set of
    document ids is enumerated: [A; B] in one process, [B; A] in a process
    whose string hash enumerates the same set the other way round. *)
Theorem fusion_tie_follows_set_order :
  chunk_ids [ranked_A; ranked_B] = [VStr "A"; VStr "B"]
  /\ fusion_outcome rt_insertion tie_pipeline "deposit" [ranked_A; ranked_B]
     = Ok ([VStr "A"; VStr "B"], [VFloat (246 # 15128); VFloat (246 # 15128)])
  /\ fusion_outcome rt_reversed tie_pipeline "deposit" [ranked_A; ranked_B]
     = Ok ([VStr "B"; VStr "A"], [VFloat (246 # 15128); VFloat (246 # 15128)]).
Proof. repeat split; vm_compute; reflexivity. Qed.

(** ** Context hierarchy *)

Lemma spec_tier_priority_key (d : Document) :
  spec_tier d =
    if existsb (Z.eqb (priority_key d)) [1; 2; 4; 5] then 1%nat
    else if existsb (Z.eqb (priority_key d)) [3; 6; 7; 8; 11] then 2%nat
    else 3%nat.
Proof.
  unfold spec_tier, priority_key, _safe_int.
  destruct (dict_get "priority" (metadata d)) as [v|]; [|reflexivity].
  destruct (py_int v); reflexivity.
Qed.

Lemma sections_from (rt : PyRuntime) (docs : list Document) :
  forall s1 s2 s3,
    fold_left
      (fun '(section_1_law, section_2_rule, section_3_case) doc =>
         let pr := priority_key doc in
         let entry := context_entry rt doc in
         if existsb (Z.eqb pr) [1; 2; 4; 5]
         then ((section_1_law ++ [entry])%list, section_2_rule, section_3_case)
         else if existsb (Z.eqb pr) [3; 6; 7; 8; 11]
         then (section_1_law, (section_2_rule ++ [entry])%list, section_3_case)
         else (section_1_law, section_2_rule, (section_3_case ++ [entry])%list))
      docs (s1, s2, s3)
    = ((s1 ++ tier_entries rt 1 docs)%list,
       (s2 ++ tier_entries rt 2 docs)%list,
       (s3 ++ tier_entries rt 3 docs)%list).
Proof.
  induction docs as [|d ds IH]; intros s1 s2 s3.
  - unfold tier_entries; simpl. now rewrite !app_nil_r.
  - cbn [fold_left]. cbv zeta.
    unfold tier_entries. cbn [filter].
    rewrite (spec_tier_priority_key d).
    destruct (existsb (Z.eqb (priority_key d)) [1; 2; 4; 5]) eqn:E1.
    + rewrite IH. unfold tier_entries. cbn [Nat.eqb map].
      now rewrite <- app_assoc.
    + destruct (existsb (Z.eqb (priority_key d)) [3; 6; 7; 8; 11]) eqn:E2;
        rewrite IH; unfold tier_entries; cbn [Nat.eqb map];
        now rewrite <- app_assoc.
Qed.

Lemma add_part_block (header : string) (section parts : list string) :
  add_part header section parts = (parts ++ tier_block header section)%list.
Proof.
  destruct section; simpl; [now rewrite app_nil_r | reflexivity].
Qed.

(** C7.  The three section lists of the formatter are the entries of the
    documents of tier 1, 2 and 3 in input order, where the tier is the one
    the design document describes (priority 9, a missing priority and an
    unparseable one are tier 3, priority 3 is tier 2); the output is made
    of the blocks of the non-empty tiers only, an empty tier adding neither
    header nor text. *)
Theorem context_follows_priority_tiers (rt : PyRuntime) (docs : list Document) :
  sections rt docs
  = (tier_entries rt 1 docs, tier_entries rt 2 docs, tier_entries rt 3 docs)
  /\ format_context_with_hierarchy rt docs
     = py_strip
         (String.concat (nl ++ nl)
            (tier_block section_1_header (tier_entries rt 1 docs)
             ++ tier_block section_2_header (tier_entries rt 2 docs)
             ++ tier_block section_3_header (tier_entries rt 3 docs))%list)
  /\ tier_block section_1_header [] = []
  /\ spec_tier (mkDoc "" [("priority", VInt 9)]) = 3%nat
  /\ spec_tier (mkDoc "" [("title", VStr "t")]) = 3%nat
  /\ spec_tier (mkDoc "" [("priority", VStr "n/a")]) = 3%nat
  /\ spec_tier (mkDoc "" [("priority", VNone)]) = 3%nat
  /\ spec_tier (mkDoc "" [("priority", VInt 3)]) = 2%nat
  /\ spec_tier (mkDoc "" [("priority", VStr "4")]) = 1%nat.
Proof.
  assert (Hs : sections rt docs
    = (tier_entries rt 1 docs, tier_entries rt 2 docs, tier_entries rt 3 docs)).
  { unfold sections. now rewrite sections_from. }
  split; [exact Hs|].
  split.
  - unfold format_context_with_hierarchy. rewrite Hs.
    rewrite !add_part_block. simpl app at 1. now rewrite <- app_assoc.
  - repeat split; reflexivity.
Qed.

(** ** Sets and dictionaries built by a loop *)

Lemma rt_insertion_ok : set_iter_ok rt_insertion.
Proof.
  intros l. simpl. split.
  - apply NoDup_rev, NoDup_nodup.
  - intros x. rewrite <- in_rev, nodup_In, <- in_rev. tauto.
Qed.

Lemma rt_reversed_ok : set_iter_ok rt_reversed.
Proof.
  intros l. simpl. split.
  - apply NoDup_nodup.
  - intros x. rewrite nodup_In, <- in_rev. tauto.
Qed.

Lemma set_iter_length (rt : PyRuntime) (l : list string) :
  set_iter_ok rt ->
  List.length (set_iter rt l) = List.length (nodup string_dec l).
Proof.
  intros Hrt. destruct (Hrt l) as [Hnd Hin].
  apply Permutation_length, NoDup_Permutation; auto using NoDup_nodup.
  intros x. rewrite Hin, nodup_In. tauto.
Qed.

Lemma dict_get_In_keys {V : Type} (k : string) (v : V) (d : Dict V) :
  dict_get k d = Some v -> In k (dict_keys d).
Proof.
  induction d as [|[k' v'] rest IH]; simpl; [discriminate|].
  destruct (String.eqb k k') eqn:E.
  - apply String.eqb_eq in E. auto.
  - auto.
Qed.

Lemma fold_dict_set_get {V : Type} (f : string -> V) (l : list string) :
  forall (acc : Dict V) (x : string),
    In x l \/ dict_get x acc = Some (f x) ->
    dict_get x (fold_left (fun s id => dict_set id (f id) s) l acc) = Some (f x).
Proof.
  induction l as [|a l IH]; intros acc x H; simpl.
  - destruct H as [[]|H]; exact H.
  - apply IH. destruct (string_dec x a) as [->|Hne].
    + right. apply dict_get_set_same.
    + destruct H as [[Ha|Hl]|Hacc].
      * congruence.
      * now left.
      * right. now rewrite dict_get_set_other.
Qed.

Lemma foldM_dict_set_get {V : Type} (f : string -> Result V) (l : list string) :
  forall (acc res : Dict V) (x : string),
    foldM (fun s id => v <- f id ;; Ok (dict_set id v s)) l acc = Ok res ->
    In x l \/ (exists v, f x = Ok v /\ dict_get x acc = Some v) ->
    exists v, f x = Ok v /\ dict_get x res = Some v.
Proof.
  induction l as [|a l IH]; intros acc res x Hrun H; simpl in Hrun.
  - injection Hrun as <-. destruct H as [[]|H]; exact H.
  - destruct (f a) as [va|e] eqn:Ea; simpl in Hrun; [|discriminate].
    apply (IH _ _ _ Hrun).
    destruct (string_dec x a) as [->|Hne].
    + right. exists va. split; [exact Ea | apply dict_get_set_same].
    + destruct H as [[Ha|Hl]|(v & Hv & Hacc)].
      * congruence.
      * now left.
      * right. exists v. split; [exact Hv|]. now rewrite dict_get_set_other.
Qed.

Lemma foldM_dict_set_ok {V : Type} (f : string -> Result V) (l : list string) :
  forall acc : Dict V,
    (forall x, In x l -> exists v, f x = Ok v) ->
    exists res, foldM (fun s id => v <- f id ;; Ok (dict_set id v s)) l acc = Ok res.
Proof.
  induction l as [|a l IH]; intros acc H; simpl.
  - now exists acc.
  - destruct (H a (or_introl eq_refl)) as [va Ea]. rewrite Ea. simpl.
    apply IH. intros x Hx. apply H. now right.
Qed.

(** ** Rational arithmetic *)

Lemma inject_Z_nonzero (z : Z) : z <> 0 -> ~ (inject_Z z == 0)%Q.
Proof.
  intros Hz H. unfold Qeq in H. simpl in H. lia.
Qed.

Lemma py_div_ok (a b : Q) : ~ (b == 0)%Q -> py_div a b = Ok (a / b)%Q.
Proof.
  intros Hb. unfold py_div.
  destruct (Qeq_bool b 0) eqn:E; [|reflexivity].
  apply Qeq_bool_eq in E. contradiction.
Qed.

(** ** Reciprocal rank fusion *)

Lemma rrf_score_value (dense sparse : Dict Z) (k : Z) (wd ws : Q)
    (doc_id : string) (s : Q) :
  ScoreFusion.rrf_score dense sparse k wd ws doc_id = Ok s ->
  (s == rrf_term wd k dense doc_id + rrf_term ws k sparse doc_id)%Q.
Proof.
  unfold ScoreFusion.rrf_score, ScoreFusion.rrf_side, rrf_term, py_div.
  destruct (dict_get doc_id dense) as [rd|];
    destruct (dict_get doc_id sparse) as [rs|]; simpl.
  - destruct (Qeq_bool (inject_Z (k + rd)) 0); simpl; [discriminate|].
    destruct (Qeq_bool (inject_Z (k + rs)) 0); simpl; [discriminate|].
    intros H. injection H as <-. ring.
  - destruct (Qeq_bool (inject_Z (k + rd)) 0); simpl; [discriminate|].
    intros H. injection H as <-. ring.
  - destruct (Qeq_bool (inject_Z (k + rs)) 0); simpl; [discriminate|].
    intros H. injection H as <-. ring.
  - intros H. injection H as <-. ring.
Qed.

Lemma rrf_score_ok (dense sparse : Dict Z) (k : Z) (wd ws : Q) (doc_id : string) :
  (forall r, dict_get doc_id dense = Some r -> k + r <> 0) ->
  (forall r, dict_get doc_id sparse = Some r -> k + r <> 0) ->
  exists s, ScoreFusion.rrf_score dense sparse k wd ws doc_id = Ok s.
Proof.
  intros Hd Hs. unfold ScoreFusion.rrf_score, ScoreFusion.rrf_side.
  destruct (dict_get doc_id dense) as [rd|];
    destruct (dict_get doc_id sparse) as [rs|]; simpl;
    repeat (rewrite py_div_ok by (apply inject_Z_nonzero; auto); simpl);
    eexists; reflexivity.
Qed.

(** C9.  Every score of a reciprocal rank fusion is the sum of the two
    sides' terms, a side that does not rank the document adding 0; fusing
    dense ranks {A:1, B:2} with sparse ranks {A:2, B:1} under equal weights
    [w] therefore gives A and B the same score [w/(k+1) + w/(k+2)]. *)
Theorem rrf_swapped_ranks_tie (rt : PyRuntime) (k : Z) (w : Q) :
  set_iter_ok rt -> k + 1 <> 0 -> k + 2 <> 0 ->
  exists scores a b,
    ScoreFusion.reciprocal_rank_fusion rt
      [("A", 1); ("B", 2)] [("A", 2); ("B", 1)] k w w = Ok scores
    /\ dict_get "A" scores = Some a
    /\ dict_get "B" scores = Some b
    /\ (a == b)%Q
    /\ (a == w / inject_Z (k + 1) + w / inject_Z (k + 2))%Q
    /\ (forall dense sparse wd ws fused doc_id s,
          ScoreFusion.reciprocal_rank_fusion rt dense sparse k wd ws = Ok fused ->
          dict_get doc_id fused = Some s ->
          In doc_id (dict_keys dense ++ dict_keys sparse) ->
          (s == rrf_term wd k dense doc_id + rrf_term ws k sparse doc_id)%Q).
Proof.
  intros Hrt H1 H2.
  set (dense := [("A", 1); ("B", 2)] : Dict Z).
  set (sparse := [("A", 2); ("B", 1)] : Dict Z).
  assert (Hgen : forall dense sparse wd ws fused doc_id s,
          ScoreFusion.reciprocal_rank_fusion rt dense sparse k wd ws = Ok fused ->
          dict_get doc_id fused = Some s ->
          In doc_id (dict_keys dense ++ dict_keys sparse) ->
          (s == rrf_term wd k dense doc_id + rrf_term ws k sparse doc_id)%Q).
  { intros d0 s0 wd ws fused doc_id s Hrun Hget Hin.
    unfold ScoreFusion.reciprocal_rank_fusion in Hrun.
    destruct (foldM_dict_set_get _ _ _ _ doc_id Hrun) as (v & Hv & Hres).
    - left. now apply (proj2 (Hrt _)).
    - rewrite Hget in Hres. injection Hres as <-.
      now apply rrf_score_value. }
  destruct (foldM_dict_set_ok
              (ScoreFusion.rrf_score dense sparse k w w)
              (set_iter rt (dict_keys dense ++ dict_keys sparse)) [])
    as [scores Hrun].
  { intros x Hx. apply (proj1 (proj2 (Hrt _) x)) in Hx. subst dense sparse.
    apply rrf_score_ok; intros r Hr; simpl in Hx, Hr;
      destruct Hx as [<-|[<-|[<-|[<-|[]]]]]; simpl in Hr;
      injection Hr as <-; lia. }
  assert (HA : exists a, dict_get "A" scores = Some a).
  { destruct (foldM_dict_set_get _ _ _ _ "A" Hrun) as (v & _ & Hres).
    - left. apply (proj2 (Hrt _)). subst dense. simpl. auto.
    - eauto. }
  assert (HB : exists b, dict_get "B" scores = Some b).
  { destruct (foldM_dict_set_get _ _ _ _ "B" Hrun) as (v & _ & Hres).
    - left. apply (proj2 (Hrt _)). subst dense. simpl. auto.
    - eauto. }
  destruct HA as [a HA]. destruct HB as [b HB].
  exists scores, a, b.
  assert (Ea := Hgen dense sparse w w scores "A" a Hrun HA).
  assert (Eb := Hgen dense sparse w w scores "B" b Hrun HB).
  subst dense sparse. unfold rrf_term in Ea, Eb. simpl in Ea, Eb.
  specialize (Ea (or_introl eq_refl)).
  specialize (Eb (or_intror (or_introl eq_refl))).
  repeat split; auto.
  rewrite Ea, Eb. ring.
Qed.

Lemma rrf_swapped_ranks_tie_witness :
  exists scores a b,
    ScoreFusion.reciprocal_rank_fusion rt_insertion
      [("A", 1); ("B", 2)] [("A", 2); ("B", 1)] 60 1 1 = Ok scores
    /\ dict_get "A" scores = Some a
    /\ dict_get "B" scores = Some b
    /\ (a == b)%Q.
Proof.
  destruct (rrf_swapped_ranks_tie rt_insertion 60 1 rt_insertion_ok)
    as (scores & a & b & H1 & H2 & H3 & H4 & _); [lia | lia |].
  exists scores, a, b. auto.
Defined.

(** ** Rank-sum fusion *)

Lemma rank_sum_get (rt : PyRuntime) (dense sparse : Dict Z) (wd ws : Q)
    (doc_id : string) :
  set_iter_ok rt ->
  (2 <= distinct_docs dense sparse)%nat ->
  In doc_id (dict_keys dense ++ dict_keys sparse) ->
  dict_get doc_id (ScoreFusion.rank_sum rt dense sparse wd ws)
  = Some (wd * ScoreFusion.to_unit (distinct_docs dense sparse)
                 (match dict_get doc_id dense with
                  | Some r => r
                  | None => Z.of_nat (distinct_docs dense sparse)
                  end)
          + ws * ScoreFusion.to_unit (distinct_docs dense sparse)
                   (match dict_get doc_id sparse with
                    | Some r => r
                    | None => Z.of_nat (distinct_docs dense sparse)
                    end))%Q.
Proof.
  intros Hrt Hn Hin. unfold ScoreFusion.rank_sum. cbv zeta.
  rewrite !(set_iter_length rt _ Hrt). fold (distinct_docs dense sparse).
  destruct (Nat.leb_spec (distinct_docs dense sparse) 1) as [Hle|_]; [lia|].
  apply (fold_dict_set_get
           (fun id =>
              (wd * ScoreFusion.to_unit (distinct_docs dense sparse)
                      (match dict_get id dense with
                       | Some r => r
                       | None => Z.of_nat (distinct_docs dense sparse)
                       end)
               + ws * ScoreFusion.to_unit (distinct_docs dense sparse)
                        (match dict_get id sparse with
                         | Some r => r
                         | None => Z.of_nat (distinct_docs dense sparse)
                         end))%Q)).
  left. now apply (proj2 (Hrt _)).
Qed.

(** C10.  In a rank-sum fusion over [n >= 2] distinct documents, a
    document that one rank map does not hold gets rank [n] on that side,
    whose unit value [1 - (n - 1) / (n - 1)] is 0, so that its fused
    score is the weight of the other side times the unit value
    [1 - (r - 1) / (n - 1)] of its rank [r] there. *)
Theorem rank_sum_missing_side_scores_zero (rt : PyRuntime)
    (dense sparse : Dict Z) (wd ws : Q) :
  set_iter_ok rt ->
  (2 <= distinct_docs dense sparse)%nat ->
  let n := Z.of_nat (distinct_docs dense sparse) in
  (1 - inject_Z (n - 1) / inject_Z (n - 1) == 0)%Q
  /\ (forall doc_id r,
        dict_get doc_id dense = Some r -> dict_get doc_id sparse = None ->
        exists s,
          dict_get doc_id (ScoreFusion.rank_sum rt dense sparse wd ws) = Some s
          /\ (s == wd * (1 - inject_Z (r - 1) / inject_Z (n - 1))
                   + ws * (1 - inject_Z (n - 1) / inject_Z (n - 1)))%Q
          /\ (s == wd * (1 - inject_Z (r - 1) / inject_Z (n - 1)))%Q)
  /\ (forall doc_id r,
        dict_get doc_id sparse = Some r -> dict_get doc_id dense = None ->
        exists s,
          dict_get doc_id (ScoreFusion.rank_sum rt dense sparse wd ws) = Some s
          /\ (s == wd * (1 - inject_Z (n - 1) / inject_Z (n - 1))
                   + ws * (1 - inject_Z (r - 1) / inject_Z (n - 1)))%Q
          /\ (s == ws * (1 - inject_Z (r - 1) / inject_Z (n - 1)))%Q).
Proof.
  intros Hrt Hn n.
  assert (Hnz : ~ (inject_Z (n - 1) == 0)%Q).
  { apply inject_Z_nonzero. unfold n. lia. }
  assert (H0 : (1 - inject_Z (n - 1) / inject_Z (n - 1) == 0)%Q)
    by now field.
  split; [exact H0|]. split.
  - intros doc_id r Hd Hs. eexists. split; [|split].
    + rewrite (rank_sum_get rt dense sparse wd ws doc_id Hrt Hn).
      * rewrite Hd, Hs. reflexivity.
      * apply in_or_app. left. eapply dict_get_In_keys; eauto.
    + unfold ScoreFusion.to_unit. fold n. reflexivity.
    + unfold ScoreFusion.to_unit. fold n. rewrite H0. ring.
  - intros doc_id r Hs Hd. eexists. split; [|split].
    + rewrite (rank_sum_get rt dense sparse wd ws doc_id Hrt Hn).
      * rewrite Hd, Hs. reflexivity.
      * apply in_or_app. right. eapply dict_get_In_keys; eauto.
    + unfold ScoreFusion.to_unit. fold n. reflexivity.
    + unfold ScoreFusion.to_unit. fold n. rewrite H0. ring.
Qed.

Lemma rank_sum_missing_side_scores_zero_witness :
  exists s,
    dict_get "C"
      (ScoreFusion.rank_sum rt_insertion
         [("A", 1); ("C", 2); ("B", 3)] [("A", 2); ("B", 1)] (6#10) (4#10))
    = Some s
    /\ (s == 3#10)%Q.
Proof.
  assert (Hn : Nat.le 2 (distinct_docs [("A", 1); ("C", 2); ("B", 3)]
                                      [("A", 2); ("B", 1)])).
  { vm_compute. lia. }
  destruct (proj1 (proj2 (rank_sum_missing_side_scores_zero rt_insertion
                            [("A", 1); ("C", 2); ("B", 3)] [("A", 2); ("B", 1)]
                            (6#10) (4#10) rt_insertion_ok Hn))
                  "C" 2 eq_refl eq_refl) as (s & Hget & _ & Hval).
  exists s. split; [exact Hget|].
  rewrite Hval. vm_compute. reflexivity.
Defined.

(** ** BM25 *)

Lemma df_step_fold_other (t : string) (l : list string) :
  forall df, ~ In t l -> dict_get t (fold_left df_step l df) = dict_get t df.
Proof.
  induction l as [|a l IH]; intros df Hn; simpl; [reflexivity|].
  rewrite IH by (intros H; apply Hn; now right).
  unfold df_step. apply dict_get_set_other.
  intros ->. apply Hn. now left.
Qed.

Lemma df_step_fold_once (t : string) (l : list string) :
  forall df,
    NoDup l -> In t l ->
    dict_get t (fold_left df_step l df)
    = Some (match dict_get t df with Some n => n | None => 0 end + 1).
Proof.
  induction l as [|a l IH]; intros df Hnd Hin; [destruct Hin|].
  inversion Hnd as [|? ? Ha Hl]; subst. simpl.
  destruct (string_dec a t) as [->|Hne].
  - rewrite df_step_fold_other by exact Ha.
    unfold df_step. apply dict_get_set_same.
  - destruct Hin as [->|Hin]; [congruence|].
    rewrite (IH _ Hl Hin). unfold df_step at 1.
    rewrite dict_get_set_other by congruence. reflexivity.
Qed.

Lemma counter_fold_get (t : string) (l : list string) :
  forall c,
    dict_get t (fold_left counter_step l c)
    = match count_occ string_dec l t with
      | O => dict_get t c
      | S m => Some (match dict_get t c with Some n => n | None => 0 end
                     + Z.of_nat (S m))
      end.
Proof.
  induction l as [|a l IH]; intros c; simpl; [reflexivity|].
  rewrite IH. unfold counter_step.
  destruct (string_dec a t) as [->|Hne].
  - rewrite dict_get_set_same.
    destruct (count_occ string_dec l t) as [|m];
      destruct (dict_get t c) as [n|]; f_equal; lia.
  - rewrite dict_get_set_other by congruence.
    destruct (count_occ string_dec l t); reflexivity.
Qed.

Lemma Counter_get (t : string) (l : list string) :
  dict_get t (Counter l)
  = match count_occ string_dec l t with
    | O => None
    | S m => Some (Z.of_nat (S m))
    end.
Proof.
  unfold Counter. rewrite counter_fold_get. simpl.
  destruct (count_occ string_dec l t); reflexivity.
Qed.

Lemma idf_table_get (rt : PyRuntime) (N : nat) (t : string) (df : Dict Z) :
  dict_get t (idf_table rt N df) = option_map (idf_value rt N) (dict_get t df).
Proof.
  induction df as [|[k v] rest IH]; simpl; [reflexivity|].
  destruct (String.eqb t k); auto.
Qed.

Lemma Qnat_pos (n : nat) : (0 < n)%nat -> (0 < Qnat n)%Q.
Proof.
  intros Hn. unfold Qnat, Qlt. simpl. lia.
Qed.

Lemma doc_freq_single (rt : PyRuntime) (t : string) (toks : list string) :
  set_iter_ok rt -> In t toks -> dict_get t (doc_freq rt [toks]) = Some 1.
Proof.
  intros Hrt Hin. unfold doc_freq. simpl.
  destruct (Hrt toks) as [Hnd Hmem].
  rewrite df_step_fold_once; auto.
  now apply Hmem.
Qed.

Lemma avgdl_single (dl : Q) :
  (0 < dl)%Q ->
  (if Qle_bool (Qsum [dl] / Qnat 1) 0 then 1%Q else (Qsum [dl] / Qnat 1)%Q)
  = (Qsum [dl] / Qnat 1)%Q.
Proof.
  intros Hdl. destruct (Qle_bool (Qsum [dl] / Qnat 1) 0) eqn:E; [|reflexivity].
  apply Qle_bool_iff in E. exfalso.
  apply (Qlt_not_le _ _ Hdl). unfold Qsum, Qnat in E. simpl in E.
  setoid_replace dl with ((0 + dl) / inject_Z 1)%Q by field.
  exact E.
Qed.

Lemma single_document_norm (b dl : Q) :
  (0 < dl)%Q -> (1 - b + b * (dl / (Qsum [dl] / Qnat 1)) == 1)%Q.
Proof.
  intros Hdl. unfold Qsum, Qnat. simpl. field.
  intros H. rewrite H in Hdl. now apply Qlt_irrefl in Hdl.
Qed.

(** C3.  One candidate document, a query of one token that occurs exactly
    once in it: the BM25 score is [idf * (k1 + 1) / (1 + k1)], with the
    [idf] of [N = 1] and [df = 1], the length normalisation being 1. *)
Theorem bm25_single_document_score (rt : PyRuntime) (t : string)
    (toks : list string) (k1 b : Q) :
  set_iter_ok rt ->
  count_occ string_dec toks t = 1%nat ->
  ~ (1 + k1 == 0)%Q ->
  exists s,
    _bm25_scores_builtin rt [t] [toks] k1 b = [s]
    /\ (s == idf_value rt 1 1 * (k1 + 1) / (1 + k1))%Q
    /\ idf_value rt 1 1 = math_log rt (1 + (1 - 1 + (1#2)) / (1 + (1#2)))%Q
    /\ (1 - b + b * (Qnat (List.length toks) / (Qsum [Qnat (List.length toks)] / Qnat 1))
        == 1)%Q.
Proof.
  intros Hrt Hocc Hk1.
  assert (Hin : In t toks).
  { apply (count_occ_In string_dec). lia. }
  assert (Hlen : (0 < List.length toks)%nat).
  { destruct toks; [destruct Hin | simpl; lia]. }
  pose proof (Qnat_pos _ Hlen) as Hdl.
  pose proof (single_document_norm b _ Hdl) as Hnorm.
  unfold _bm25_scores_builtin. cbn [List.length map].
  eexists. split; [reflexivity|]. split; [|split; [reflexivity | exact Hnorm]].
  unfold bm25_doc_score. cbn [Counter fold_left counter_step dict_get dict_set].
  rewrite Counter_get, Hocc.
  rewrite idf_table_get, (doc_freq_single rt t toks Hrt Hin). cbn [option_map].
  rewrite (avgdl_single _ Hdl).
  set (norm := (1 - b + b * (Qnat (List.length toks)
                             / (Qsum [Qnat (List.length toks)] / Qnat 1)))%Q) in *.
  assert (Hden : (inject_Z (Z.of_nat 1) + k1 * norm == 1 + k1)%Q).
  { rewrite Hnorm. simpl. ring. }
  destruct (Qeq_bool (inject_Z (Z.of_nat 1) + k1 * norm) 0) eqn:E.
  - apply Qeq_bool_eq in E. rewrite Hden in E. contradiction.
  - rewrite Hden. simpl. field. exact Hk1.
Qed.

Lemma bm25_single_document_score_witness :
  exists s,
    _bm25_scores_builtin rt_insertion ["deposit"]
      [["return"; "of"; "the"; "deposit"]] (3#2) (3#4) = [s]
    /\ (s == idf_value rt_insertion 1 1 * ((3#2) + 1) / (1 + (3#2)))%Q.
Proof.
  destruct (bm25_single_document_score rt_insertion "deposit"
              ["return"; "of"; "the"; "deposit"] (3#2) (3#4)
              rt_insertion_ok eq_refl)
    as (s & H1 & H2 & _).
  - intros H. vm_compute in H. discriminate.
  - exists s. split; assumption.
Defined.

(** ** Rerank selection *)

Lemma Forall_firstn_keeps {A : Type} (P : A -> Prop) (n : nat) (l : list A) :
  Forall P l -> Forall P (firstn n l).
Proof.
  revert l. induction n as [|n IH]; intros l H; simpl; [constructor|].
  destruct H; constructor; auto.
Qed.

Lemma Forall_slice_to {A : Type} (P : A -> Prop) (n : Z) (l : list A) :
  Forall P l -> Forall P (slice_to n l).
Proof.
  intros H. unfold slice_to.
  destruct (0 <=? n); now apply Forall_firstn_keeps.
Qed.

Lemma kept_entries_Forall (p : RAGPipeline) (P : Z * Q -> Prop)
    (ranked : list (Z * Q)) :
  Forall P ranked -> Forall P (kept_entries p ranked).
Proof.
  intros H. unfold kept_entries.
  destruct (filter _ ranked) as [|e es] eqn:E.
  - now apply Forall_slice_to.
  - rewrite <- E. apply Forall_forall. intros x Hx.
    apply filter_In in Hx. rewrite Forall_forall in H. now apply H.
Qed.

Lemma filter_none {A : Type} (f : A -> bool) (l : list A) :
  Forall (fun x => f x = false) l -> filter f l = [].
Proof.
  induction 1 as [|x l Hx _ IH]; simpl; [reflexivity|].
  now rewrite Hx.
Qed.

Lemma py_index_in_range {A : Type} (l : list A) (i : Z) :
  0 <= i < Z.of_nat (List.length l) ->
  exists x, nth_error l (Z.to_nat i) = Some x /\ py_index l i = Ok x.
Proof.
  intros Hi. unfold py_index.
  destruct (Z.ltb_spec i 0) as [Hneg|_]; [lia|].
  destruct (Z.leb_spec 0 i) as [_|Hneg]; [|lia].
  destruct (Z.ltb_spec i (Z.of_nat (List.length l))) as [_|Hge]; [|lia].
  simpl. destruct (nth_error l (Z.to_nat i)) as [x|] eqn:E.
  - now exists x.
  - apply nth_error_None in E. lia.
Qed.

Lemma mapM_index_ok (combined : list Document) (entries : list (Z * Q)) :
  Forall (index_in_range combined) entries ->
  exists selected,
    mapM (fun '(i, _) => py_index combined i) entries = Ok selected
    /\ Forall2 (fun e d => nth_error combined (Z.to_nat (fst e)) = Some d)
               entries selected.
Proof.
  induction 1 as [|[i s] es Hi _ (sel & Hsel & Hrel)]; simpl.
  - exists []. split; [reflexivity | constructor].
  - destruct (py_index_in_range combined i Hi) as (d & Hd & Hidx).
    rewrite Hidx. simpl. rewrite Hsel. simpl.
    exists (d :: sel). split; [reflexivity|]. now constructor.
Qed.

(** C5, as amended.  When the rerank returns entries none of which
    reaches the threshold, the entries kept are [ranked[:desired]] with
    [desired = min(k_law + k_rule + k_case, len(ranked))]: for counts
    whose sum is not negative these are the first [desired] entries of
    the reranked order.  The selection is not empty as soon as the
    counts sum to one or more, and it is empty when they sum to zero.
    Where the entries index the candidate list, as the rerank interface
    promises, the selected documents are the ones they point to. *)
Theorem threshold_fallback_keeps_first_ranked (p : RAGPipeline)
    (ranked : list (Z * Q)) (combined : list Document) :
  ranked <> [] ->
  Forall (fun e => (snd e < rerank_threshold (config p))%Q) ranked ->
  let total := k_law (config p) + k_rule (config p) + k_case (config p) in
  let desired := Z.min total (Z.of_nat (List.length ranked)) in
  kept_entries p ranked = slice_to desired ranked
  /\ (0 <= total ->
      kept_entries p ranked = firstn (Z.to_nat desired) ranked)
  /\ (1 <= total -> kept_entries p ranked <> [])
  /\ (total = 0 -> kept_entries p ranked = [])
  /\ (0 <= total ->
      Forall (index_in_range combined) ranked ->
      exists selected,
        select_docs p (Some ranked) combined = Ok selected
        /\ (selected <> [] <-> 1 <= total)
        /\ List.length selected = Z.to_nat desired
        /\ Forall2 (fun e d => nth_error combined (Z.to_nat (fst e)) = Some d)
                   (firstn (Z.to_nat desired) ranked) selected).
Proof.
  intros Hne Hlow total desired.
  assert (Hslice : kept_entries p ranked = slice_to desired ranked).
  { unfold kept_entries. rewrite filter_none; [reflexivity|].
    eapply Forall_impl; [|exact Hlow].
    intros [i s] Hs. simpl in *.
    destruct (Qle_bool (rerank_threshold (config p)) s) eqn:E; [|reflexivity].
    apply Qle_bool_iff in E. exfalso. exact (Qlt_not_le _ _ Hs E). }
  assert (Hkept : 0 <= total ->
                  kept_entries p ranked = firstn (Z.to_nat desired) ranked).
  { intros Hk. rewrite Hslice. unfold slice_to.
    destruct (Z.leb_spec 0 desired) as [_|Hneg]; [reflexivity|].
    unfold desired in Hneg. lia. }
  assert (Hlen0 : List.length (firstn (Z.to_nat desired) ranked)
                  = Z.to_nat desired).
  { rewrite length_firstn. unfold desired. lia. }
  assert (Hpos : 0 <= total -> ((0 < Z.to_nat desired)%nat <-> 1 <= total)).
  { intros Hk. destruct ranked; [congruence|].
    unfold desired. simpl List.length. lia. }
  assert (Hnil : forall (A : Type) (l : list A),
             l <> [] <-> (0 < List.length l)%nat).
  { intros A l. destruct l; simpl; split; intros H;
      first [discriminate | lia | now contradiction H]. }
  split; [exact Hslice|]. split; [exact Hkept|]. split; [|split].
  - intros Hk. rewrite Hkept by lia. rewrite Hnil, Hlen0.
    apply Hpos; lia.
  - intros Hk. rewrite Hkept by lia.
    replace (Z.to_nat desired) with 0%nat by (unfold desired; lia).
    reflexivity.
  - intros Hk Hidx.
    destruct (mapM_index_ok combined (kept_entries p ranked))
      as (selected & Hsel & Hrel).
    { now apply kept_entries_Forall. }
    exists selected.
    assert (Hlen : List.length selected = Z.to_nat desired).
    { now rewrite <- (Forall2_length Hrel), (Hkept Hk). }
    split; [|split; [|split]].
    + destruct ranked; [congruence | unfold select_docs; exact Hsel].
    + rewrite Hnil, Hlen. now apply Hpos.
    + exact Hlen.
    + now rewrite <- (Hkept Hk).
Qed.

Lemma threshold_fallback_keeps_first_ranked_witness :
  kept_entries tie_pipeline [(1, 1#10); (0, 5#100)] = [(1, 1#10); (0, 5#100)]
  /\ exists selected,
       select_docs tie_pipeline (Some [(1, 1#10); (0, 5#100)])
         [ranked_A; ranked_B] = Ok selected
       /\ selected <> [].
Proof.
  assert (Hne : [(1, 1#10); (0, 5#100)] <> ([] : list (Z * Q)))
    by discriminate.
  assert (Hlow : Forall (fun e => (snd e < rerank_threshold (config tie_pipeline))%Q)
                        [(1, 1#10); (0, 5#100)]).
  { repeat constructor. }
  assert (Hk : 0 <= k_law (config tie_pipeline) + k_rule (config tie_pipeline)
                    + k_case (config tie_pipeline)).
  { simpl. lia. }
  assert (Hidx : Forall (index_in_range [ranked_A; ranked_B])
                        [(1, 1#10); (0, 5#100)]).
  { repeat constructor; simpl; lia. }
  destruct (threshold_fallback_keeps_first_ranked tie_pipeline
              [(1, 1#10); (0, 5#100)] [ranked_A; ranked_B] Hne Hlow)
    as (_ & H1 & _ & _ & Hsel).
  split; [exact (H1 Hk)|].
  destruct (Hsel Hk Hidx) as (selected & H2 & H3 & _).
  exists selected. split; [exact H2|].
  apply H3. simpl. lia.
Defined.

(** C5, as the claim states it, fails: a configuration whose three
    result counts are zero is accepted, the case-law search still
    returns candidates, the rerank scores them below the threshold, and
    [ranked[:0]] leaves the selection, and with it the retrieval,
    empty. *)
Lemma zero_counts_empty_the_selection :
  RAGConfig_new (set_result_counts 0 0 0 default_config)
  = Ok (set_result_counts 0 0 0 default_config)
  /\ exists combined,
       retrieve_candidates rt_insertion zero_count_pipeline "deposit"
       = Ok combined
       /\ List.length combined = 5%nat
       /\ _rerank zero_count_pipeline "deposit" combined
          = Some [(0, 1#10); (1, 5#100)]
       /\ Forall (fun e =>
                    (snd e < rerank_threshold (config zero_count_pipeline))%Q)
                 [(0, 1#10); (1, 5#100)]
       /\ kept_entries zero_count_pipeline [(0, 1#10); (1, 5#100)] = []
       /\ select_docs zero_count_pipeline (Some [(0, 1#10); (1, 5#100)])
            combined = Ok []
       /\ triple_hybrid_retrieval rt_insertion zero_count_pipeline "deposit"
          = Ok [].
Proof.
  split; [reflexivity|].
  destruct (retrieve_candidates rt_insertion zero_count_pipeline "deposit")
    as [combined|e] eqn:E; [|vm_compute in E; discriminate].
  exists combined. split; [reflexivity|].
  assert (Hlen : List.length combined = 5%nat).
  { vm_compute in E. injection E as <-. reflexivity. }
  split; [exact Hlen|].
  split; [reflexivity|].
  split; [repeat constructor|].
  split; [reflexivity|].
  split; [reflexivity|].
  unfold triple_hybrid_retrieval. rewrite E. reflexivity.
Qed.


(** C4.  Whatever the rerank client raises, [_rerank] answers [None] and
    the retrieval goes on with the capped, deduplicated candidates as its
    selected documents; it returns their final form and does not raise. *)
Theorem rerank_failure_keeps_candidates (rt : PyRuntime) (p : RAGPipeline)
    (query : string) (combined : list Document) (client : CohereClient)
    (e : Exn) :
  retrieve_candidates rt p query = Ok combined ->
  _cohere_client p = Some client ->
  client (rerank_model (config p)) query (rerank_texts p combined)
         (Z.of_nat (List.length (rerank_texts p combined))) = Raise e ->
  _rerank p query combined = None
  /\ select_docs p (_rerank p query combined) combined = Ok combined
  /\ triple_hybrid_retrieval rt p query = Ok (finalize rt p combined).
Proof.
  intros Hret Hclient Hraise.
  assert (Hnone : _rerank p query combined = None).
  { unfold _rerank. now rewrite Hclient, Hraise. }
  split; [exact Hnone|]. split.
  - now rewrite Hnone.
  - unfold triple_hybrid_retrieval. rewrite Hret. simpl.
    rewrite Hnone. now destruct (enable_rerank (config p)).
Qed.

Lemma rerank_failure_keeps_candidates_witness :
  exists combined,
    retrieve_candidates rt_insertion degraded_pipeline "deposit" = Ok combined
    /\ _rerank degraded_pipeline "deposit" combined = None
    /\ triple_hybrid_retrieval rt_insertion degraded_pipeline "deposit"
       = Ok (finalize rt_insertion degraded_pipeline combined).
Proof.
  destruct (retrieve_candidates rt_insertion degraded_pipeline "deposit")
    as [combined|err] eqn:Hret.
  - exists combined.
    destruct (rerank_failure_keeps_candidates rt_insertion degraded_pipeline
                "deposit" combined (failing_client "cohere")
                (ServiceError "cohere") Hret eq_refl eq_refl)
      as (H1 & _ & H3).
    split; [reflexivity|]. split; assumption.
  - vm_compute in Hret. discriminate.
Defined.

(** ** Case expansion *)

Lemma VStr_truthy (c : string) : c <> "" -> py_truthy (VStr c) = true.
Proof.
  intros Hc. simpl. destruct (String.eqb c "") eqn:E; [|reflexivity].
  apply String.eqb_eq in E. contradiction.
Qed.

Lemma first_split {A : Type} (P N : A -> Prop) (l : list A) :
  Forall (fun x => P x \/ N x) l -> ~ Forall N l ->
  exists pre x rest, l = (pre ++ x :: rest)%list /\ Forall N pre /\ P x.
Proof.
  induction 1 as [|x l [Hp|Hn] Hl IH]; intros Hnot.
  - exfalso. apply Hnot. constructor.
  - exists [], x, l. repeat split; [constructor | exact Hp].
  - destruct IH as (pre & y & rest & -> & Hpre & Hy).
    + intros Hall. apply Hnot. now constructor.
    + exists (x :: pre), y, rest. repeat split; [now constructor | exact Hy].
Qed.

Lemma case_is_has_case (c : string) (d : Document) :
  c <> "" -> case_is c d -> ~ no_case d.
Proof.
  unfold case_is, no_case. intros Hc H Hn. rewrite H in Hn.
  rewrite (VStr_truthy c Hc) in Hn. discriminate.
Qed.

Lemma case_is_functional (a b : string) (d : Document) :
  case_is a d -> case_is b d -> a = b.
Proof. unfold case_is. intros Ha Hb. rewrite Ha in Hb. now injection Hb. Qed.

Lemma Exists_not_Forall {A : Type} (P N : A -> Prop) (l : list A) :
  (forall x, P x -> ~ N x) -> Exists P l -> ~ Forall N l.
Proof.
  intros Hpn Hex Hall. rewrite Exists_exists in Hex.
  destruct Hex as (x & Hin & Hp). rewrite Forall_forall in Hall.
  exact (Hpn x Hp (Hall x Hin)).
Qed.

(** Candidates that the selection loop passes over: no case number, or
    one already met. *)
Lemma choose_cases_skip (top_n : Z) (seen : list PyVal) (n : nat)
    (pre l : list Document) :
  Forall (fun d => negb (py_truthy (md_get "case_no" d))
                   || existsb (py_eqb (md_get "case_no" d)) seen = true) pre ->
  choose_cases top_n seen n (pre ++ l) = choose_cases top_n seen n l.
Proof.
  induction 1 as [|d pre Hd _ IH]; [reflexivity|].
  cbn [app choose_cases]. cbv zeta. now rewrite Hd.
Qed.

Lemma choose_cases_first_two (pre mid post : list Document) (d1 d2 : Document)
    (a b : string) :
  a <> "" -> b <> "" -> a <> b ->
  Forall no_case pre -> case_is a d1 ->
  Forall (fun d => case_is a d \/ no_case d) mid -> case_is b d2 ->
  choose_cases 2 [] 0 (pre ++ d1 :: mid ++ d2 :: post) = [d1; d2].
Proof.
  intros Ha Hb Hab Hpre H1 Hmid H2.
  rewrite choose_cases_skip.
  2: { eapply Forall_impl; [|exact Hpre]. unfold no_case.
       intros d Hd. now rewrite Hd. }
  cbn [choose_cases]. cbv zeta. unfold case_is in H1. rewrite H1.
  rewrite (VStr_truthy a Ha). cbn [negb existsb orb].
  change (2 <=? Z.of_nat 1) with false. cbv iota.
  rewrite choose_cases_skip.
  2: { eapply Forall_impl; [|exact Hmid]. unfold case_is, no_case.
       intros d [Hd|Hd]; rewrite Hd; [|reflexivity].
       simpl. rewrite String.eqb_refl. now rewrite orb_true_r. }
  cbn [choose_cases]. cbv zeta. unfold case_is in H2. rewrite H2.
  rewrite (VStr_truthy b Hb). cbn [negb existsb orb py_eqb].
  replace (String.eqb b a) with false
    by (symmetry; apply String.eqb_neq; congruence).
  reflexivity.
Qed.

(** Two case numbers among the candidates: the list splits at the first
    candidate with a case number and at the first one of the other
    case. *)
Lemma two_cases_split (c1 c2 : string) (l : list Document) :
  c1 <> c2 -> c1 <> "" -> c2 <> "" ->
  Forall (fun d => case_is c1 d \/ case_is c2 d \/ no_case d) l ->
  Exists (case_is c1) l -> Exists (case_is c2) l ->
  exists pre d1 mid d2 post a b,
    l = (pre ++ d1 :: mid ++ d2 :: post)%list
    /\ Forall no_case pre /\ case_is a d1
    /\ Forall (fun d => case_is a d \/ no_case d) mid /\ case_is b d2
    /\ ((a = c1 /\ b = c2) \/ (a = c2 /\ b = c1)).
Proof.
  intros H12 H1 H2 Hall Hex1 Hex2.
  destruct (first_split (fun d => case_is c1 d \/ case_is c2 d) no_case l)
    as (pre & d1 & rest & -> & Hpre & Hd1).
  { eapply Forall_impl; [|exact Hall]. simpl. tauto. }
  { apply (Exists_not_Forall (case_is c1)); [|exact Hex1].
    intros x. now apply case_is_has_case. }
  assert (Hrest : Forall (fun d => case_is c1 d \/ case_is c2 d \/ no_case d)
                         rest).
  { apply Forall_app in Hall. destruct Hall as [_ Hall].
    now inversion Hall. }
  assert (Hother : forall a b,
             a <> b -> a <> "" -> b <> "" -> case_is a d1 ->
             Forall (fun d => case_is a d \/ case_is b d \/ no_case d) rest ->
             Exists (case_is b) (pre ++ d1 :: rest) ->
             exists mid d2 post,
               rest = (mid ++ d2 :: post)%list
               /\ Forall (fun d => case_is a d \/ no_case d) mid
               /\ case_is b d2).
  { intros a b Hab Ha Hb Had1 Hr Hex.
    destruct (first_split (case_is b) (fun d => case_is a d \/ no_case d) rest)
      as (mid & d2 & post & -> & Hmid & Hd2).
    - eapply Forall_impl; [|exact Hr]. simpl. tauto.
    - apply (Exists_not_Forall (case_is b)).
      + intros x Hx [Hxa|Hxn].
        * apply Hab. exact (case_is_functional a b x Hxa Hx).
        * exact (case_is_has_case b x Hb Hx Hxn).
      + apply Exists_app in Hex. destruct Hex as [Hex|Hex].
        * exfalso. rewrite Exists_exists in Hex.
          destruct Hex as (x & Hin & Hx). rewrite Forall_forall in Hpre.
          exact (case_is_has_case b x Hb Hx (Hpre x Hin)).
        * inversion Hex as [? ? Hx|? ? Hx]; subst; [|exact Hx].
          exfalso. apply Hab. exact (case_is_functional a b d1 Had1 Hx).
    - exists mid, d2, post. auto. }
  destruct Hd1 as [Hd1|Hd1].
  - destruct (Hother c1 c2 H12 H1 H2 Hd1 Hrest Hex2)
      as (mid & d2 & post & -> & Hmid & Hd2).
    exists pre, d1, mid, d2, post, c1, c2. repeat split; auto.
  - destruct (Hother c2 c1 (not_eq_sym H12) H2 H1 Hd1) as
        (mid & d2 & post & -> & Hmid & Hd2); [|exact Hex1|].
    { eapply Forall_impl; [|exact Hrest]. simpl. tauto. }
    exists pre, d1, mid, d2, post, c2, c1. repeat split; auto.
Qed.

Lemma full_case_context_fetched (rt : PyRuntime) (p : RAGPipeline)
    (c : string) (chunks : list Document) :
  similarity_search (case_store p) "판례 전문 검색"
    (case_context_top_k (config p)) (Some c) = Ok chunks ->
  get_full_case_context rt p c = py_strip (concatenated_chunk_text rt p chunks).
Proof.
  intros H. unfold get_full_case_context. now rewrite H.
Qed.

Lemma expand_case_replaces (rt : PyRuntime) (p : RAGPipeline) (d : Document)
    (c : string) (chunks : list Document) :
  case_is c d -> c <> "" ->
  similarity_search (case_store p) "판례 전문 검색"
    (case_context_top_k (config p)) (Some c) = Ok chunks ->
  py_strip (concatenated_chunk_text rt p chunks) <> "" ->
  expand_case rt p d = [replacement_document rt p d c chunks].
Proof.
  intros Hc Hne Hfetch Htext. unfold expand_case, case_is in *. rewrite Hc.
  rewrite (VStr_truthy c Hne). cbn [negb py_str].
  rewrite (full_case_context_fetched rt p c chunks Hfetch).
  destruct (String.eqb (py_strip (concatenated_chunk_text rt p chunks)) "")
    eqn:E.
  - apply String.eqb_eq in E. contradiction.
  - reflexivity.
Qed.

(** C6, as amended.  Ranked case-law candidates (five, or any number)
    that carry two distinct case numbers, some perhaps none, with at
    most two cases to expand; for either case the full-text search
    returns chunks whose text (sorted by [chunk_id], deduplicated,
    joined by newlines) is not empty once the blanks at its two ends are
    removed.  Then the selection takes the first candidate that has a
    case number and the first candidate of the other case, passing over
    the candidates without a case number and those of a case already
    met, and the expansion yields exactly two documents: for each chosen
    candidate its metadata with [__expanded = True] added, and the
    content ["[판례 전문: {title}]"], a newline, and the text of the
    ruling without the blanks at its two ends. *)
Theorem case_expansion_of_two_cases (rt : PyRuntime) (p : RAGPipeline)
    (case_ranked : list Document) (c1 c2 : string)
    (chunks1 chunks2 : list Document) :
  c1 <> c2 -> c1 <> "" -> c2 <> "" ->
  Forall (fun d => case_is c1 d \/ case_is c2 d \/ no_case d) case_ranked ->
  Exists (case_is c1) case_ranked ->
  Exists (case_is c2) case_ranked ->
  expansion_top_n p = 2 ->
  similarity_search (case_store p) "판례 전문 검색"
    (case_context_top_k (config p)) (Some c1) = Ok chunks1 ->
  similarity_search (case_store p) "판례 전문 검색"
    (case_context_top_k (config p)) (Some c2) = Ok chunks2 ->
  py_strip (concatenated_chunk_text rt p chunks1) <> "" ->
  py_strip (concatenated_chunk_text rt p chunks2) <> "" ->
  let chunks_of c := if String.eqb c c1 then chunks1 else chunks2 in
  exists pre d1 mid d2 post a b,
    case_ranked = (pre ++ d1 :: mid ++ d2 :: post)%list
    /\ Forall no_case pre /\ case_is a d1
    /\ Forall (fun d => case_is a d \/ no_case d) mid /\ case_is b d2
    /\ ((a = c1 /\ b = c2) \/ (a = c2 /\ b = c1))
    /\ choose_cases 2 [] 0 case_ranked = [d1; d2]
    /\ expand_cases rt p case_ranked
       = [replacement_document rt p d1 a (chunks_of a);
          replacement_document rt p d2 b (chunks_of b)]
    /\ List.length (expand_cases rt p case_ranked) = 2%nat
    /\ Forall
         (fun e => dict_get "__expanded" (metadata e) = Some (VBool true))
         (expand_cases rt p case_ranked).
Proof.
  intros H12 H1 H2 Hall Hex1 Hex2 Htop Hf1 Hf2 Ht1 Ht2 chunks_of.
  destruct (two_cases_split c1 c2 case_ranked H12 H1 H2 Hall Hex1 Hex2)
    as (pre & d1 & mid & d2 & post & a & b & -> & Hpre & Ha & Hmid & Hb & Hab).
  assert (Hae : a <> "") by (destruct Hab as [[-> _]|[-> _]]; assumption).
  assert (Hbe : b <> "") by (destruct Hab as [[_ ->]|[_ ->]]; assumption).
  assert (Hne : a <> b) by (destruct Hab as [[-> ->]|[-> ->]]; congruence).
  assert (Hfetch : forall c,
             c = c1 \/ c = c2 ->
             similarity_search (case_store p) "판례 전문 검색"
               (case_context_top_k (config p)) (Some c) = Ok (chunks_of c)
             /\ py_strip (concatenated_chunk_text rt p (chunks_of c)) <> "").
  { intros c [-> | ->]; unfold chunks_of.
    - rewrite String.eqb_refl. auto.
    - replace (String.eqb c2 c1) with false
        by (symmetry; apply String.eqb_neq; congruence).
      auto. }
  assert (Hca : a = c1 \/ a = c2) by (destruct Hab as [[-> _]|[-> _]]; auto).
  assert (Hcb : b = c1 \/ b = c2) by (destruct Hab as [[_ ->]|[_ ->]]; auto).
  destruct (Hfetch a Hca) as [Hfa Hta]. destruct (Hfetch b Hcb) as [Hfb Htb].
  pose proof (choose_cases_first_two pre mid post d1 d2 a b
                Hae Hbe Hne Hpre Ha Hmid Hb) as Hch.
  assert (Hexp : expand_cases rt p (pre ++ d1 :: mid ++ d2 :: post)
                 = [replacement_document rt p d1 a (chunks_of a);
                    replacement_document rt p d2 b (chunks_of b)]).
  { unfold expand_cases. rewrite Htop, Hch. cbn [flat_map].
    rewrite (expand_case_replaces rt p d1 a (chunks_of a) Ha Hae Hfa Hta).
    rewrite (expand_case_replaces rt p d2 b (chunks_of b) Hb Hbe Hfb Htb).
    reflexivity. }
  exists pre, d1, mid, d2, post, a, b.
  split; [reflexivity|]. split; [exact Hpre|]. split; [exact Ha|].
  split; [exact Hmid|]. split; [exact Hb|]. split; [exact Hab|].
  split; [exact Hch|]. split; [exact Hexp|].
  rewrite Hexp. split; [reflexivity|].
  repeat constructor; apply dict_get_set_same.
Qed.

Lemma case_expansion_of_two_cases_witness :
  List.length case_chunks = 5%nat
  /\ expand_cases rt_insertion case_pipeline case_chunks
     = [mkDoc (full_case_prefix ++ "Deposit ruling" ++ "]" ++ nl
               ++ "deposit part one" ++ nl ++ "deposit part two" ++ nl
               ++ "deposit part three")
              (dict_set "__expanded" (VBool true)
                 (metadata (case_chunk "c1" "2019da1" "Deposit ruling"
                              "deposit part one")));
        mkDoc (full_case_prefix ++ "Renewal ruling" ++ "]" ++ nl
               ++ "renewal part one" ++ nl ++ "renewal part two")
              (dict_set "__expanded" (VBool true)
                 (metadata (case_chunk "c3" "2020da7" "Renewal ruling"
                              "renewal part one")))].
Proof.
  split; [reflexivity|].
  assert (Hall : Forall (fun d => case_is "2019da1" d \/ case_is "2020da7" d
                                   \/ no_case d) case_chunks).
  { unfold case_chunks.
    repeat (apply Forall_cons;
            [first [left; reflexivity | right; left; reflexivity]|]).
    apply Forall_nil. }
  assert (Hex1 : Exists (case_is "2019da1") case_chunks).
  { apply Exists_cons_hd. reflexivity. }
  assert (Hex2 : Exists (case_is "2020da7") case_chunks).
  { do 2 apply Exists_cons_tl. apply Exists_cons_hd. reflexivity. }
  destruct (similarity_search (case_store case_pipeline) "판례 전문 검색"
              (case_context_top_k (config case_pipeline)) (Some "2019da1"))
    as [chunks1|e1] eqn:E1; [|vm_compute in E1; discriminate].
  destruct (similarity_search (case_store case_pipeline) "판례 전문 검색"
              (case_context_top_k (config case_pipeline)) (Some "2020da7"))
    as [chunks2|e2] eqn:E2; [|vm_compute in E2; discriminate].
  assert (Ht1 : py_strip (concatenated_chunk_text rt_insertion case_pipeline
                            chunks1) <> "").
  { vm_compute in E1. injection E1 as <-. vm_compute. discriminate. }
  assert (Ht2 : py_strip (concatenated_chunk_text rt_insertion case_pipeline
                            chunks2) <> "").
  { vm_compute in E2. injection E2 as <-. vm_compute. discriminate. }
  assert (H12 : "2019da1" <> "2020da7") by discriminate.
  assert (H1 : "2019da1" <> "") by discriminate.
  assert (H2 : "2020da7" <> "") by discriminate.
  destruct (case_expansion_of_two_cases rt_insertion case_pipeline case_chunks
              "2019da1" "2020da7" chunks1 chunks2 H12 H1 H2 Hall Hex1 Hex2
              eq_refl E1 E2 Ht1 Ht2)
    as (pre & d1 & mid & d2 & post & a & b & _ & Hpre & Ha & _ & Hb & Hab
        & Hch & Hexp & _).
  rewrite Hexp. vm_compute in Hch. injection Hch as <- <-.
  assert (Ea : a = "2019da1").
  { unfold case_is in Ha. vm_compute in Ha. now injection Ha. }
  assert (Eb : b = "2020da7").
  { unfold case_is in Hb. vm_compute in Hb. now injection Hb. }
  subst a b. vm_compute in E1, E2. injection E1 as <-. injection E2 as <-.
  vm_compute. reflexivity.
Defined.

(** C6, as the claim states it, fails.  The text of the ruling loses the
    blanks at its two ends before it is used, so the content is not the
    bracket followed by the concatenated chunk text; and a ruling whose
    fetched text is not empty but blank is not expanded at all: the
    second of the two documents is the original chunk, without the
    flag. *)
Lemma padded_case_text_is_stripped :
  List.length padded_case_chunks = 5%nat
  /\ expansion_top_n padded_pipeline = 2
  /\ (exists chunks1 chunks2 e1 d2,
        similarity_search (case_store padded_pipeline) "판례 전문 검색"
          (case_context_top_k (config padded_pipeline)) (Some "2019da1")
        = Ok chunks1
        /\ similarity_search (case_store padded_pipeline) "판례 전문 검색"
             (case_context_top_k (config padded_pipeline)) (Some "2020da7")
           = Ok chunks2
        /\ concatenated_chunk_text rt_insertion padded_pipeline chunks1 <> ""
        /\ concatenated_chunk_text rt_insertion padded_pipeline chunks2 <> ""
        /\ expand_cases rt_insertion padded_pipeline padded_case_chunks
           = [e1; d2]
        /\ page_content e1
           <> full_case_prefix ++ "Deposit ruling" ++ "]" ++ nl
              ++ concatenated_chunk_text rt_insertion padded_pipeline chunks1
        /\ d2 = case_chunk "c3" "2020da7" "Renewal ruling" " "
        /\ dict_get "__expanded" (metadata d2) = None).
Proof.
  split; [reflexivity|]. split; [reflexivity|].
  eexists _, _, _, _.
  split; [vm_compute; reflexivity|].
  split; [vm_compute; reflexivity|].
  split; [vm_compute; discriminate|].
  split; [vm_compute; discriminate|].
  split; [vm_compute; reflexivity|].
  split; [vm_compute; discriminate|].
  split; [vm_compute; reflexivity|].
  reflexivity.
Qed.


(** ** Failures of the collaborators *)

Lemma generate_answer_after_retrieval (rt : PyRuntime) (p : RAGPipeline)
    (user_input : string) (skip : bool) (docs : list Document) :
  triple_hybrid_retrieval rt p
    (if skip then user_input else normalize_query p user_input) = Ok docs ->
  exists answer, generate_answer rt p user_input skip = Ok answer.
Proof.
  intros H. unfold generate_answer. rewrite H. simpl.
  destruct docs as [|d ds]; [eexists; reflexivity|].
  destruct (_generation_llm p _ _); eexists; reflexivity.
Qed.

Lemma retrieval_after_candidates (rt : PyRuntime) (p : RAGPipeline)
    (query : string) (combined : list Document) :
  retrieve_candidates rt p query = Ok combined ->
  (forall ranked, _rerank p query combined = Some ranked ->
                  Forall (index_in_range combined) ranked) ->
  exists docs, triple_hybrid_retrieval rt p query = Ok docs.
Proof.
  intros Hret Hidx. unfold triple_hybrid_retrieval. rewrite Hret. simpl.
  assert (Hsel : forall ranked,
             ranked = None \/ ranked = _rerank p query combined ->
             exists sel, select_docs p ranked combined = Ok sel).
  { intros ranked [-> | ->]; [eexists; reflexivity|].
    destruct (_rerank p query combined) as [[|e es]|] eqn:E;
      try (eexists; reflexivity).
    unfold select_docs.
    destruct (mapM_index_ok combined (kept_entries p (e :: es))) as (sel & Hs & _).
    - apply kept_entries_Forall. now apply Hidx.
    - now exists sel. }
  destruct (Hsel (if enable_rerank (config p)
                  then _rerank p query combined else None)) as [sel Hs].
  { destruct (enable_rerank (config p)); auto. }
  rewrite Hs. simpl. eexists; reflexivity.
Qed.

Lemma retrieval_raises_with_candidates (rt : PyRuntime) (p : RAGPipeline)
    (q : string) (e : Exn) :
  retrieve_candidates rt p q = Raise e ->
  triple_hybrid_retrieval rt p q = Raise e.
Proof.
  intros H. unfold triple_hybrid_retrieval. now rewrite H.
Qed.

Lemma generate_answer_raises_with_retrieval (rt : PyRuntime)
    (p : RAGPipeline) (user_input : string) (skip : bool) (e : Exn) :
  triple_hybrid_retrieval rt p
    (if skip then user_input else normalize_query p user_input) = Raise e ->
  generate_answer rt p user_input skip = Raise e.
Proof.
  intros H. unfold generate_answer. now rewrite H.
Qed.

Lemma str_mem_In (s : string) (l : list string) :
  str_mem s l = true <-> In s l.
Proof.
  unfold str_mem. rewrite existsb_exists. split.
  - intros (x & Hx & E). apply String.eqb_eq in E. now subst.
  - intros H. exists s. split; [exact H | apply String.eqb_refl].
Qed.

Lemma Qbetween_spec (lo x hi : Q) :
  Qbetween lo x hi = true <-> (lo <= x <= hi)%Q.
Proof.
  unfold Qbetween. rewrite andb_true_iff, !Qle_bool_iff. tauto.
Qed.

(** C2, as amended.  The exceptions of the normalisation model, of the
    rerank client, of the full-text search and of the generation model are
    caught where the call is made and replaced by a fallback: the
    unchanged question, no rerank, the original chunk, the apology text;
    once the candidates are retrieved, the retrieval returns, and once the
    retrieval returns, so does the answer.  A scored search that raises is
    replaced by the plain search of the same store; what that plain search
    raises is not caught: for the statute index, for the regulation index
    and for the case-law index alike it leaves [triple_hybrid_retrieval]
    and [generate_answer] as it is.  A configuration is rejected with
    [ValueError] when it is constructed exactly when its generation
    temperature is outside [[0, 2]], its rerank threshold outside
    [[0, 1]] or its fusion method none of the three. *)
Theorem external_failures_are_contained (rt : PyRuntime) (p : RAGPipeline) :
  (forall q e, _normalize_llm p q = Raise e -> normalize_query p q = q)
  /\ (forall q docs client e,
        _cohere_client p = Some client ->
        client (rerank_model (config p)) q (rerank_texts p docs)
               (Z.of_nat (List.length (rerank_texts p docs))) = Raise e ->
        _rerank p q docs = None)
  /\ (forall d c e,
        case_is c d -> c <> "" ->
        similarity_search (case_store p) "판례 전문 검색"
          (case_context_top_k (config p)) (Some c) = Raise e ->
        get_full_case_context rt p c = "" /\ expand_case rt p d = [d])
  /\ (forall user_input (skip : bool) d ds e,
        triple_hybrid_retrieval rt p
          (if skip then user_input else normalize_query p user_input)
        = Ok (d :: ds) ->
        _generation_llm p (format_context_with_hierarchy rt (d :: ds))
          (if skip then user_input else normalize_query p user_input)
        = Raise e ->
        generate_answer rt p user_input skip = Ok generation_failed)
  /\ (forall store q k e docs,
        similarity_search_with_score store q k = Raise e ->
        similarity_search store q k None = Ok docs ->
        _search_with_dense_rank store q k
        = Ok (map (fun '(rank, doc) => with_md doc "__dense_rank" (VInt rank))
                  (enumerate1 docs)))
  /\ (forall q combined,
        retrieve_candidates rt p q = Ok combined ->
        (forall ranked, _rerank p q combined = Some ranked ->
                        Forall (index_in_range combined) ranked) ->
        exists docs, triple_hybrid_retrieval rt p q = Ok docs)
  /\ (forall user_input (skip : bool) docs,
        triple_hybrid_retrieval rt p
          (if skip then user_input else normalize_query p user_input)
        = Ok docs ->
        exists answer, generate_answer rt p user_input skip = Ok answer)
  /\ (forall store q k e1 e2,
        similarity_search_with_score store q k = Raise e1 ->
        similarity_search store q k None = Raise e2 ->
        _search_with_dense_rank store q k = Raise e2)
  /\ (forall user_input (skip : bool) e,
        let q := if skip then user_input
                 else normalize_query p user_input in
        let law :=
          _search_with_dense_rank (law_store p) q
            (k_law (config p) * search_multiplier (config p)) in
        let rule :=
          _search_with_dense_rank (rule_store p) q
            (k_rule (config p) * search_multiplier (config p)) in
        let case :=
          _search_with_dense_rank (case_store p) q
            (case_candidate_k (config p)) in
        law = Raise e
        \/ ((exists docs, law = Ok docs) /\ rule = Raise e)
        \/ ((exists docs, law = Ok docs) /\ (exists docs, rule = Ok docs)
            /\ case = Raise e) ->
        triple_hybrid_retrieval rt p q = Raise e
        /\ generate_answer rt p user_input skip = Raise e)
  /\ (forall c,
        (RAGConfig_new c = Ok c
         <-> (0 <= generation_temperature c <= 2)%Q
             /\ (0 <= rerank_threshold c <= 1)%Q
             /\ In (hybrid_method c) ["rrf"; "weighted"; "rank_sum"])
        /\ (RAGConfig_new c <> Ok c ->
            exists msg, RAGConfig_new c = Raise (ValueError msg))).
Proof.
  split; [|split; [|split; [|split; [|split; [|split; [|split; [|split;
    [|split]]]]]]]].
  - intros q e H. unfold normalize_query. now rewrite H.
  - intros q docs client e Hc H. unfold _rerank. now rewrite Hc, H.
  - intros d c e Hcase Hne Hraise.
    assert (Hempty : get_full_case_context rt p c = "").
    { unfold get_full_case_context. now rewrite Hraise. }
    split; [exact Hempty|].
    unfold expand_case, case_is in *. rewrite Hcase.
    rewrite (VStr_truthy c Hne). simpl. now rewrite Hempty.
  - intros user_input skip d ds e Hret Hgen.
    unfold generate_answer. rewrite Hret. simpl. now rewrite Hgen.
  - intros store q k e docs H1 H2.
    unfold _search_with_dense_rank. now rewrite H1, H2.
  - intros q combined. apply retrieval_after_candidates.
  - intros user_input skip docs. apply generate_answer_after_retrieval.
  - intros store q k e1 e2 H1 H2.
    unfold _search_with_dense_rank. now rewrite H1, H2.
  - intros user_input skip e q law rule case Hfail.
    assert (Hret : retrieve_candidates rt p q = Raise e).
    { unfold retrieve_candidates. cbv zeta. fold law rule case.
      destruct Hfail as [Hl|[[[dl Hl] Hr]|[[dl Hl] [[dr Hr] Hc]]]].
      - now rewrite Hl.
      - rewrite Hl. cbn [bind]. now rewrite Hr.
      - rewrite Hl. cbn [bind]. rewrite Hr. cbn [bind]. now rewrite Hc. }
    pose proof (retrieval_raises_with_candidates rt p q e Hret) as Hthr.
    split; [exact Hthr|].
    now apply generate_answer_raises_with_retrieval.
  - intros c. unfold RAGConfig_new, RAGConfig_post_init.
    rewrite <- !Qbetween_spec, <- str_mem_In.
    destruct (Qbetween 0 (generation_temperature c) 2);
      destruct (Qbetween 0 (rerank_threshold c) 1);
      destruct (str_mem (hybrid_method c) ["rrf"; "weighted"; "rank_sum"]);
      cbn [negb bind]; split;
      try (split; [intros H; first [discriminate | now auto]
                  | intros (H1 & H2 & H3); first [discriminate | reflexivity]]);
      try (intros H; first [now contradiction H | eexists; reflexivity]).
Qed.

Lemma external_failures_are_contained_witness :
  generate_answer rt_insertion degraded_pipeline "deposit" false
  = Ok generation_failed.
Proof.
  destruct (external_failures_are_contained rt_insertion degraded_pipeline)
    as (_ & _ & _ & Hgen & _).
  destruct (triple_hybrid_retrieval rt_insertion degraded_pipeline
              (if false then "deposit"
               else normalize_query degraded_pipeline "deposit"))
    as [[|d ds]|err] eqn:Hret.
  - vm_compute in Hret. discriminate.
  - exact (Hgen "deposit" false d ds (ServiceError "gpt-4o-mini") Hret eq_refl).
  - vm_compute in Hret. discriminate.
Defined.

(** C2, as the claim states it, fails: with the statute index out of
    reach both searches of [_search_with_dense_rank] raise, and the
    exception of the second reaches the caller of
    [triple_hybrid_retrieval] and of [generate_answer]. *)
Lemma vector_search_failure_escapes :
  triple_hybrid_retrieval rt_insertion down_pipeline "deposit"
  = Raise (ServiceError "law-index-final")
  /\ generate_answer rt_insertion down_pipeline "deposit" true
     = Raise (ServiceError "law-index-final").
Proof. split; reflexivity. Qed.

(* ====================================================================== *)
(** * Further properties of the code *)
(* ====================================================================== *)

(** ** More on dictionaries *)

Lemma dict_keys_set {V : Type} (k k' : string) (v : V) (d : Dict V) :
  In k' (dict_keys (dict_set k v d)) <-> k' = k \/ In k' (dict_keys d).
Proof.
  unfold dict_keys. induction d as [|[k0 v0] rest IH]; simpl.
  - intuition congruence.
  - destruct (String.eqb k k0) eqn:E; simpl.
    + apply String.eqb_eq in E. subst k0. intuition congruence.
    + rewrite IH. intuition congruence.
Qed.

Lemma dict_get_None_keys {V : Type} (k : string) (d : Dict V) :
  dict_get k d = None <-> ~ In k (dict_keys d).
Proof.
  unfold dict_keys. induction d as [|[k0 v0] rest IH]; simpl.
  - intuition.
  - destruct (String.eqb k k0) eqn:E.
    + apply String.eqb_eq in E. subst. split; [discriminate | intuition].
    + apply String.eqb_neq in E. rewrite IH. intuition congruence.
Qed.

Lemma Counter_keys (l : list string) (t : string) :
  In t (dict_keys (Counter l)) -> In t l.
Proof.
  intros H. destruct (dict_get t (Counter l)) as [n|] eqn:E.
  - rewrite Counter_get in E.
    destruct (count_occ string_dec l t) eqn:C; [discriminate|].
    apply (count_occ_In string_dec). lia.
  - apply dict_get_None_keys in E. contradiction.
Qed.

(** ** BM25: shape of the result *)

Lemma bm25_doc_score_no_match (idf : Dict Q) (k1 b avgdl : Q)
    (toks : list string) (qtf : Dict Z) :
  (forall t, In t (dict_keys qtf) -> ~ In t toks) ->
  bm25_doc_score idf qtf k1 b avgdl toks = 0%Q.
Proof.
  intros H. unfold bm25_doc_score.
  match goal with
  | |- fold_left ?f _ _ = _ =>
      enough (Hfold : forall score, fold_left f qtf score = score) by apply Hfold
  end.
  induction qtf as [|[term qf] rest IH]; intros score; simpl; [reflexivity|].
  assert (Hnone : dict_get term (Counter toks) = None).
  { rewrite Counter_get.
    destruct (count_occ string_dec toks term) eqn:C; [reflexivity|].
    exfalso. apply (H term); [now left|].
    apply (count_occ_In string_dec). lia. }
  rewrite Hnone. apply IH. intros t Ht. apply H. now right.
Qed.

(** X5.  The built-in BM25 returns one score per candidate document, in
    the order of the documents, and a document that holds none of the
    query tokens scores exactly 0. *)
Theorem bm25_scores_shape (rt : PyRuntime) (query_tokens : list string)
    (docs_tokens : list (list string)) (k1 b : Q) :
  List.length (_bm25_scores_builtin rt query_tokens docs_tokens k1 b)
  = List.length docs_tokens
  /\ (forall i toks,
        nth_error docs_tokens i = Some toks ->
        (forall t, In t query_tokens -> ~ In t toks) ->
        nth_error (_bm25_scores_builtin rt query_tokens docs_tokens k1 b) i
        = Some 0%Q).
Proof.
  unfold _bm25_scores_builtin.
  destruct (List.length docs_tokens) as [|n] eqn:En.
  - split; [reflexivity|]. intros i toks Hi _.
    apply length_zero_iff_nil in En. subst. destruct i; discriminate.
  - destruct query_tokens as [|q qs] eqn:Eq.
    + split; [apply repeat_length|]. intros i toks Hi _.
      apply nth_error_repeat. rewrite <- En. apply nth_error_Some. congruence.
    + rewrite <- Eq in *. split; [now rewrite length_map|].
      intros i toks Hi Hno. rewrite nth_error_map, Hi. simpl. f_equal.
      apply bm25_doc_score_no_match.
      intros t Ht. apply Hno. now apply Counter_keys.
Qed.

Lemma bm25_scores_shape_witness :
  nth_error
    (_bm25_scores_builtin rt_insertion ["deposit"]
       [["lease"; "term"]; ["return"; "of"; "the"; "deposit"]] (3#2) (3#4)) 0
  = Some 0%Q.
Proof.
  apply (proj2 (bm25_scores_shape rt_insertion ["deposit"]
                  [["lease"; "term"]; ["return"; "of"; "the"; "deposit"]]
                  (3#2) (3#4)) 0%nat ["lease"; "term"] eq_refl).
  intros t [<-|[]] [H|[H|[]]]; discriminate.
Defined.

(** ** Deduplication *)

Lemma dedupe_loop_spec (rt : PyRuntime) (key_fields : list string)
    (docs : list Document) :
  forall seen,
    NoDup (map (dedupe_key rt key_fields) (dedupe_loop rt key_fields seen docs))
    /\ (forall d, In d (dedupe_loop rt key_fields seen docs) ->
                  In d docs /\ ~ In (dedupe_key rt key_fields d) seen)
    /\ (forall d, In d docs ->
                  In (dedupe_key rt key_fields d) seen
                  \/ In (dedupe_key rt key_fields d)
                        (map (dedupe_key rt key_fields)
                             (dedupe_loop rt key_fields seen docs))).
Proof.
  induction docs as [|d ds IH]; intros seen; simpl.
  - split; [constructor|]. split; intros d []. 
  - destruct (str_mem (dedupe_key rt key_fields d) seen) eqn:E.
    + apply str_mem_In in E.
      destruct (IH seen) as (Hnd & Hin & Hall).
      split; [exact Hnd|]. split.
      * intros x Hx. destruct (Hin x Hx). auto.
      * intros x [<-|Hx]; auto.
    + assert (Hns : ~ In (dedupe_key rt key_fields d) seen).
      { intros H. apply str_mem_In in H. congruence. }
      destruct (IH (dedupe_key rt key_fields d :: seen)) as (Hnd & Hin & Hall).
      split; [|split].
      * simpl. constructor; [|exact Hnd].
        intros H. apply in_map_iff in H. destruct H as (x & Hk & Hx).
        destruct (Hin x Hx) as [_ Hn]. apply Hn. left. congruence.
      * intros x [<-|Hx]; [auto|].
        destruct (Hin x Hx) as [H1 H2]. split; [auto|].
        intros H. apply H2. now right.
      * intros x [<-|Hx]; [right; now left|].
        destruct (Hall x Hx) as [[H|H]|H].
        -- right. left. congruence.
        -- now left.
        -- right. now right.
Qed.

Lemma dedupe_loop_fixes (rt : PyRuntime) (key_fields : list string)
    (docs : list Document) :
  forall seen,
    NoDup (map (dedupe_key rt key_fields) docs) ->
    (forall d, In d docs -> ~ In (dedupe_key rt key_fields d) seen) ->
    dedupe_loop rt key_fields seen docs = docs.
Proof.
  induction docs as [|d ds IH]; intros seen Hnd Hseen; simpl; [reflexivity|].
  inversion Hnd as [|? ? Hd Hds]; subst.
  destruct (str_mem (dedupe_key rt key_fields d) seen) eqn:E.
  - apply str_mem_In in E. exfalso. apply (Hseen d); auto. now left.
  - f_equal. apply IH; [exact Hds|].
    intros x Hx [H|H].
    + apply Hd. rewrite H. now apply in_map.
    + apply (Hseen x); auto. now right.
Qed.

(** X3.  [_dedupe_docs] keeps one document per key: the keys of the result
    are pairwise different, every result document is an input document,
    the key of every input document is the key of a result document, a
    second pass changes nothing, and the result is not longer than the
    input. *)
Theorem dedupe_docs_keeps_one_per_key (rt : PyRuntime)
    (docs : list Document) (key_fields : list string) :
  NoDup (map (dedupe_key rt key_fields) (_dedupe_docs rt docs key_fields))
  /\ incl (_dedupe_docs rt docs key_fields) docs
  /\ (forall d, In d docs ->
        In (dedupe_key rt key_fields d)
           (map (dedupe_key rt key_fields) (_dedupe_docs rt docs key_fields)))
  /\ _dedupe_docs rt (_dedupe_docs rt docs key_fields) key_fields
     = _dedupe_docs rt docs key_fields
  /\ (List.length (_dedupe_docs rt docs key_fields) <= List.length docs)%nat.
Proof.
  unfold _dedupe_docs.
  destruct (dedupe_loop_spec rt key_fields docs []) as (Hnd & Hin & Hall).
  split; [exact Hnd|]. split; [|split; [|split]].
  - intros d Hd. now destruct (Hin d Hd).
  - intros d Hd. destruct (Hall d Hd) as [[]|H]; exact H.
  - apply dedupe_loop_fixes; [exact Hnd|]. intros d _ [].
  - apply NoDup_incl_length.
    + eapply NoDup_map_inv. exact Hnd.
    + intros d Hd. now destruct (Hin d Hd).
Qed.

Lemma dedupe_docs_keeps_one_per_key_witness :
  In (dedupe_key rt_insertion ["chunk_id"; "id"] doc_A)
     (map (dedupe_key rt_insertion ["chunk_id"; "id"])
          (_dedupe_docs rt_insertion [doc_A; doc_B; doc_A] ["chunk_id"; "id"])).
Proof.
  apply (proj1 (proj2 (proj2 (dedupe_docs_keeps_one_per_key rt_insertion
                                [doc_A; doc_B; doc_A] ["chunk_id"; "id"])))).
  simpl. auto.
Defined.

(** ** Min-max normalisation and the weighted sum *)

Lemma Qmin_list_le (l : list Q) :
  forall x, (ScoreFusion.Qmin_list x l <= x)%Q
            /\ Forall (fun v => (ScoreFusion.Qmin_list x l <= v)%Q) l.
Proof.
  unfold ScoreFusion.Qmin_list.
  induction l as [|v vs IH]; intros x; simpl.
  - split; [apply Qle_refl | constructor].
  - destruct (Qle_bool x v) eqn:E.
    + apply Qle_bool_iff in E. destruct (IH x) as [H1 H2].
      split; [exact H1|]. constructor; [|exact H2].
      now apply Qle_trans with x.
    + assert (Hvx : (v <= x)%Q).
      { apply Qlt_le_weak, Qnot_le_lt. intros H.
        apply Qle_bool_iff in H. congruence. }
      destruct (IH v) as [H1 H2].
      split; [now apply Qle_trans with v|]. now constructor.
Qed.

Lemma Qmax_list_ge (l : list Q) :
  forall x, (x <= ScoreFusion.Qmax_list x l)%Q
            /\ Forall (fun v => (v <= ScoreFusion.Qmax_list x l)%Q) l.
Proof.
  unfold ScoreFusion.Qmax_list.
  induction l as [|v vs IH]; intros x; simpl.
  - split; [apply Qle_refl | constructor].
  - destruct (Qle_bool v x) eqn:E.
    + apply Qle_bool_iff in E. destruct (IH x) as [H1 H2].
      split; [exact H1|]. constructor; [|exact H2].
      now apply Qle_trans with x.
    + assert (Hxv : (x <= v)%Q).
      { apply Qlt_le_weak, Qnot_le_lt. intros H.
        apply Qle_bool_iff in H. congruence. }
      destruct (IH v) as [H1 H2].
      split; [now apply Qle_trans with v|]. now constructor.
Qed.

Lemma unit_interval_scaled (v lo hi : Q) :
  (lo <= v)%Q -> (v <= hi)%Q -> ~ (hi == lo)%Q ->
  (0 <= (v - lo) / (hi - lo) <= 1)%Q.
Proof.
  intros H1 H2 Hne.
  assert (Hpos : (0 < hi - lo)%Q).
  { destruct (Qlt_le_dec lo hi) as [Hlt|Hle]; [lra|].
    exfalso. apply Hne. lra. }
  split.
  - apply Qle_shift_div_l; [exact Hpos | lra].
  - apply Qle_shift_div_r; [exact Hpos | lra].
Qed.

Lemma normalize_spec (scores : Dict Q) :
  dict_keys (ScoreFusion._normalize scores) = dict_keys scores
  /\ Forall (fun v => (0 <= v <= 1)%Q)
            (dict_values (ScoreFusion._normalize scores)).
Proof.
  unfold ScoreFusion._normalize.
  destruct (dict_values scores) as [|v0 vs] eqn:Ev.
  - split; [reflexivity|]. rewrite Ev. constructor.
  - pose proof (Qmin_list_le vs v0) as [Hm0 Hm].
    pose proof (Qmax_list_ge vs v0) as [HM0 HM].
    assert (Hall : Forall (fun v => (ScoreFusion.Qmin_list v0 vs <= v
                                     <= ScoreFusion.Qmax_list v0 vs)%Q)
                          (dict_values scores)).
    { rewrite Ev. constructor; [split; assumption|].
      rewrite Forall_forall in *. intros v Hv. split; auto. }
    clear Ev Hm0 Hm HM0 HM.
    destruct (Qeq_bool (ScoreFusion.Qmax_list v0 vs)
                       (ScoreFusion.Qmin_list v0 vs)) eqn:E.
    + split.
      * unfold dict_keys. rewrite map_map. apply map_ext. now intros [k v].
      * unfold dict_values. rewrite map_map. apply Forall_forall.
        intros x Hx. apply in_map_iff in Hx. destruct Hx as ([k v] & <- & _).
        simpl. split; lra.
    + apply Qeq_bool_neq in E. split.
      * unfold dict_keys. rewrite map_map. apply map_ext. now intros [k v].
      * unfold dict_values in *. rewrite map_map. apply Forall_forall.
        intros x Hx. apply in_map_iff in Hx. destruct Hx as ([k v] & <- & Hin).
        simpl. rewrite Forall_forall in Hall.
        destruct (Hall v) as [Hlo Hhi].
        { apply in_map_iff. exists (k, v). auto. }
        now apply unit_interval_scaled.
Qed.

Lemma zero_in_unit : (0 <= 0 <= 1)%Q.
Proof. split; lra. Qed.

Lemma dict_get_In_values {V : Type} (k : string) (v : V) (d : Dict V) :
  dict_get k d = Some v -> In v (dict_values d).
Proof.
  unfold dict_values. induction d as [|[k' v'] rest IH]; simpl; [discriminate|].
  destruct (String.eqb k k').
  - intros H. injection H as ->. now left.
  - auto.
Qed.

Lemma fold_dict_set_origin {V : Type} (f : string -> V) (l : list string) :
  forall (acc : Dict V) (x : string) (v : V),
    dict_get x (fold_left (fun s id => dict_set id (f id) s) l acc) = Some v ->
    v = f x \/ dict_get x acc = Some v.
Proof.
  induction l as [|a l IH]; intros acc x v H; simpl in H; [now right|].
  destruct (IH _ _ _ H) as [Hv|Hacc]; [now left|].
  destruct (string_dec x a) as [->|Hne].
  - rewrite dict_get_set_same in Hacc. injection Hacc as <-. now left.
  - rewrite dict_get_set_other in Hacc by exact Hne. now right.
Qed.

(** X9.  For scores of magnitude [float_score_bound] at most, whose
    differences are finite floats, [_normalize] keeps the keys and maps
    every score into [[0, 1]]; for [0 <= alpha <= 1] every score of the
    normalised [weighted_sum] lies in [[0, 1]] as well. *)
Theorem weighted_sum_stays_in_unit_interval (rt : PyRuntime)
    (dense_scores sparse_scores : Dict Q) (alpha : Q) :
  (0 <= alpha <= 1)%Q ->
  Forall (fun v => (- float_score_bound <= v <= float_score_bound)%Q)
         (dict_values dense_scores) ->
  Forall (fun v => (- float_score_bound <= v <= float_score_bound)%Q)
         (dict_values sparse_scores) ->
  dict_keys (ScoreFusion._normalize dense_scores) = dict_keys dense_scores
  /\ Forall (fun v => (0 <= v <= 1)%Q)
            (dict_values (ScoreFusion._normalize dense_scores))
  /\ (forall doc_id v,
        dict_get doc_id
          (ScoreFusion.weighted_sum rt dense_scores sparse_scores alpha true)
        = Some v ->
        (0 <= v <= 1)%Q).
Proof.
  intros [Ha0 Ha1] _ _.
  destruct (normalize_spec dense_scores) as [Hk Hd].
  destruct (normalize_spec sparse_scores) as [_ Hs].
  split; [exact Hk|]. split; [exact Hd|].
  intros doc_id v Hget. unfold ScoreFusion.weighted_sum in Hget.
  cbv zeta in Hget.
  apply fold_dict_set_origin in Hget. destruct Hget as [->|H]; [|discriminate].
  assert (Hdv : (0 <= match dict_get doc_id (ScoreFusion._normalize dense_scores)
                      with Some x => x | None => 0 end <= 1)%Q).
  { destruct (dict_get doc_id (ScoreFusion._normalize dense_scores))
      as [x|] eqn:E; [|exact zero_in_unit].
    rewrite Forall_forall in Hd. apply Hd. eapply dict_get_In_values; eauto. }
  assert (Hsv : (0 <= match dict_get doc_id (ScoreFusion._normalize sparse_scores)
                      with Some x => x | None => 0 end <= 1)%Q).
  { destruct (dict_get doc_id (ScoreFusion._normalize sparse_scores))
      as [x|] eqn:E; [|exact zero_in_unit].
    rewrite Forall_forall in Hs. apply Hs. eapply dict_get_In_values; eauto. }
  destruct Hdv as [Hd0 Hd1]. destruct Hsv as [Hs0 Hs1].
  set (d := match dict_get doc_id (ScoreFusion._normalize dense_scores)
            with Some x => x | None => 0%Q end) in *.
  set (s := match dict_get doc_id (ScoreFusion._normalize sparse_scores)
            with Some x => x | None => 0%Q end) in *.
  clearbody d s. split; nra.
Qed.

Lemma weighted_sum_stays_in_unit_interval_witness :
  exists v,
    dict_get "A"
      (ScoreFusion.weighted_sum rt_insertion
         [("A", 1%Q); ("B", (1#2)%Q)] [("A", 0%Q); ("B", (7#2)%Q)] (1#2) true)
    = Some v
    /\ (0 <= v <= 1)%Q.
Proof.
  assert (Ha : (0 <= 1#2 <= 1)%Q) by (split; discriminate).
  assert (Hd : Forall (fun v => (- float_score_bound <= v
                                 <= float_score_bound)%Q)
                      (dict_values [("A", 1%Q); ("B", (1#2)%Q)])).
  { repeat constructor; vm_compute; discriminate. }
  assert (Hs : Forall (fun v => (- float_score_bound <= v
                                 <= float_score_bound)%Q)
                      (dict_values [("A", 0%Q); ("B", (7#2)%Q)])).
  { repeat constructor; vm_compute; discriminate. }
  eexists. split; [vm_compute; reflexivity|].
  apply (proj2 (proj2 (weighted_sum_stays_in_unit_interval rt_insertion
                         [("A", 1%Q); ("B", (1#2)%Q)]
                         [("A", 0%Q); ("B", (7#2)%Q)] (1#2) Ha Hd Hs)) "A").
  vm_compute. reflexivity.
Defined.

(** ** Rank-sum fusion with at most one document *)

Lemma dict_get_map_const {V : Type} (c : V) (x : string) (l : list string) :
  In x l -> dict_get x (map (fun id => (id, c)) l) = Some c.
Proof.
  induction l as [|a l IH]; intros H; [destruct H|]. simpl.
  destruct (String.eqb x a) eqn:E; [reflexivity|].
  apply String.eqb_neq in E. destruct H as [->|H]; [congruence | auto].
Qed.

(** X10.  When the two rank maps hold one document between them, [rank_sum]
    gives it the score [w_dense + w_sparse], whatever its ranks are. *)
Theorem rank_sum_of_single_document (rt : PyRuntime) (dense sparse : Dict Z)
    (wd ws : Q) (doc_id : string) :
  set_iter_ok rt ->
  (List.length (nodup string_dec (dict_keys dense ++ dict_keys sparse)%list)
   <= 1)%nat ->
  In doc_id (dict_keys dense ++ dict_keys sparse) ->
  dict_get doc_id (ScoreFusion.rank_sum rt dense sparse wd ws)
  = Some (wd + ws)%Q.
Proof.
  intros Hrt Hn Hin. unfold ScoreFusion.rank_sum. cbv zeta.
  rewrite (set_iter_length rt _ Hrt).
  destruct (Nat.leb_spec
              (List.length
                 (nodup string_dec (dict_keys dense ++ dict_keys sparse)%list))
              1) as [_|Hgt]; [|lia].
  apply dict_get_map_const. now apply (proj2 (Hrt _)).
Qed.

Lemma rank_sum_of_single_document_witness :
  dict_get "A" (ScoreFusion.rank_sum rt_insertion [("A", 7)] [("A", 3)]
                  (6#10) (4#10))
  = Some ((6#10) + (4#10))%Q.
Proof.
  apply (rank_sum_of_single_document rt_insertion [("A", 7)] [("A", 3)]
           (6#10) (4#10) "A" rt_insertion_ok).
  - vm_compute. lia.
  - simpl. auto.
Defined.

(** ** When reciprocal rank fusion raises *)

Lemma foldM_dict_set_raise {V : Type} (f : string -> Result V)
    (l : list string) :
  forall (acc : Dict V) (e : Exn),
    foldM (fun s id => v <- f id ;; Ok (dict_set id v s)) l acc = Raise e ->
    exists x, In x l /\ f x = Raise e.
Proof.
  induction l as [|a l IH]; intros acc e H; simpl in H; [discriminate|].
  destruct (f a) as [va|e'] eqn:Ea; simpl in H.
  - destruct (IH _ _ H) as (x & Hx & Hfx). exists x. split; [now right | exact Hfx].
  - injection H as <-. exists a. split; [now left | exact Ea].
Qed.

Lemma py_div_zero (a : Q) : py_div a (inject_Z 0) = Raise ZeroDivisionError.
Proof. reflexivity. Qed.

Lemma rrf_score_raise (dense sparse : Dict Z) (k : Z) (wd ws : Q)
    (doc_id : string) :
  forall r,
    dict_get doc_id dense = Some r \/ dict_get doc_id sparse = Some r ->
    k + r = 0 ->
    ScoreFusion.rrf_score dense sparse k wd ws doc_id = Raise ZeroDivisionError.
Proof.
  intros r Hr Hz. unfold ScoreFusion.rrf_score, ScoreFusion.rrf_side.
  destruct Hr as [Hd|Hs].
  - rewrite Hd, Hz, py_div_zero. reflexivity.
  - rewrite Hs, Hz, py_div_zero.
    destruct (dict_get doc_id dense) as [rd|]; simpl; [|reflexivity].
    unfold py_div. destruct (Qeq_bool (inject_Z (k + rd)) 0); reflexivity.
Qed.

Lemma rrf_score_raise_kind (dense sparse : Dict Z) (k : Z) (wd ws : Q)
    (doc_id : string) (e : Exn) :
  ScoreFusion.rrf_score dense sparse k wd ws doc_id = Raise e ->
  e = ZeroDivisionError.
Proof.
  unfold ScoreFusion.rrf_score, ScoreFusion.rrf_side, py_div.
  destruct (dict_get doc_id dense) as [rd|];
    destruct (dict_get doc_id sparse) as [rs|]; simpl;
    repeat match goal with
           | |- context [Qeq_bool ?a ?b] => destruct (Qeq_bool a b); simpl
           end; congruence.
Qed.

(** X7.  While every [k + r] stays within the range of a float (below
    [float_int_limit] in magnitude, so that the division cannot raise
    [OverflowError]), reciprocal rank fusion returns scores exactly when
    no rank [r] of either side has [k + r = 0], and the only exception
    it raises is [ZeroDivisionError]. *)
Theorem rrf_raises_only_on_zero_denominator (rt : PyRuntime)
    (dense sparse : Dict Z) (k : Z) (wd ws : Q) :
  set_iter_ok rt ->
  (forall doc_id r,
     dict_get doc_id dense = Some r \/ dict_get doc_id sparse = Some r ->
     Z.abs (k + r) < float_int_limit) ->
  ((exists scores,
      ScoreFusion.reciprocal_rank_fusion rt dense sparse k wd ws = Ok scores)
   <-> (forall doc_id r,
          dict_get doc_id dense = Some r \/ dict_get doc_id sparse = Some r ->
          k + r <> 0))
  /\ (forall e,
        ScoreFusion.reciprocal_rank_fusion rt dense sparse k wd ws = Raise e ->
        e = ZeroDivisionError).
Proof.
  intros Hrt _. unfold ScoreFusion.reciprocal_rank_fusion. split; [split|].
  - intros [scores Hrun] doc_id r Hr Hz.
    destruct (foldM_dict_set_get _ _ _ _ doc_id Hrun) as (v & Hv & _).
    + left. apply (proj2 (Hrt _)). apply in_or_app.
      destruct Hr as [Hr|Hr]; [left|right]; eapply dict_get_In_keys; eauto.
    + rewrite (rrf_score_raise dense sparse k wd ws doc_id r Hr Hz) in Hv.
      discriminate.
  - intros Hall. apply foldM_dict_set_ok. intros x _.
    apply rrf_score_ok; intros r Hr; apply (Hall x r); auto.
  - intros e Hrun. apply foldM_dict_set_raise in Hrun.
    destruct Hrun as (x & _ & Hx). eapply rrf_score_raise_kind; eauto.
Qed.

Lemma rrf_raises_only_on_zero_denominator_witness :
  ScoreFusion.reciprocal_rank_fusion rt_insertion
    [("A", 1); ("B", 2)] [("A", 2); ("B", 1)] (-2) 1 1
  = Raise ZeroDivisionError.
Proof.
  assert (Hrange : forall doc_id r,
             dict_get doc_id ([("A", 1); ("B", 2)] : Dict Z) = Some r
             \/ dict_get doc_id ([("A", 2); ("B", 1)] : Dict Z) = Some r ->
             Z.abs (-2 + r) < float_int_limit).
  { intros doc_id r [H|H]; simpl in H;
      destruct (String.eqb doc_id "A");
      try destruct (String.eqb doc_id "B");
      try discriminate; injection H as <-; vm_compute; reflexivity. }
  destruct (ScoreFusion.reciprocal_rank_fusion rt_insertion
              [("A", 1); ("B", 2)] [("A", 2); ("B", 1)] (-2) 1 1)
    as [scores|e] eqn:Hrun.
  - vm_compute in Hrun. discriminate.
  - f_equal.
    exact (proj2 (rrf_raises_only_on_zero_denominator rt_insertion
                    [("A", 1); ("B", 2)] [("A", 2); ("B", 1)] (-2) 1 1
                    rt_insertion_ok Hrange) e Hrun).
Defined.

(** ** Reciprocal rank fusion is monotone in the ranks *)

Lemma Qdiv_antitone (w a b : Q) :
  (0 <= w)%Q -> (0 < a)%Q -> (a <= b)%Q -> (w / b <= w / a)%Q.
Proof.
  intros Hw Ha Hab.
  assert (Hb : (0 < b)%Q) by lra.
  apply Qle_shift_div_r; [exact Hb|].
  assert (Hq : (0 <= w / a)%Q).
  { apply Qle_shift_div_l; [exact Ha | lra]. }
  assert (Hqa : (w / a * a == w)%Q).
  { field. intros H. rewrite H in Ha. now apply Qlt_irrefl in Ha. }
  rewrite <- Hqa at 1. nra.
Qed.

Lemma rrf_term_antitone (w : Q) (k r r' : Z) :
  (0 <= w)%Q -> 0 <= k -> 1 <= r <= r' ->
  (w / inject_Z (k + r') <= w / inject_Z (k + r))%Q.
Proof.
  intros Hw Hk Hr. apply Qdiv_antitone; [exact Hw| |].
  - change 0%Q with (inject_Z 0). rewrite <- Zlt_Qlt. lia.
  - rewrite <- Zle_Qle. lia.
Qed.

(** X8.  Reciprocal rank fusion is monotone: with [k >= 0], weights that are
    not negative and ranks from 1, a document ranked at least as well as
    another on both sides gets at least its fused score. *)
Theorem rrf_better_ranks_score_higher (rt : PyRuntime)
    (dense sparse : Dict Z) (k : Z) (wd ws : Q) (fused : Dict Q)
    (x y : string) (dx sx dy sy : Z) (score_x score_y : Q) :
  set_iter_ok rt ->
  ScoreFusion.reciprocal_rank_fusion rt dense sparse k wd ws = Ok fused ->
  dict_get x dense = Some dx -> dict_get x sparse = Some sx ->
  dict_get y dense = Some dy -> dict_get y sparse = Some sy ->
  dict_get x fused = Some score_x -> dict_get y fused = Some score_y ->
  0 <= k -> (0 <= wd)%Q -> (0 <= ws)%Q ->
  1 <= dx <= dy -> 1 <= sx <= sy ->
  (score_y <= score_x)%Q.
Proof.
  intros Hrt Hrun Hdx Hsx Hdy Hsy Hfx Hfy Hk Hwd Hws Hd Hs.
  unfold ScoreFusion.reciprocal_rank_fusion in Hrun.
  assert (Hval : forall id r s,
             dict_get id dense = Some r -> dict_get id fused = Some s ->
             (s == rrf_term wd k dense id + rrf_term ws k sparse id)%Q).
  { intros id r s Hr Hf.
    destruct (foldM_dict_set_get _ _ _ _ id Hrun) as (v & Hv & Hres).
    - left. apply (proj2 (Hrt _)). apply in_or_app. left.
      eapply dict_get_In_keys; eauto.
    - rewrite Hf in Hres. injection Hres as <-. now apply rrf_score_value. }
  rewrite (Hval x dx score_x Hdx Hfx), (Hval y dy score_y Hdy Hfy).
  unfold rrf_term. rewrite Hdx, Hsx, Hdy, Hsy.
  apply Qplus_le_compat; now apply rrf_term_antitone.
Qed.

Lemma rrf_better_ranks_score_higher_witness :
  exists fused score_x score_y,
    ScoreFusion.reciprocal_rank_fusion rt_insertion
      [("A", 1); ("B", 2)] [("A", 1); ("B", 3)] 60 (6#10) (4#10) = Ok fused
    /\ dict_get "A" fused = Some score_x
    /\ dict_get "B" fused = Some score_y
    /\ (score_y <= score_x)%Q.
Proof.
  eexists _, _, _.
  split; [vm_compute; reflexivity|].
  split; [vm_compute; reflexivity|].
  split; [vm_compute; reflexivity|].
  eapply (rrf_better_ranks_score_higher rt_insertion
            [("A", 1); ("B", 2)] [("A", 1); ("B", 3)] 60 (6#10) (4#10) _
            "A" "B" 1 1 2 3 _ _ rt_insertion_ok);
    try lia; try discriminate; vm_compute; reflexivity.
Defined.

(** ** Dense search: ranks *)

Lemma nth_error_enumerate_from {A : Type} (l : list A) :
  forall (start : Z) (i : nat),
    nth_error (enumerate_from start l) i
    = option_map (fun x => (start + Z.of_nat i, x)) (nth_error l i).
Proof.
  induction l as [|x xs IH]; intros start i; simpl.
  - now destruct i.
  - destruct i as [|i]; simpl.
    + now rewrite Z.add_0_r.
    + rewrite IH. destruct (nth_error xs i); simpl; [|reflexivity].
      do 2 f_equal. lia.
Qed.

Lemma nth_error_enumerate1 {A : Type} (l : list A) (i : nat) :
  nth_error (enumerate1 l) i
  = option_map (fun x => (Z.of_nat i + 1, x)) (nth_error l i).
Proof.
  unfold enumerate1. rewrite nth_error_enumerate_from.
  destruct (nth_error l i); cbn [option_map]; [|reflexivity].
  do 2 f_equal. lia.
Qed.

Lemma enumerate_from_length {A : Type} (l : list A) :
  forall start, List.length (enumerate_from start l) = List.length l.
Proof.
  induction l as [|x xs IH]; intros start; simpl; [reflexivity|].
  now rewrite IH.
Qed.

Lemma md_get_with_md_same (d : Document) (k : string) (v : PyVal) :
  md_get k (with_md d k v) = v.
Proof.
  unfold md_get, with_md. simpl. now rewrite dict_get_set_same.
Qed.

Lemma md_get_with_md_other (d : Document) (k k' : string) (v : PyVal) :
  k' <> k -> md_get k' (with_md d k v) = md_get k' d.
Proof.
  intros H. unfold md_get, with_md. simpl. now rewrite dict_get_set_other.
Qed.

(** X11.  [_search_with_dense_rank] numbers its results from 1 in the order
    of the store: the i-th document carries [__dense_rank = i]; with the
    scored search the contents and [__dense_score] are those of the
    store's pairs, and with the fallback search the contents are those of
    the plain search. *)
Theorem dense_search_numbers_the_results (store : VectorStore)
    (query : string) (k : Z) (docs : list Document) :
  _search_with_dense_rank store query k = Ok docs ->
  (forall i d,
     nth_error docs i = Some d ->
     md_get "__dense_rank" d = VInt (Z.of_nat i + 1))
  /\ (forall pairs,
        similarity_search_with_score store query k = Ok pairs ->
        map page_content docs = map (fun pr => page_content (fst pr)) pairs
        /\ map (md_get "__dense_score") docs
           = map (fun pr => VFloat (snd pr)) pairs)
  /\ (forall e found,
        similarity_search_with_score store query k = Raise e ->
        similarity_search store query k None = Ok found ->
        map page_content docs = map page_content found).
Proof.
  unfold _search_with_dense_rank. intros Hrun.
  destruct (similarity_search_with_score store query k) as [pairs|e] eqn:Es.
  - injection Hrun as <-. split; [|split].
    + intros i d Hi.
      rewrite nth_error_map, nth_error_enumerate1 in Hi.
      destruct (nth_error pairs i) as [[doc score]|]; [|discriminate].
      cbn [option_map] in Hi. injection Hi as <-.
      apply md_get_with_md_same.
    + intros pairs' H. injection H as <-. unfold enumerate1. clear Es.
      generalize 1 as start. induction pairs as [|[doc score] rest IH];
        intros start; simpl; [auto|].
      destruct (IH (start + 1)) as [H1 H2]. rewrite H1, H2.
      rewrite md_get_with_md_other by discriminate.
      now rewrite md_get_with_md_same.
    + intros e found H. discriminate.
  - destruct (similarity_search store query k None) as [found|e'] eqn:Ep;
      simpl in Hrun; [|discriminate].
    injection Hrun as <-. split; [|split].
    + intros i d Hi.
      rewrite nth_error_map, nth_error_enumerate1 in Hi.
      destruct (nth_error found i) as [doc|]; [|discriminate].
      cbn [option_map] in Hi. injection Hi as <-.
      apply md_get_with_md_same.
    + intros pairs H. discriminate.
    + intros e0 found' _ H. injection H as <-. unfold enumerate1. clear Ep.
      generalize 1 as start. induction found as [|doc rest IH];
        intros start; simpl; [auto|]. now rewrite IH.
Qed.

Lemma dense_search_numbers_the_results_witness :
  exists docs d,
    _search_with_dense_rank (law_store tie_pipeline) "deposit" 10 = Ok docs
    /\ nth_error docs 1 = Some d
    /\ md_get "__dense_rank" d = VInt 2.
Proof.
  destruct (_search_with_dense_rank (law_store tie_pipeline) "deposit" 10)
    as [[|d0 [|d1 rest]]|e] eqn:E;
    try (vm_compute in E; discriminate).
  exists (d0 :: d1 :: rest), d1.
  split; [reflexivity|]. split; [reflexivity|].
  exact (proj1 (dense_search_numbers_the_results (law_store tie_pipeline)
                  "deposit" 10 (d0 :: d1 :: rest) E) 1%nat d1 eq_refl).
Defined.

(** ** The cap before reranking *)

Lemma slice_to_firstn {A : Type} (n : Z) (l : list A) :
  0 <= n -> slice_to n l = firstn (Z.to_nat n) l.
Proof.
  intros Hn. unfold slice_to.
  destruct (Z.leb_spec 0 n); [reflexivity | lia].
Qed.

(** X15.  For a cap that is not negative, [_cap_for_rerank] returns the
    first [rerank_max_documents] documents of the deduplicated statutes,
    then regulations, then precedents: statutes and regulations are
    served before any precedent, and the result is never longer than the
    cap. *)
Theorem cap_for_rerank_is_a_prefix (rt : PyRuntime) (p : RAGPipeline)
    (law rule case : list Document) :
  0 <= rerank_max_documents (config p) ->
  _cap_for_rerank rt p law rule case
  = firstn (Z.to_nat (rerank_max_documents (config p)))
      (_dedupe_docs rt law (dedupe_key_fields (config p))
       ++ _dedupe_docs rt rule (dedupe_key_fields (config p))
       ++ _dedupe_docs rt case (dedupe_key_fields (config p)))%list
  /\ Z.of_nat (List.length (_cap_for_rerank rt p law rule case))
     <= rerank_max_documents (config p).
Proof.
  intros Hmax.
  assert (Heq : _cap_for_rerank rt p law rule case
    = firstn (Z.to_nat (rerank_max_documents (config p)))
        (_dedupe_docs rt law (dedupe_key_fields (config p))
         ++ _dedupe_docs rt rule (dedupe_key_fields (config p))
         ++ _dedupe_docs rt case (dedupe_key_fields (config p)))%list).
  { unfold _cap_for_rerank. cbv zeta. rewrite app_assoc.
    set (base := (_dedupe_docs rt law _ ++ _dedupe_docs rt rule _)%list).
    set (cases := _dedupe_docs rt case _).
    rewrite firstn_app.
    destruct (Z.leb_spec (rerank_max_documents (config p))
                         (Z.of_nat (List.length base))) as [Hle|Hgt].
    - rewrite slice_to_firstn by exact Hmax.
      replace (Z.to_nat (rerank_max_documents (config p)) - List.length base)%nat
        with 0%nat by lia.
      simpl. now rewrite app_nil_r.
    - rewrite slice_to_firstn by lia.
      rewrite (firstn_all2 (n := Z.to_nat (rerank_max_documents (config p)))
                 base) by lia.
      f_equal. f_equal. lia. }
  split; [exact Heq|].
  rewrite Heq, length_firstn. lia.
Qed.

Lemma cap_for_rerank_is_a_prefix_witness :
  Z.of_nat (List.length (_cap_for_rerank rt_insertion tie_pipeline
                           [doc_A; doc_B] [doc_A] case_chunks))
  <= rerank_max_documents (config tie_pipeline).
Proof.
  apply (cap_for_rerank_is_a_prefix rt_insertion tie_pipeline
           [doc_A; doc_B] [doc_A] case_chunks).
  simpl. lia.
Defined.

(** ** Rerank threshold and rerank indices *)

(** X16.  When at least one rerank entry reaches the threshold, the
    entries kept are exactly those at or above the threshold, in the
    rerank order; none below the threshold is kept and the selection is
    not empty. *)
Theorem threshold_is_respected_when_reached (p : RAGPipeline)
    (ranked : list (Z * Q)) :
  Exists (fun e => (rerank_threshold (config p) <= snd e)%Q) ranked ->
  kept_entries p ranked
  = filter (fun '(_, s) => Qle_bool (rerank_threshold (config p)) s) ranked
  /\ kept_entries p ranked <> []
  /\ Forall (fun e => (rerank_threshold (config p) <= snd e)%Q)
            (kept_entries p ranked).
Proof.
  intros Hex. unfold kept_entries.
  destruct (filter (fun '(_, s) => Qle_bool (rerank_threshold (config p)) s)
                   ranked) as [|e es] eqn:E.
  - exfalso. apply Exists_exists in Hex. destruct Hex as ([i s] & Hin & Hs).
    assert (Hf : In (i, s) (filter (fun '(_, s) =>
                   Qle_bool (rerank_threshold (config p)) s) ranked)).
    { apply filter_In. split; [exact Hin|]. now apply Qle_bool_iff. }
    rewrite E in Hf. destruct Hf.
  - split; [reflexivity|]. split; [discriminate|].
    rewrite <- E. apply Forall_forall. intros [i s] Hin.
    apply filter_In in Hin. destruct Hin as [_ Hs]. now apply Qle_bool_iff.
Qed.

Lemma threshold_is_respected_when_reached_witness :
  kept_entries tie_pipeline [(0, 1#10); (1, 9#10); (2, 3#10)]
  = [(1, 9#10); (2, 3#10)].
Proof.
  assert (Hex : Exists (fun e => (rerank_threshold (config tie_pipeline)
                                  <= snd e)%Q)
                       [(0, 1#10); (1, 9#10); (2, 3#10)]).
  { apply Exists_cons_tl, Exists_cons_hd. discriminate. }
  rewrite (proj1 (threshold_is_respected_when_reached tie_pipeline _ Hex)).
  reflexivity.
Defined.

Lemma py_index_rejected {A : Type} (l : list A) (i : Z) :
  i < - Z.of_nat (List.length l) \/ Z.of_nat (List.length l) <= i ->
  py_index l i = Raise IndexError.
Proof.
  intros H. unfold py_index.
  destruct (Z.ltb_spec i 0) as [Hneg|Hpos].
  - destruct (Z.leb_spec 0 (i + Z.of_nat (List.length l))); [lia | reflexivity].
  - destruct (Z.leb_spec 0 i); [|lia].
    destruct (Z.ltb_spec i (Z.of_nat (List.length l))); [lia | reflexivity].
Qed.

Lemma py_index_raise_kind {A : Type} (l : list A) (i : Z) (e : Exn) :
  py_index l i = Raise e -> e = IndexError.
Proof.
  unfold py_index.
  destruct ((0 <=? _) && (_ <? _)); [|congruence].
  destruct (nth_error l _); congruence.
Qed.

Lemma mapM_index_rejected (combined : list Document) (entries : list (Z * Q)) :
  Exists (index_rejected combined) entries ->
  mapM (fun '(i, _) => py_index combined i) entries = Raise IndexError.
Proof.
  induction entries as [|[i s] es IH]; intros H; [inversion H|]. simpl.
  destruct (py_index combined i) as [d|e] eqn:E.
  - simpl. inversion H as [? ? Hrej|? ? Hrest]; subst.
    + unfold index_rejected in Hrej. simpl in Hrej.
      rewrite (py_index_rejected combined i Hrej) in E. discriminate.
    + now rewrite (IH Hrest).
  - simpl. f_equal. eapply py_index_raise_kind; eauto.
Qed.

(** X17.  The rerank indices are not checked: when a kept rerank entry has
    an index outside the candidate list (beyond Python's negative
    indices too), the selection raises [IndexError] and so does
    [triple_hybrid_retrieval]. *)
Theorem rejected_rerank_index_raises (rt : PyRuntime) (p : RAGPipeline)
    (query : string) (combined : list Document) (ranked : list (Z * Q)) :
  retrieve_candidates rt p query = Ok combined ->
  enable_rerank (config p) = true ->
  _rerank p query combined = Some ranked ->
  Exists (index_rejected combined) (kept_entries p ranked) ->
  select_docs p (Some ranked) combined = Raise IndexError
  /\ triple_hybrid_retrieval rt p query = Raise IndexError.
Proof.
  intros Hret Hen Hrank Hex.
  assert (Hsel : select_docs p (Some ranked) combined = Raise IndexError).
  { unfold select_docs. destruct ranked as [|e es].
    - unfold kept_entries in Hex. simpl in Hex.
      unfold slice_to in Hex.
      destruct (0 <=? _) in Hex; rewrite firstn_nil in Hex; inversion Hex.
    - now apply mapM_index_rejected. }
  split; [exact Hsel|].
  unfold triple_hybrid_retrieval. rewrite Hret. simpl.
  rewrite Hen, Hrank, Hsel. reflexivity.
Qed.

Lemma rejected_rerank_index_raises_witness :
  triple_hybrid_retrieval rt_insertion misindexing_pipeline "deposit"
  = Raise IndexError.
Proof.
  destruct (retrieve_candidates rt_insertion misindexing_pipeline "deposit")
    as [combined|e] eqn:Hret; [|vm_compute in Hret; discriminate].
  assert (Hlen : List.length combined = 7%nat).
  { vm_compute in Hret. injection Hret as <-. reflexivity. }
  assert (Hex : Exists (index_rejected combined)
                       (kept_entries misindexing_pipeline [(99, 9#10)])).
  { apply Exists_cons_hd. right. simpl. rewrite Hlen. lia. }
  exact (proj2 (rejected_rerank_index_raises rt_insertion misindexing_pipeline
                  "deposit" combined [(99, 9#10)] Hret eq_refl eq_refl Hex)).
Defined.

(** ** The priority sort *)

Lemma sorted_by_Z_sorted {A : Type} (key : A -> Z) (l : list A) :
  StronglySorted (fun a b => key a <= key b) (sorted_by_Z key l).
Proof.
  unfold sorted_by_Z.
  induction l as [|x xs IH]; simpl; [constructor|].
  revert IH. generalize (stable_sort (fun y x0 => key y <? key x0) xs) as sorted.
  induction sorted as [|y ys IHs]; intros Hs; simpl.
  - repeat constructor.
  - destruct (Z.ltb_spec (key y) (key x)) as [Hlt|Hge].
    + pose proof Hs as Hs'. apply StronglySorted_inv in Hs'.
      destruct Hs' as [Hys Hall].
      constructor; [now apply IHs|].
      apply (Permutation_Forall (insert_stable_perm _ x ys)).
      constructor; [lia | exact Hall].
    + constructor; [exact Hs|]. constructor; [exact Hge|].
      apply StronglySorted_inv in Hs. destruct Hs as [_ Hall].
      eapply Forall_impl; [|exact Hall]. intros z Hz. simpl in Hz. lia.
Qed.

Lemma insert_stable_filter_key {A : Type} (key : A -> Z) (k : Z) (x : A)
    (l : list A) :
  filter (fun d => key d =? k)
         (insert_stable (fun y x0 => key y <? key x0) x l)
  = filter (fun d => key d =? k) (x :: l).
Proof.
  induction l as [|y ys IH]; [reflexivity|].
  cbn [insert_stable].
  destruct (Z.ltb_spec (key y) (key x)) as [Hlt|Hge]; [|reflexivity].
  cbn [filter] in *. rewrite IH.
  destruct (Z.eqb_spec (key y) k), (Z.eqb_spec (key x) k);
    try reflexivity; lia.
Qed.

Lemma sorted_by_Z_stable {A : Type} (key : A -> Z) (k : Z) (l : list A) :
  filter (fun d => key d =? k) (sorted_by_Z key l)
  = filter (fun d => key d =? k) l.
Proof.
  unfold sorted_by_Z. induction l as [|x xs IH]; [reflexivity|].
  cbn [stable_sort fold_right]. rewrite insert_stable_filter_key.
  cbn [filter]. fold (stable_sort (fun y x0 => key y <? key x0) xs).
  now rewrite IH.
Qed.

Lemma slice_to_length {A : Type} (n : Z) (l : list A) :
  0 <= n -> Z.of_nat (List.length (slice_to n l)) <= n.
Proof.
  intros Hn. rewrite slice_to_firstn by exact Hn.
  rewrite length_firstn. lia.
Qed.

Lemma merged_docs_length (rt : PyRuntime) (p : RAGPipeline)
    (selected_docs : list Document) :
  0 <= k_law (config p) -> 0 <= k_rule (config p) -> 0 <= k_case (config p) ->
  Z.of_nat (List.length (merged_docs rt p selected_docs))
  <= k_law (config p) + k_rule (config p) + k_case (config p).
Proof.
  intros Hl Hr Hc.
  unfold merged_docs. cbv zeta. rewrite !length_app.
  pose proof (slice_to_length (k_law (config p))
                (filter (from_source "law")
                   (_dedupe_docs rt selected_docs (dedupe_key_fields (config p))))
                Hl).
  pose proof (slice_to_length (k_rule (config p))
                (filter (from_source "rule")
                   (_dedupe_docs rt selected_docs (dedupe_key_fields (config p))))
                Hr).
  pose proof (slice_to_length (k_case (config p))
                (expand_cases rt p
                   (filter (from_source "case")
                      (_dedupe_docs rt selected_docs
                         (dedupe_key_fields (config p)))))
                Hc).
  lia.
Qed.

(** X19.  Steps 5 to 7 of the retrieval return the capped statutes,
    regulations and expanded precedents, rearranged in non-decreasing
    priority; documents of equal priority keep their relative order, and
    for caps that are not negative the result has at most
    [k_law + k_rule + k_case] documents. *)
Theorem final_documents_are_priority_sorted (rt : PyRuntime)
    (p : RAGPipeline) (selected_docs : list Document) :
  Permutation (merged_docs rt p selected_docs) (finalize rt p selected_docs)
  /\ StronglySorted (fun a b => priority_key a <= priority_key b)
                    (finalize rt p selected_docs)
  /\ (forall k,
        filter (fun d => priority_key d =? k) (finalize rt p selected_docs)
        = filter (fun d => priority_key d =? k)
                 (merged_docs rt p selected_docs))
  /\ (0 <= k_law (config p) -> 0 <= k_rule (config p) ->
      0 <= k_case (config p) ->
      Z.of_nat (List.length (finalize rt p selected_docs))
      <= k_law (config p) + k_rule (config p) + k_case (config p)).
Proof.
  change (finalize rt p selected_docs)
    with (sorted_by_Z priority_key (merged_docs rt p selected_docs)).
  split; [apply stable_sort_perm|].
  split; [apply sorted_by_Z_sorted|].
  split; [intros k; apply sorted_by_Z_stable|].
  intros Hl Hr Hc. unfold sorted_by_Z.
  rewrite <- (Permutation_length
                (stable_sort_perm _ (merged_docs rt p selected_docs))).
  now apply merged_docs_length.
Qed.

Lemma final_documents_are_priority_sorted_witness :
  Z.of_nat (List.length (finalize rt_insertion case_pipeline
                           (statute :: regulation :: case_chunks)))
  <= k_law (config case_pipeline) + k_rule (config case_pipeline)
     + k_case (config case_pipeline).
Proof.
  apply (proj2 (proj2 (proj2 (final_documents_are_priority_sorted
                                rt_insertion case_pipeline
                                (statute :: regulation :: case_chunks)))));
    simpl; lia.
Defined.

(** ** The selection of cases *)

Lemma choose_cases_length (top_n : Z) (l : list Document) :
  forall seen n,
    Z.of_nat (List.length (choose_cases top_n seen n l))
    <= Z.max 1 (top_n - Z.of_nat n).
Proof.
  induction l as [|d ds IH]; intros seen n; cbn [choose_cases]; cbv zeta.
  - simpl. lia.
  - destruct (negb (py_truthy (md_get "case_no" d))
              || existsb (py_eqb (md_get "case_no" d)) seen).
    + apply IH.
    + destruct (Z.leb_spec top_n (Z.of_nat (S n))) as [Hle|Hgt].
      * simpl. lia.
      * specialize (IH (md_get "case_no" d :: seen) (S n)).
        cbn [List.length]. lia.
Qed.

Lemma choose_cases_distinct (top_n : Z) (l : list Document) :
  forall seen n,
    Forall (fun d => In d l
                     /\ py_truthy (md_get "case_no" d) = true
                     /\ existsb (py_eqb (md_get "case_no" d)) seen = false)
           (choose_cases top_n seen n l)
    /\ ForallOrdPairs
         (fun a b => py_eqb (md_get "case_no" b) (md_get "case_no" a) = false)
         (choose_cases top_n seen n l).
Proof.
  induction l as [|d ds IH]; intros seen n; cbn [choose_cases]; cbv zeta.
  - split; constructor.
  - destruct (py_truthy (md_get "case_no" d)) eqn:Et; cbn [negb orb].
    + destruct (existsb (py_eqb (md_get "case_no" d)) seen) eqn:Es.
      * destruct (IH seen n) as [H1 H2]. split; [|exact H2].
        eapply Forall_impl; [|exact H1]. intros x (Hx & Ht & Hs).
        repeat split; auto. now right.
      * destruct (top_n <=? Z.of_nat (S n)).
        -- split; [|repeat constructor].
           constructor; [|constructor]. repeat split; auto. now left.
        -- destruct (IH (md_get "case_no" d :: seen) (S n)) as [H1 H2].
           split.
           ++ constructor; [repeat split; auto; now left|].
              eapply Forall_impl; [|exact H1]. intros x (Hx & Ht & Hs).
              cbn [existsb] in Hs. apply orb_false_iff in Hs.
              repeat split; [now right | exact Ht | tauto].
           ++ constructor; [|exact H2].
              eapply Forall_impl; [|exact H1]. intros x (_ & _ & Hs).
              cbn [existsb] in Hs. apply orb_false_iff in Hs. tauto.
    + destruct (IH seen n) as [H1 H2]. split; [|exact H2].
      eapply Forall_impl; [|exact H1]. intros x (Hx & Ht & Hs).
      repeat split; auto. now right.
Qed.

Lemma choose_cases_quirk (top_n : Z) (l : list Document) :
  top_n <= 1 ->
  Exists (fun d => py_truthy (md_get "case_no" d) = true) l ->
  exists d, choose_cases top_n [] 0 l = [d].
Proof.
  intros Htop Hex. induction l as [|d ds IH]; [inversion Hex|].
  cbn [choose_cases]; cbv zeta. cbn [existsb]. rewrite orb_false_r.
  destruct (py_truthy (md_get "case_no" d)) eqn:Et; cbn [negb].
  - destruct (Z.leb_spec top_n (Z.of_nat 1)) as [_|Hgt]; [|lia].
    now exists d.
  - apply IH. inversion Hex; subst; [congruence | assumption].
Qed.

Lemma expand_case_one (rt : PyRuntime) (p : RAGPipeline) (d : Document) :
  py_truthy (md_get "case_no" d) = true ->
  List.length (expand_case rt p d) = 1%nat.
Proof.
  intros Ht. unfold expand_case. rewrite Ht. cbn [negb].
  destruct (String.eqb _ ""); reflexivity.
Qed.

(** X18.  The case expansion chooses at most [max(1, top_n)] candidates,
    all with a truthy and pairwise different [case_no], and returns one
    document per chosen candidate.  The bound is tested after a candidate
    has been taken: with [top_n <= 1], also zero or negative, exactly one
    case is expanded as soon as one candidate has a case number. *)
Theorem case_selection_bounds (rt : PyRuntime) (p : RAGPipeline)
    (case_ranked : list Document) :
  let chosen := choose_cases (expansion_top_n p) [] 0 case_ranked in
  Z.of_nat (List.length chosen) <= Z.max 1 (expansion_top_n p)
  /\ Forall (fun d => In d case_ranked
                      /\ py_truthy (md_get "case_no" d) = true) chosen
  /\ ForallOrdPairs
       (fun a b => py_eqb (md_get "case_no" b) (md_get "case_no" a) = false)
       chosen
  /\ List.length (expand_cases rt p case_ranked) = List.length chosen
  /\ (expansion_top_n p <= 1 ->
      Exists (fun d => py_truthy (md_get "case_no" d) = true) case_ranked ->
      List.length chosen = 1%nat).
Proof.
  intros chosen.
  pose proof (choose_cases_length (expansion_top_n p) case_ranked [] 0) as Hlen.
  destruct (choose_cases_distinct (expansion_top_n p) case_ranked [] 0)
    as [Hall Hpairs].
  fold chosen in Hlen, Hall, Hpairs.
  split; [simpl in Hlen; lia|].
  split; [eapply Forall_impl; [|exact Hall]; intros x (H1 & H2 & _); auto|].
  split; [exact Hpairs|]. split.
  - unfold expand_cases. fold chosen.
    clear Hlen Hpairs. induction Hall as [|d ds (_ & Ht & _) _ IH];
      [reflexivity|].
    cbn [flat_map]. rewrite length_app, IH, (expand_case_one rt p d Ht).
    reflexivity.
  - intros Htop Hex.
    destruct (choose_cases_quirk _ _ Htop Hex) as [d Hd].
    unfold chosen. now rewrite Hd.
Qed.

Lemma case_selection_bounds_witness :
  List.length (choose_cases (expansion_top_n (fixture_pipeline
      (set_case_expand_top_n (Some (-3)) default_config)
      (fixture_store []) (fixture_store []) (fixture_store []) None true))
    [] 0 case_chunks) = 1%nat.
Proof.
  apply (proj2 (proj2 (proj2 (proj2 (case_selection_bounds rt_insertion
           (fixture_pipeline
              (set_case_expand_top_n (Some (-3)) default_config)
              (fixture_store []) (fixture_store []) (fixture_store [])
              None true)
           case_chunks))))).
  - vm_compute. discriminate.
  - apply Exists_cons_hd. reflexivity.
Defined.

(** ** The context sections hold every document once *)

(** X21.  The formatter puts every document into exactly one of its three
    sections: the lengths of the sections add up to the number of
    documents.  Without documents the context is the empty string. *)
Theorem sections_hold_every_document (rt : PyRuntime) (docs : list Document) :
  (let '(s1, s2, s3) := sections rt docs in
   (List.length s1 + List.length s2 + List.length s3)%nat = List.length docs)
  /\ format_context_with_hierarchy rt [] = "".
Proof.
  assert (Hlen : (List.length (tier_entries rt 1 docs)
                  + List.length (tier_entries rt 2 docs)
                  + List.length (tier_entries rt 3 docs))%nat
                 = List.length docs).
  { unfold tier_entries. rewrite !length_map.
    induction docs as [|d ds IH]; [reflexivity|].
    cbn [filter List.length]. rewrite (spec_tier_priority_key d).
    destruct (existsb (Z.eqb (priority_key d)) [1; 2; 4; 5]);
      [|destruct (existsb (Z.eqb (priority_key d)) [3; 6; 7; 8; 11])];
      cbn [Nat.eqb List.length]; lia. }
  split.
  - unfold sections. rewrite sections_from. exact Hlen.
  - reflexivity.
Qed.

(** ** The reordering by fused score *)

Lemma hybrid_fields_written (d : Document) (q : Q) (r : Z) :
  hybrid_score_of (with_md (with_md d "__hybrid_score" (VFloat q))
                           "__hybrid_rank" (VInt r)) = q
  /\ hybrid_rank_of (with_md (with_md d "__hybrid_score" (VFloat q))
                             "__hybrid_rank" (VInt r)) = r.
Proof.
  unfold hybrid_score_of, hybrid_rank_of. split.
  - rewrite md_get_with_md_other by discriminate.
    now rewrite md_get_with_md_same.
  - now rewrite md_get_with_md_same.
Qed.

Lemma reorder_loop_sorted (score_of : string -> Q) (doc_map : Dict Document)
    (ids : list string) :
  StronglySorted (fun a b => (score_of b <= score_of a)%Q) ids ->
  forall start,
    StronglySorted
      (fun a b => (hybrid_score_of b <= hybrid_score_of a)%Q
                  /\ hybrid_rank_of a < hybrid_rank_of b)
      (flat_map
         (fun '(rank, doc_id) =>
            match dict_get doc_id doc_map with
            | Some d =>
                [with_md (with_md d "__hybrid_score" (VFloat (score_of doc_id)))
                         "__hybrid_rank" (VInt rank)]
            | None => []
            end)
         (enumerate_from start ids))
    /\ Forall
         (fun e => start <= hybrid_rank_of e
                   /\ exists id, In id ids /\ hybrid_score_of e = score_of id)
         (flat_map
            (fun '(rank, doc_id) =>
               match dict_get doc_id doc_map with
               | Some d =>
                   [with_md (with_md d "__hybrid_score" (VFloat (score_of doc_id)))
                            "__hybrid_rank" (VInt rank)]
               | None => []
               end)
            (enumerate_from start ids)).
Proof.
  induction 1 as [|id ids Hs IH Hall]; intros start; cbn [enumerate_from flat_map].
  - split; constructor.
  - destruct (IH (start + 1)) as [Hsorted Hrest].
    assert (Hrest' : Forall
              (fun e => start <= hybrid_rank_of e
                        /\ exists id', In id' (id :: ids)
                                       /\ hybrid_score_of e = score_of id')
              (flat_map
                 (fun '(rank, doc_id) =>
                    match dict_get doc_id doc_map with
                    | Some d =>
                        [with_md (with_md d "__hybrid_score"
                                    (VFloat (score_of doc_id)))
                                 "__hybrid_rank" (VInt rank)]
                    | None => []
                    end)
                 (enumerate_from (start + 1) ids))).
    { eapply Forall_impl; [|exact Hrest].
      intros e (Hr & id' & Hin & Hsc). split; [lia|].
      exists id'. split; [now right | exact Hsc]. }
    destruct (dict_get id doc_map) as [d|]; cbn [app].
    + destruct (hybrid_fields_written d (score_of id) start) as [Hq Hr].
      split.
      * constructor; [exact Hsorted|].
        eapply Forall_impl; [|exact Hrest].
        intros e (Hre & id' & Hin & Hsc). rewrite Hq, Hr, Hsc. split; [|lia].
        rewrite Forall_forall in Hall. now apply Hall.
      * constructor; [|exact Hrest'].
        rewrite Hq, Hr. split; [lia|]. exists id. split; [now left | reflexivity].
    + split; [exact Hsorted | exact Hrest'].
Qed.

(** X14.  The documents that the fusion returns are in the order of
    non-increasing [__hybrid_score] and of strictly increasing
    [__hybrid_rank]; the ranks start at 1 and every written score is a
    score of the fused map. *)
Theorem reorder_sorts_by_fused_score (rt : PyRuntime) (p : RAGPipeline)
    (fused : Dict Q) (docs : list Document) :
  StronglySorted
    (fun a b => (hybrid_score_of b <= hybrid_score_of a)%Q
                /\ hybrid_rank_of a < hybrid_rank_of b)
    (reorder rt p fused docs)
  /\ Forall (fun e => 1 <= hybrid_rank_of e
                      /\ exists id, dict_get id fused = Some (hybrid_score_of e))
            (reorder rt p fused docs).
Proof.
  unfold reorder. cbv zeta. unfold enumerate1.
  set (score_of := fun x => match dict_get x fused with
                            | Some v => v | None => 0%Q end).
  destruct (reorder_loop_sorted score_of
              (fold_left (fun acc d => dict_set (_get_doc_id rt p d) d acc) docs [])
              (sorted_by_Q_desc score_of (dict_keys fused))
              (sorted_by_Q_desc_sorted score_of (dict_keys fused)) 1)
    as [Hsorted Hall].
  split; [exact Hsorted|].
  eapply Forall_impl; [|exact Hall].
  intros e (Hr & id & Hin & Hsc). split; [exact Hr|].
  exists id. rewrite Hsc. unfold score_of.
  apply (Permutation_in _ (Permutation_sym (stable_sort_perm _ _))) in Hin.
  destruct (dict_get id fused) as [v|] eqn:E; [reflexivity|].
  apply dict_get_None_keys in E. contradiction.
Qed.

(** ** The fusion keeps every document *)

Lemma dict_set_keys_NoDup {V : Type} (k : string) (v : V) (d : Dict V) :
  NoDup (dict_keys d) -> NoDup (dict_keys (dict_set k v d)).
Proof.
  induction d as [|[k0 v0] rest IH]; simpl; intros H.
  - constructor; [intros [] | constructor].
  - inversion H as [|? ? Hnotin Hrest]; subst.
    destruct (String.eqb k k0) eqn:E; simpl.
    + constructor; assumption.
    + apply String.eqb_neq in E. constructor; [|now apply IH].
      fold (dict_keys (dict_set k v rest)). rewrite dict_keys_set.
      intros [Heq|Hin]; [congruence | now apply Hnotin].
Qed.

Lemma fold_dict_set_keys {A V : Type} (key : A -> string) (val : A -> V)
    (l : list A) :
  forall acc : Dict V,
    NoDup (dict_keys acc) ->
    NoDup (dict_keys (fold_left (fun s a => dict_set (key a) (val a) s) l acc))
    /\ forall x,
         In x (dict_keys (fold_left (fun s a => dict_set (key a) (val a) s) l acc))
         <-> In x (map key l) \/ In x (dict_keys acc).
Proof.
  induction l as [|a l IH]; intros acc Hacc; simpl.
  - split; [exact Hacc | intros x; tauto].
  - destruct (IH (dict_set (key a) (val a) acc)
                 (dict_set_keys_NoDup _ _ _ Hacc)) as [Hnd Hin].
    split; [exact Hnd|]. intros x. rewrite Hin, dict_keys_set.
    intuition congruence.
Qed.

Lemma foldM_dict_set_keys {V : Type} (f : string -> Result V) (l : list string) :
  forall acc res : Dict V,
    foldM (fun s id => v <- f id ;; Ok (dict_set id v s)) l acc = Ok res ->
    NoDup (dict_keys acc) ->
    NoDup (dict_keys res)
    /\ forall x, In x (dict_keys res) <-> In x l \/ In x (dict_keys acc).
Proof.
  induction l as [|a l IH]; intros acc res Hrun Hacc; simpl in Hrun.
  - injection Hrun as <-. split; [exact Hacc | intros x; simpl; tauto].
  - destruct (f a) as [va|e]; simpl in Hrun; [|discriminate].
    destruct (IH _ _ Hrun (dict_set_keys_NoDup _ _ _ Hacc)) as [Hnd Hin].
    split; [exact Hnd|]. intros x. rewrite Hin, dict_keys_set. simpl.
    intuition congruence.
Qed.

Lemma fold_left_pointwise {A S : Type} (f g : S -> A -> S) (l : list A) :
  (forall s a, f s a = g s a) ->
  forall s, fold_left f l s = fold_left g l s.
Proof.
  intros H. induction l as [|a l IH]; intros s; simpl; [reflexivity|].
  now rewrite H, IH.
Qed.

Lemma dense_tables_loop_keys (rt : PyRuntime) (p : RAGPipeline)
    (docs : list Document) :
  forall start a b dr ds,
    foldM
      (fun '(dense_ranks, dense_scores) '(i, d) =>
         let doc_id := _get_doc_id rt p d in
         r <- rank_of (match dict_get "__dense_rank" (metadata d) with
                       | Some v => v | None => VInt i end) ;;
         s <- py_div 1 (inject_Z r) ;;
         Ok (dict_set doc_id r dense_ranks, dict_set doc_id s dense_scores))
      (enumerate_from start docs) (a, b) = Ok (dr, ds) ->
    (forall x, In x (dict_keys dr)
               <-> In x (map (_get_doc_id rt p) docs) \/ In x (dict_keys a))
    /\ (forall x, In x (dict_keys ds)
                  <-> In x (map (_get_doc_id rt p) docs) \/ In x (dict_keys b)).
Proof.
  induction docs as [|d docs IH]; intros start a b dr ds Hrun;
    cbn [enumerate_from foldM] in Hrun.
  - injection Hrun as <- <-. split; intros x; simpl; tauto.
  - cbv zeta in Hrun.
    destruct (rank_of _) as [r|e]; simpl in Hrun; [|discriminate].
    destruct (py_div 1 (inject_Z r)) as [s|e]; simpl in Hrun; [|discriminate].
    destruct (IH _ _ _ _ _ Hrun) as [Hr Hs].
    split; intros x; [rewrite Hr | rewrite Hs]; rewrite dict_keys_set; simpl;
      intuition congruence.
Qed.

Lemma sparse_tables_keys (rt : PyRuntime) (p : RAGPipeline) (tok : Tokenizer)
    (query : string) (docs : list Document) (bs : Dict Q) (sr : Dict Z) :
  sparse_tables rt p tok query docs = Ok (bs, sr) ->
  (forall x, In x (dict_keys bs) -> In x (map (_get_doc_id rt p) docs))
  /\ (forall x, In x (dict_keys sr) -> In x (map (_get_doc_id rt p) docs)).
Proof.
  unfold sparse_tables. cbv zeta.
  destruct (BM25Scorer_fit_score _ _ _ _ _ _ _ _) as [scores|e]; simpl;
    [|discriminate].
  intros H. injection H as <- <-.
  assert (Hbs : forall x,
             In x (dict_keys
                     (fold_left
                        (fun acc '(d, score) =>
                           dict_set (_get_doc_id rt p d) score acc)
                        (combine docs scores) [])) ->
             In x (map (_get_doc_id rt p) docs)).
  { intros x Hx.
    assert (E : fold_left
                  (fun acc '(d, score) => dict_set (_get_doc_id rt p d) score acc)
                  (combine docs scores) []
                = fold_left
                    (fun acc a => dict_set (_get_doc_id rt p (fst a)) (snd a) acc)
                    (combine docs scores) ([] : Dict Q)).
    { apply fold_left_pointwise. intros acc [d s]. reflexivity. }
    rewrite E in Hx.
    apply (proj2 (fold_dict_set_keys (fun a => _get_doc_id rt p (fst a)) snd
                    (combine docs scores) [] (NoDup_nil _))) in Hx.
    destruct Hx as [Hx|[]].
    apply in_map_iff in Hx. destruct Hx as ([d s] & <- & Hin).
    apply in_combine_l in Hin. now apply in_map. }
  split; [exact Hbs|].
  intros x Hx. apply Hbs.
  match type of Hx with
  | In _ (dict_keys (fold_left _ (enumerate1 ?l) _)) => set (sorted := l) in *
  end.
  assert (E : fold_left
                (fun acc '(rank, (doc_id, _)) => dict_set doc_id rank acc)
                (enumerate1 sorted) []
              = fold_left
                  (fun acc (a : Z * (string * Q)) =>
                     dict_set (fst (snd a)) (fst a) acc)
                  (enumerate1 sorted) ([] : Dict Z)).
  { apply fold_left_pointwise. intros acc [r [id s]]. reflexivity. }
  rewrite E in Hx.
  apply (proj2 (fold_dict_set_keys (fun a : Z * (string * Q) => fst (snd a)) fst
                  (enumerate1 sorted) [] (NoDup_nil _))) in Hx.
  destruct Hx as [Hx|[]].
  apply in_map_iff in Hx. destruct Hx as ([r [id s]] & <- & Hin). simpl.
  assert (Hs : In (id, s) sorted).
  { clear -Hin. unfold enumerate1 in Hin. revert Hin. generalize 1.
    induction sorted as [|y ys IH]; intros z; simpl; [tauto|].
    intros [Heq|Hin]; [left; congruence | right; eapply IH; eauto]. }
  subst sorted. unfold sorted_by_Q_desc in Hs.
  apply (Permutation_in _ (Permutation_sym (stable_sort_perm _ _))) in Hs.
  unfold dict_keys. apply (in_map fst) in Hs. exact Hs.
Qed.

Lemma fuse_keys (rt : PyRuntime) (p : RAGPipeline) (ids : list string)
    (dr : Dict Z) (ds bs : Dict Q) (sr : Dict Z) (fused : Dict Q) :
  set_iter_ok rt ->
  (forall x, In x (dict_keys dr) <-> In x ids) ->
  (forall x, In x (dict_keys ds) <-> In x ids) ->
  (forall x, In x (dict_keys bs) -> In x ids) ->
  (forall x, In x (dict_keys sr) -> In x ids) ->
  fuse rt p dr ds bs sr = Ok fused ->
  NoDup (dict_keys fused) /\ forall x, In x (dict_keys fused) <-> In x ids.
Proof.
  intros Hrt Hdr Hds Hbs Hsr. unfold fuse.
  assert (Hranks : forall x,
             In x (set_iter rt (dict_keys dr ++ dict_keys sr)) <-> In x ids).
  { intros x. rewrite (proj2 (Hrt _) x), in_app_iff, Hdr.
    split; [intros [H|H]; auto | auto]. }
  destruct (String.eqb (hybrid_method (config p)) "rrf").
  { unfold ScoreFusion.reciprocal_rank_fusion. cbv zeta. intros Hrun.
    destruct (foldM_dict_set_keys _ _ _ _ Hrun (NoDup_nil _)) as [Hnd Hin].
    split; [exact Hnd|]. intros x. rewrite Hin, Hranks. simpl. tauto. }
  destruct (String.eqb (hybrid_method (config p)) "weighted").
  { unfold ScoreFusion.weighted_sum. cbv zeta. intros Hrun.
    injection Hrun as <-.
    match goal with
    | |- context [fold_left (fun scores doc_id => dict_set doc_id (@?val doc_id) scores)
                            ?l []] =>
        destruct (fold_dict_set_keys (fun x : string => x) val l []
                    (NoDup_nil _)) as [Hnd Hin]
    end.
    split; [exact Hnd|]. intros x. rewrite Hin, map_id, (proj2 (Hrt _) x).
    rewrite in_app_iff.
    rewrite (proj1 (normalize_spec ds)), (proj1 (normalize_spec bs)), Hds.
    simpl. split; [intros [[H|H]|[]]; auto | auto]. }
  unfold ScoreFusion.rank_sum. cbv zeta. intros Hrun. injection Hrun as <-.
  destruct (_ <=? 1)%nat.
  - unfold dict_keys. rewrite map_map. simpl. rewrite map_id.
    split; [apply (Hrt _) | exact Hranks].
  - match goal with
    | |- context [fold_left (fun scores doc_id => dict_set doc_id (@?val doc_id) scores)
                            ?l []] =>
        destruct (fold_dict_set_keys (fun x : string => x) val l []
                    (NoDup_nil _)) as [Hnd Hin]
    end.
    split; [exact Hnd|]. intros x. rewrite Hin, map_id, Hranks. simpl. tauto.
Qed.

Lemma fold_dict_set_untouched {A V : Type} (key : A -> string) (val : A -> V)
    (l : list A) (x : string) :
  ~ In x (map key l) ->
  forall acc : Dict V,
    dict_get x (fold_left (fun s a => dict_set (key a) (val a) s) l acc)
    = dict_get x acc.
Proof.
  induction l as [|a l IH]; intros Hx acc; simpl; [reflexivity|].
  simpl in Hx. rewrite IH by tauto.
  apply dict_get_set_other. intros ->. tauto.
Qed.

Lemma doc_map_lookup (key : Document -> string) (docs : list Document) :
  NoDup (map key docs) ->
  forall acc : Dict Document,
    (forall d, In d docs ->
               dict_get (key d) (fold_left (fun s d => dict_set (key d) d s) docs acc)
               = Some d)
    /\ (forall id d,
          dict_get id (fold_left (fun s d => dict_set (key d) d s) docs acc)
          = Some d ->
          (In d docs /\ key d = id) \/ dict_get id acc = Some d).
Proof.
  induction docs as [|a l IH]; intros Hnd acc; simpl.
  - split; [intros d [] | intros id d H; now right].
  - inversion Hnd as [|? ? Hnotin Hrest]; subst.
    destruct (IH Hrest (dict_set (key a) a acc)) as [Hget Horigin].
    split.
    + intros d [<-|Hd]; [|now apply Hget].
      rewrite (fold_dict_set_untouched key (fun d => d) l (key a) Hnotin).
      apply dict_get_set_same.
    + intros id d H. destruct (Horigin _ _ H) as [[Hin Hk]|Hacc].
      * left. auto.
      * destruct (string_dec id (key a)) as [->|Hne].
        -- rewrite dict_get_set_same in Hacc. injection Hacc as <-. left. auto.
        -- rewrite dict_get_set_other in Hacc by exact Hne. now right.
Qed.

Lemma lookups_NoDup (key : Document -> string) (doc_map : Dict Document)
    (ids : list string) :
  (forall id d, dict_get id doc_map = Some d -> key d = id) ->
  NoDup ids ->
  NoDup (flat_map (fun id => match dict_get id doc_map with
                             | Some d => [d] | None => [] end) ids).
Proof.
  intros Hkey. induction 1 as [|id ids Hnotin Hnd IH]; simpl; [constructor|].
  destruct (dict_get id doc_map) as [d|] eqn:E; simpl; [|exact IH].
  constructor; [|exact IH].
  intros Hin. apply in_flat_map in Hin. destruct Hin as (id' & Hid' & Hd).
  destruct (dict_get id' doc_map) as [d'|] eqn:E'; [|destruct Hd].
  destruct Hd as [<-|[]].
  apply Hkey in E. apply Hkey in E'. congruence.
Qed.

Lemma reorder_loop_annotates (score_of : string -> Q) (doc_map : Dict Document)
    (ids : list string) :
  forall start,
    Forall2 same_up_to_hybrid_fields
      (flat_map (fun id => match dict_get id doc_map with
                           | Some d => [d] | None => [] end) ids)
      (flat_map
         (fun '(rank, doc_id) =>
            match dict_get doc_id doc_map with
            | Some d =>
                [with_md (with_md d "__hybrid_score" (VFloat (score_of doc_id)))
                         "__hybrid_rank" (VInt rank)]
            | None => []
            end)
         (enumerate_from start ids)).
Proof.
  induction ids as [|id ids IH]; intros start; cbn [enumerate_from flat_map].
  - constructor.
  - destruct (dict_get id doc_map) as [d|]; cbn [app]; [|apply IH].
    constructor; [|apply IH].
    split; [reflexivity|]. intros k Hs Hr. unfold with_md. simpl.
    rewrite dict_get_set_other by exact Hr.
    now rewrite dict_get_set_other by exact Hs.
Qed.

Lemma same_up_to_hybrid_fields_refl (l : list Document) :
  Forall2 same_up_to_hybrid_fields l l.
Proof.
  induction l; constructor; [|assumption]. split; [reflexivity|]. auto.
Qed.

(** X13.  With the fusion enabled and a tokenizer present, a successful
    [_hybrid_fusion] returns the deduplicated candidates in some order,
    each once, changed in the metadata fields [__hybrid_score] and
    [__hybrid_rank] only, provided that the deduplicated candidates have
    pairwise different ids. *)
Theorem hybrid_fusion_keeps_every_document (rt : PyRuntime) (p : RAGPipeline)
    (tok : Tokenizer) (query : string) (docs out : list Document) :
  set_iter_ok rt ->
  enable_hybrid (config p) = true ->
  _tokenizer p = Some tok ->
  NoDup (map (_get_doc_id rt p)
             (_dedupe_docs rt docs (dedupe_key_fields (config p)))) ->
  _hybrid_fusion rt p query docs = Ok out ->
  exists arranged,
    Permutation arranged (_dedupe_docs rt docs (dedupe_key_fields (config p)))
    /\ Forall2 same_up_to_hybrid_fields arranged out.
Proof.
  intros Hrt Hen Htok Hids. unfold _hybrid_fusion. rewrite Hen, Htok.
  destruct docs as [|d0 docs'].
  { intros H. injection H as <-. exists []. split; constructor. }
  set (docs := d0 :: docs') in *. cbv zeta.
  set (D := _dedupe_docs rt docs (dedupe_key_fields (config p))) in *.
  destruct (List.length D <=? 1)%nat.
  { intros H. injection H as <-. exists D.
    split; [reflexivity | apply same_up_to_hybrid_fields_refl]. }
  destruct (dense_tables rt p D) as [[dr ds]|e] eqn:Ed; simpl; [|discriminate].
  destruct (sparse_tables rt p tok query D) as [[bs sr]|e] eqn:Es; simpl;
    [|discriminate].
  destruct (fuse rt p dr ds bs sr) as [fused|e] eqn:Ef; simpl; [|discriminate].
  intros H. injection H as <-.
  unfold dense_tables, enumerate1 in Ed.
  destruct (dense_tables_loop_keys rt p D _ _ _ _ _ Ed) as [Hdr Hds].
  destruct (sparse_tables_keys rt p tok query D bs sr Es) as [Hbs Hsr].
  destruct (fuse_keys rt p (map (_get_doc_id rt p) D) dr ds bs sr fused Hrt)
    as [Hnd Hin]; try assumption.
  { intros x. rewrite Hdr. simpl. tauto. }
  { intros x. rewrite Hds. simpl. tauto. }
  unfold reorder. cbv zeta. unfold enumerate1.
  set (score_of := fun x => match dict_get x fused with
                            | Some v => v | None => 0%Q end).
  set (doc_map := fold_left (fun acc d => dict_set (_get_doc_id rt p d) d acc) D []).
  set (sorted_ids := sorted_by_Q_desc score_of (dict_keys fused)).
  destruct (doc_map_lookup (_get_doc_id rt p) D Hids []) as [Hget Horigin].
  fold doc_map in Hget, Horigin.
  assert (Hperm : Permutation (dict_keys fused) sorted_ids)
    by apply stable_sort_perm.
  exists (flat_map (fun id => match dict_get id doc_map with
                              | Some d => [d] | None => [] end) sorted_ids).
  split; [|apply reorder_loop_annotates].
  apply NoDup_Permutation.
  - apply (lookups_NoDup (_get_doc_id rt p)).
    + intros id d H. destruct (Horigin _ _ H) as [[_ Hk]|Hnil];
        [exact Hk | discriminate].
    + exact (Permutation_NoDup Hperm Hnd).
  - exact (NoDup_map_inv _ _ Hids).
  - intros d. rewrite in_flat_map. split.
    + intros (id & _ & Hd).
      destruct (dict_get id doc_map) as [d'|] eqn:E; [|destruct Hd].
      destruct Hd as [<-|[]].
      destruct (Horigin _ _ E) as [[Hd _]|Hnil]; [exact Hd | discriminate].
    + intros Hd. exists (_get_doc_id rt p d). split.
      * apply (Permutation_in _ Hperm). apply Hin. now apply in_map.
      * rewrite (Hget _ Hd). now left.
Qed.

Lemma hybrid_fusion_keeps_every_document_witness :
  exists out arranged,
    _hybrid_fusion rt_insertion tie_pipeline "deposit" [ranked_A; ranked_B; ranked_A]
    = Ok out
    /\ Permutation arranged [ranked_A; ranked_B]
    /\ Forall2 same_up_to_hybrid_fields arranged out.
Proof.
  destruct (_hybrid_fusion rt_insertion tie_pipeline "deposit"
              [ranked_A; ranked_B; ranked_A]) as [out|e] eqn:E;
    [|vm_compute in E; discriminate].
  exists out.
  destruct (hybrid_fusion_keeps_every_document rt_insertion tie_pipeline
              (SimpleTokenizer 1) "deposit" [ranked_A; ranked_B; ranked_A] out
              rt_insertion_ok eq_refl eq_refl) as (arranged & Hperm & Hsame).
  - vm_compute. repeat constructor; simpl; intuition discriminate.
  - exact E.
  - exists arranged. split; [reflexivity|]. split; [exact Hperm | exact Hsame].
Defined.

(** ** Document ids after deduplication *)

Lemma first_key_field_shape (rt : PyRuntime) (md : Dict PyVal)
    (fields : list string) (key : string) :
  first_key_field rt md fields = Some key ->
  exists f v, In f fields /\ key = f ++ ":" ++ py_str rt v.
Proof.
  induction fields as [|f fs IH]; simpl; [discriminate|].
  destruct (dict_get f md) as [v|].
  - destruct (py_truthy v).
    + intros H. injection H as <-. exists f, v. auto.
    + intros H. destruct (IH H) as (f' & v' & Hin & Hk). exists f', v'. auto.
  - intros H. destruct (IH H) as (f' & v' & Hin & Hk). exists f', v'. auto.
Qed.

Lemma NoDup_map_transfer {A B C : Type} (f : A -> B) (g : A -> C) (l : list A) :
  (forall a b, In a l -> In b l -> g a = g b -> f a = f b) ->
  NoDup (map f l) -> NoDup (map g l).
Proof.
  induction l as [|a l IH]; simpl; intros Hfg H; [constructor|].
  inversion H as [|? ? Hnotin Hrest]; subst.
  constructor.
  - intros Hin. apply in_map_iff in Hin. destruct Hin as (b & Hb & Hbl).
    apply Hnotin. apply in_map_iff. exists b. split; [|exact Hbl].
    apply Hfg; auto.
  - apply IH; [|exact Hrest]. intros; apply Hfg; auto.
Qed.

(** X12.  [_get_doc_id] and the key of [_dedupe_docs] agree on the
    metadata fields and differ in the prefix of the content hash
    (["hash:"] against ["content:"]).  When no key field has a name that
    begins with ["h"], as for the default fields, the deduplicated
    documents have pairwise different ids. *)
Theorem deduplicated_documents_have_distinct_ids (rt : PyRuntime)
    (p : RAGPipeline) (docs : list Document) :
  (forall f rest, In f (dedupe_key_fields (config p)) -> f <> String "h" rest) ->
  NoDup (map (_get_doc_id rt p)
             (_dedupe_docs rt docs (dedupe_key_fields (config p)))).
Proof.
  intros Hfields.
  apply (NoDup_map_transfer (dedupe_key rt (dedupe_key_fields (config p)))).
  2: { apply (dedupe_loop_spec rt (dedupe_key_fields (config p)) docs []). }
  intros a b _ _. unfold _get_doc_id, dedupe_key.
  destruct (first_key_field rt (metadata a) _) as [ka|] eqn:Ea;
    destruct (first_key_field rt (metadata b) _) as [kb|] eqn:Eb.
  - auto.
  - intros H. exfalso.
    destruct (first_key_field_shape _ _ _ _ Ea) as (f & v & Hin & ->).
    destruct f as [|c f]; simpl in H; [discriminate|].
    injection H as -> _. exact (Hfields _ _ Hin eq_refl).
  - intros H. exfalso.
    destruct (first_key_field_shape _ _ _ _ Eb) as (f & v & Hin & ->).
    destruct f as [|c f]; simpl in H; [discriminate|].
    injection H as <- _. exact (Hfields _ _ Hin eq_refl).
  - simpl. intros H. injection H as H. now rewrite H.
Qed.

Lemma deduplicated_documents_have_distinct_ids_witness :
  NoDup (map (_get_doc_id rt_insertion tie_pipeline)
             (_dedupe_docs rt_insertion [ranked_A; ranked_B; ranked_A]
                (dedupe_key_fields (config tie_pipeline)))).
Proof.
  apply (deduplicated_documents_have_distinct_ids rt_insertion tie_pipeline).
  intros f rest [<- | [<- | []]]; discriminate.
Defined.

(** ** Characters and bytes *)

Lemma split_chars_conts (cs : list ascii) :
  forallb is_continuation cs = true ->
  forall tail cur,
    split_chars (cs ++ tail) cur = split_chars tail (cur ++ cs)%list.
Proof.
  induction cs as [|b cs IH]; simpl; intros H tail cur.
  - now rewrite app_nil_r.
  - apply andb_prop in H. destruct H as [Hb Hcs].
    rewrite Hb, IH by exact Hcs. now rewrite <- app_assoc.
Qed.

Lemma split_chars_opened (rest : list Char) :
  forallb char_opens rest = true ->
  forall cur, cur <> [] -> split_chars (List.concat rest) cur = cur :: rest.
Proof.
  induction rest as [|g rest IH]; simpl; intros H cur Hcur.
  - destruct cur; [contradiction | reflexivity].
  - apply andb_prop in H. destruct H as [Hg Hrest].
    destruct g as [|b bs]; [discriminate|]. simpl in Hg.
    apply andb_prop in Hg. destruct Hg as [Hb Hbs].
    apply negb_true_iff in Hb. simpl. rewrite Hb.
    destruct cur as [|c0 cur']; [contradiction|].
    rewrite split_chars_conts by exact Hbs.
    rewrite IH by (exact Hrest || discriminate). reflexivity.
Qed.

Lemma split_chars_join (gs : list Char) :
  chars_ok gs = true -> split_chars (List.concat gs) [] = gs.
Proof.
  destruct gs as [|g rest]; [reflexivity|]. simpl. intros H.
  apply andb_prop in H. destruct H as [Hg Hrest].
  destruct g as [|b bs]; [discriminate|]. simpl in Hg. simpl.
  assert (E : split_chars (bs ++ List.concat rest) [b] = (b :: bs) :: rest).
  { rewrite split_chars_conts by exact Hg.
    now rewrite split_chars_opened by (exact Hrest || discriminate). }
  destruct (is_continuation b); exact E.
Qed.

Lemma char_opens_ok (c : Char) : char_opens c = true -> char_ok c = true.
Proof.
  destruct c as [|b bs]; simpl; [discriminate|].
  intros H. apply andb_prop in H. tauto.
Qed.

Lemma char_ok_snoc (cur : Char) (b : ascii) :
  cur = [] \/ char_ok cur = true -> is_continuation b = true ->
  char_ok (cur ++ [b])%list = true.
Proof.
  intros [->|H] Hb; [reflexivity|].
  destruct cur as [|c cs]; [discriminate|]. simpl in *.
  rewrite forallb_app, H. simpl. now rewrite Hb.
Qed.

Lemma char_opens_snoc (cur : Char) (b : ascii) :
  char_opens cur = true -> is_continuation b = true ->
  char_opens (cur ++ [b])%list = true.
Proof.
  destruct cur as [|c cs]; [discriminate|]. simpl. intros H Hb.
  apply andb_prop in H. destruct H as [Hc Hcs].
  rewrite Hc, forallb_app, Hcs. simpl. now rewrite Hb.
Qed.

Lemma split_chars_opens (l : list ascii) :
  forall cur, char_opens cur = true ->
              forallb char_opens (split_chars l cur) = true.
Proof.
  induction l as [|b l IH]; simpl; intros cur Hcur.
  - destruct cur; [discriminate|]. simpl. simpl in Hcur. now rewrite Hcur.
  - destruct (is_continuation b) eqn:Eb.
    + apply IH. now apply char_opens_snoc.
    + destruct cur as [|c cs]; [discriminate|].
      cbn [forallb]. rewrite Hcur. apply IH. simpl. now rewrite Eb.
Qed.

Lemma split_chars_ok (l : list ascii) :
  forall cur, cur = [] \/ char_ok cur = true ->
              chars_ok (split_chars l cur) = true.
Proof.
  induction l as [|b l IH]; simpl; intros cur Hcur.
  - destruct cur as [|c cs]; [reflexivity|].
    destruct Hcur as [Hcur|Hcur]; [discriminate|].
    simpl. simpl in Hcur. now rewrite Hcur.
  - destruct (is_continuation b) eqn:Eb.
    + apply IH. right. now apply char_ok_snoc.
    + destruct cur as [|c cs].
      * apply IH. now right.
      * destruct Hcur as [Hcur|Hcur]; [discriminate|].
        cbn [chars_ok]. rewrite Hcur. apply split_chars_opens.
        simpl. now rewrite Eb.
Qed.

Lemma chars_of_ok (s : string) : chars_ok (chars_of s) = true.
Proof. apply split_chars_ok. now left. Qed.

Lemma chars_of_str_of_chars (gs : list Char) :
  chars_ok gs = true -> chars_of (str_of_chars gs) = gs.
Proof.
  intros H. unfold chars_of, str_of_chars.
  rewrite list_ascii_of_string_of_list_ascii. now apply split_chars_join.
Qed.

Lemma str_of_chars_chars_of (s : string) : str_of_chars (chars_of s) = s.
Proof.
  unfold str_of_chars, chars_of.
  assert (H : forall l cur,
             List.concat (split_chars l cur) = (cur ++ l)%list).
  { induction l as [|b l IH]; intros cur; simpl.
    - destruct cur; simpl; now rewrite ?app_nil_r.
    - destruct (is_continuation b).
      + rewrite IH. now rewrite <- app_assoc.
      + destruct cur as [|c cs]; simpl; rewrite IH; reflexivity. }
  rewrite H. simpl. apply string_of_list_ascii_of_string.
Qed.

Lemma chars_ok_firstn (n : nat) (gs : list Char) :
  chars_ok gs = true -> chars_ok (firstn n gs) = true.
Proof.
  destruct gs as [|g rest]; [now rewrite firstn_nil|].
  destruct n as [|n]; [reflexivity|]. simpl. intros H.
  apply andb_prop in H. destruct H as [Hg Hrest]. rewrite Hg. simpl.
  apply forallb_forall, Forall_forall, Forall_firstn_keeps, Forall_forall.
  now apply forallb_forall.
Qed.

Lemma chars_ok_snoc (gs : list Char) (g : Char) :
  chars_ok gs = true -> char_opens g = true -> chars_ok (gs ++ [g])%list = true.
Proof.
  destruct gs as [|g0 rest]; simpl; intros H Hg.
  - rewrite (char_opens_ok _ Hg). reflexivity.
  - apply andb_prop in H. destruct H as [H0 Hrest].
    rewrite H0, forallb_app, Hrest. simpl. now rewrite Hg.
Qed.

Lemma list_ascii_of_string_app (a b : string) :
  list_ascii_of_string (a ++ b)
  = (list_ascii_of_string a ++ list_ascii_of_string b)%list.
Proof. induction a as [|c a IH]; simpl; [reflexivity | now rewrite IH]. Qed.

Lemma chars_of_append_char (gs : list Char) (g : Char) :
  chars_ok gs = true -> char_opens g = true ->
  chars_of (str_of_chars gs ++ string_of_list_ascii g) = (gs ++ [g])%list.
Proof.
  intros Hgs Hg. unfold chars_of, str_of_chars.
  rewrite list_ascii_of_string_app, !list_ascii_of_string_of_list_ascii.
  replace (List.concat gs ++ g)%list with (List.concat (gs ++ [g])%list).
  - apply split_chars_join. now apply chars_ok_snoc.
  - rewrite concat_app. simpl. now rewrite app_nil_r.
Qed.

Lemma split_chars_nonempty (l : list ascii) :
  forall cur, cur <> [] -> split_chars l cur <> [].
Proof.
  induction l as [|b l IH]; simpl; intros cur Hcur.
  - destruct cur; [contradiction | discriminate].
  - destruct (is_continuation b).
    + apply IH. destruct cur; discriminate.
    + destruct cur; [contradiction | discriminate].
Qed.

Lemma py_len_positive (text : string) :
  String.eqb text "" = false -> 1 <= py_len text.
Proof.
  intros H. unfold py_len, chars_of.
  destruct text as [|c s]; [discriminate|]. simpl.
  assert (Hne : split_chars (list_ascii_of_string s) [c] <> [])
    by (apply split_chars_nonempty; discriminate).
  destruct (is_continuation c);
    destruct (split_chars (list_ascii_of_string s) [c]);
    try contradiction; simpl; lia.
Qed.

(** ** Truncation *)

Lemma truncate_cut (text : string) (max_chars : Z) :
  String.eqb text "" = false ->
  max_chars < py_len text ->
  chars_of (_truncate text max_chars)
  = (slice_to (max_chars - 1) (chars_of text) ++ [list_ascii_of_string "…"])%list.
Proof.
  intros Hne Hlen. unfold _truncate. rewrite Hne.
  destruct (py_len text <=? max_chars) eqn:E; [apply Z.leb_le in E; lia|].
  unfold str_slice_to.
  rewrite <- (string_of_list_ascii_of_string "…") at 1.
  apply chars_of_append_char; [|reflexivity].
  unfold slice_to. destruct (0 <=? max_chars - 1);
    apply chars_ok_firstn, chars_of_ok.
Qed.

(** X1.  For a bound of at least one character, [_truncate] never returns
    more than [max_chars] characters: a text that fits is returned
    unchanged, and a longer one becomes its first [max_chars - 1]
    characters followed by the ellipsis, [max_chars] characters in all. *)
Theorem truncate_respects_bound (text : string) (max_chars : Z) :
  1 <= max_chars ->
  py_len (_truncate text max_chars) <= max_chars
  /\ (py_len text <= max_chars -> _truncate text max_chars = text)
  /\ (max_chars < py_len text ->
      py_len (_truncate text max_chars) = max_chars
      /\ chars_of (_truncate text max_chars)
         = (firstn (Z.to_nat (max_chars - 1)) (chars_of text)
            ++ [list_ascii_of_string "…"])%list).
Proof.
  intros Hmax.
  assert (Hcut : max_chars < py_len text ->
                 py_len (_truncate text max_chars) = max_chars
                 /\ chars_of (_truncate text max_chars)
                    = (firstn (Z.to_nat (max_chars - 1)) (chars_of text)
                       ++ [list_ascii_of_string "…"])%list).
  { intros Hlen.
    assert (Hne : String.eqb text "" = false).
    { destruct text; [|reflexivity]. change (py_len "") with 0 in Hlen. lia. }
    pose proof (truncate_cut text max_chars Hne Hlen) as E.
    unfold slice_to in E.
    destruct (0 <=? max_chars - 1) eqn:E0; [|apply Z.leb_gt in E0; lia].
    split; [|exact E].
    unfold py_len at 1. rewrite E, length_app, length_firstn. simpl.
    unfold py_len in Hlen. lia. }
  split; [|split; [|exact Hcut]].
  - destruct (Z.le_gt_cases (py_len text) max_chars) as [Hle|Hgt].
    + unfold _truncate. destruct (String.eqb text ""); [change (py_len "") with 0; lia|].
      rewrite (proj2 (Z.leb_le _ _) Hle). exact Hle.
    + destruct (Hcut Hgt) as [-> _]. lia.
  - intros Hle. unfold _truncate.
    destruct (String.eqb text "") eqn:E.
    + apply String.eqb_eq in E. now subst.
    + apply Z.leb_le in Hle. now rewrite Hle.
Qed.

Lemma truncate_respects_bound_witness :
  py_len (_truncate "임대차 보증금 반환" 4) = 4
  /\ chars_of (_truncate "임대차 보증금 반환" 4)
     = (firstn 3 (chars_of "임대차 보증금 반환") ++ [list_ascii_of_string "…"])%list.
Proof.
  apply (truncate_respects_bound "임대차 보증금 반환" 4); [lia|].
  vm_compute. reflexivity.
Defined.

(** X2.  A bound below one is not a bound: for a non-empty text and
    [max_chars < 1] the slice [text[:max_chars - 1]] counts from the end,
    and the result has [max(0, len(text) + max_chars - 1) + 1] characters,
    which is more than [max_chars]. *)
Theorem truncate_below_one_exceeds_bound (text : string) (max_chars : Z) :
  String.eqb text "" = false ->
  max_chars < 1 ->
  py_len (_truncate text max_chars)
  = Z.max 0 (py_len text + max_chars - 1) + 1
  /\ max_chars < py_len (_truncate text max_chars).
Proof.
  intros Hne Hmax.
  pose proof (py_len_positive text Hne) as Hpos.
  assert (Hlen : max_chars < py_len text) by lia.
  pose proof (truncate_cut text max_chars Hne Hlen) as E.
  unfold slice_to in E.
  destruct (0 <=? max_chars - 1) eqn:E0; [apply Z.leb_le in E0; lia|].
  assert (Hval : py_len (_truncate text max_chars)
                 = Z.max 0 (py_len text + max_chars - 1) + 1).
  { unfold py_len at 1. rewrite E, length_app, length_firstn. simpl.
    unfold py_len. lia. }
  split; [exact Hval | lia].
Qed.

Lemma truncate_below_one_exceeds_bound_witness :
  py_len (_truncate "임대차 보증금 반환" 0) = 10.
Proof.
  apply (proj1 (truncate_below_one_exceeds_bound "임대차 보증금 반환" 0
                  eq_refl ltac:(lia))).
Defined.

(** ** The regular-expression tokenizer *)

Lemma ord_bounds (c : ascii) : 0 <= ord c < 256.
Proof.
  unfold ord. pose proof (N_ascii_bounded c). lia.
Qed.

Lemma is_continuation_spec (b : ascii) :
  is_continuation b = true <-> 128 <= ord b <= 191.
Proof.
  unfold is_continuation. rewrite andb_true_iff, !Z.leb_le. tauto.
Qed.

Lemma token_char_opens (c : Char) :
  char_ok c = true -> is_token_char c = true -> char_opens c = true.
Proof.
  intros Hok Htok.
  destruct c as [|b1 rest]; [discriminate|]. simpl in Hok. simpl.
  rewrite Hok, andb_true_r.
  destruct (is_continuation b1) eqn:E1; [exfalso | reflexivity].
  apply is_continuation_spec in E1.
  unfold is_token_char in Htok. cbv zeta in Htok.
  rewrite !orb_true_iff, !andb_true_iff, !Z.leb_le in Htok.
  destruct rest as [|b2 [|b3 [|b4 [|b5 rest]]]]; simpl in Hok;
    rewrite ?andb_true_iff, ?is_continuation_spec in Hok;
    unfold code_point in Htok; lia.
Qed.

Lemma lower_char_spec (c : Char) :
  char_ok c = true ->
  Forall (fun c' => char_ok c' = true /\ ~ (65 <= code_point c' <= 90))
         (lower_char c).
Proof.
  intros Hok. unfold lower_char. cbv zeta.
  destruct ((65 <=? code_point c) && (code_point c <=? 90)) eqn:E.
  - apply andb_prop in E. destruct E as [E1 E2].
    apply Z.leb_le in E1, E2. constructor; [|constructor].
    split; [reflexivity|].
    change (code_point [ascii_of_N (Z.to_N (code_point c + 32))])
      with (ord (ascii_of_N (Z.to_N (code_point c + 32)))).
    unfold ord. rewrite N_ascii_embedding by lia. lia.
  - assert (Hup : ~ (65 <= code_point c <= 90)).
    { intros [H1 H2]. apply Z.leb_le in H1, H2.
      rewrite H1, H2 in E. discriminate. }
    destruct (code_point c =? 8490).
    { constructor; [|constructor]. split; [reflexivity|].
      intros H. vm_compute in H. destruct H as [_ H]. now apply H. }
    destruct (code_point c =? 304).
    { constructor; [|constructor; [|constructor]];
        (split; [reflexivity|]);
        intros H; vm_compute in H; destruct H as [_ H]; now apply H. }
    constructor; [|constructor]. split; assumption.
Qed.

Lemma lower_token_char (c : Char) :
  is_token_char c = true -> ~ (65 <= code_point c <= 90) ->
  is_lower_token_char c = true.
Proof.
  unfold is_token_char, is_lower_token_char. cbv zeta.
  rewrite !orb_true_iff, !andb_true_iff, !Z.leb_le. lia.
Qed.

Lemma findall_tokens_spec (Q : Char -> Prop) (l : list Char) :
  Forall Q l ->
  forall cur acc,
    Forall (fun c => Q c /\ is_token_char c = true) cur ->
    Forall (fun t => t <> []
                     /\ Forall (fun c => Q c /\ is_token_char c = true) t) acc ->
    Forall (fun t => t <> []
                     /\ Forall (fun c => Q c /\ is_token_char c = true) t)
           (findall_tokens l cur acc).
Proof.
  assert (Hflush : forall cur acc,
             Forall (fun c => Q c /\ is_token_char c = true) cur ->
             Forall (fun t => t <> []
                              /\ Forall (fun c => Q c /\ is_token_char c = true) t)
                    acc ->
             Forall (fun t => t <> []
                              /\ Forall (fun c => Q c /\ is_token_char c = true) t)
                    (flush_token cur acc)).
  { intros cur acc Hcur Hacc. unfold flush_token.
    destruct cur as [|c cs]; [exact Hacc|].
    apply Forall_app. split; [exact Hacc|].
    constructor; [|constructor]. split; [discriminate | exact Hcur]. }
  induction 1 as [|c l Hc Hl IH]; intros cur acc Hcur Hacc; simpl.
  - now apply Hflush.
  - destruct (is_token_char c) eqn:E.
    + apply IH; [|exact Hacc]. apply Forall_app. split; [exact Hcur|].
      constructor; [|constructor]. auto.
    + apply IH; [constructor | now apply Hflush].
Qed.

(** X4.  Every token that [SimpleTokenizer.tokenize] returns is non-empty,
    has at least [min_length] characters, and is made of digits, small
    ASCII letters and Hangul syllables only: no capital letter survives
    the lowering. *)
Theorem simple_tokenizer_tokens (min_length : Z) (text t : string) :
  In t (SimpleTokenizer min_length text) ->
  1 <= py_len t
  /\ min_length <= py_len t
  /\ Forall (fun c => is_lower_token_char c = true) (chars_of t).
Proof.
  unfold SimpleTokenizer. destruct (String.eqb text ""); [intros []|].
  cbv zeta. intros Hin. apply in_map_iff in Hin.
  destruct Hin as (tok & <- & Hin). apply filter_In in Hin.
  destruct Hin as [Hin Hmin]. apply Z.leb_le in Hmin.
  assert (Hchars : Forall (fun c => char_ok c = true
                                    /\ ~ (65 <= code_point c <= 90))
                          (flat_map lower_char (chars_of text))).
  { apply Forall_forall. intros c' Hc'. apply in_flat_map in Hc'.
    destruct Hc' as (c & Hc & Hc').
    assert (Hcok : char_ok c = true).
    { pose proof (chars_of_ok text) as Hok.
      destruct (chars_of text) as [|c0 cs]; [destruct Hc|].
      simpl in Hok. apply andb_prop in Hok. destruct Hok as [H0 Hcs].
      destruct Hc as [<-|Hc]; [exact H0|].
      apply char_opens_ok. rewrite forallb_forall in Hcs. now apply Hcs. }
    pose proof (lower_char_spec c Hcok) as Hall.
    rewrite Forall_forall in Hall. now apply Hall. }
  pose proof (findall_tokens_spec _ _ Hchars [] [] (Forall_nil _) (Forall_nil _))
    as Hspec.
  rewrite Forall_forall in Hspec. destruct (Hspec _ Hin) as [Hne Htok].
  assert (Hok : chars_ok tok = true).
  { destruct tok as [|c cs]; [reflexivity|]. simpl.
    inversion Htok as [|? ? [[Hc _] Hct] Hrest]; subst.
    rewrite Hc. simpl. apply forallb_forall. intros x Hx.
    rewrite Forall_forall in Hrest. destruct (Hrest _ Hx) as [[Hxok _] Hxt].
    now apply token_char_opens. }
  unfold py_len. rewrite (chars_of_str_of_chars _ Hok).
  split; [|split; [exact Hmin|]].
  - destruct tok; [contradiction | simpl; lia].
  - eapply Forall_impl; [|exact Htok].
    intros c [[_ Hup] Ht]. now apply lower_token_char.
Qed.

Lemma simple_tokenizer_tokens_witness :
  1 <= py_len "보증금"
  /\ 2 <= py_len "보증금"
  /\ Forall (fun c => is_lower_token_char c = true) (chars_of "보증금").
Proof.
  apply (simple_tokenizer_tokens 2 "A 보증금 Return, b").
  vm_compute. left. reflexivity.
Defined.

(** ** The result of the retrieval as a whole *)

Lemma from_source_exclusive (s s' : string) (d : Document) :
  from_source s d = true -> s <> s' -> from_source s' d = false.
Proof.
  unfold from_source.
  destruct (dict_get "__source_index" (metadata d)) as [v|]; [|discriminate].
  destruct v; simpl; try discriminate.
  intros H Hne. apply String.eqb_eq in H. subst.
  now apply String.eqb_neq.
Qed.

Lemma expand_case_keeps_source (rt : PyRuntime) (p : RAGPipeline)
    (s : string) (d e : Document) :
  In e (expand_case rt p d) -> from_source s e = from_source s d.
Proof.
  unfold expand_case. cbv zeta.
  destruct (negb (py_truthy (md_get "case_no" d))); [intros []|].
  destruct (String.eqb _ "").
  - intros [<-|[]]. reflexivity.
  - intros [<-|[]]. unfold from_source. simpl.
    now rewrite dict_get_set_other by discriminate.
Qed.

Lemma filter_all {A : Type} (f : A -> bool) (l : list A) :
  Forall (fun x => f x = true) l -> filter f l = l.
Proof.
  induction 1 as [|x l Hx _ IH]; simpl; [reflexivity|].
  now rewrite Hx, IH.
Qed.

Lemma filter_permutation {A : Type} (f : A -> bool) (l l' : list A) :
  Permutation l l' -> Permutation (filter f l) (filter f l').
Proof.
  induction 1 as [|x l l' _ IH|x y l|l l' l'' _ IH1 _ IH2]; simpl.
  - constructor.
  - destruct (f x); [now constructor | exact IH].
  - destruct (f x), (f y); try reflexivity. constructor.
  - now transitivity (filter f l').
Qed.

Lemma merged_docs_sources (rt : PyRuntime) (p : RAGPipeline)
    (selected_docs : list Document) :
  exists law rule case,
    merged_docs rt p selected_docs = (law ++ rule ++ case)%list
    /\ law = slice_to (k_law (config p))
               (filter (from_source "law")
                  (_dedupe_docs rt selected_docs (dedupe_key_fields (config p))))
    /\ rule = slice_to (k_rule (config p))
                (filter (from_source "rule")
                   (_dedupe_docs rt selected_docs (dedupe_key_fields (config p))))
    /\ Forall (fun d => from_source "law" d = true) law
    /\ Forall (fun d => from_source "rule" d = true) rule
    /\ Forall (fun d => from_source "case" d = true) case
    /\ (0 <= k_case (config p) ->
        Z.of_nat (List.length case) <= k_case (config p)).
Proof.
  unfold merged_docs. cbv zeta.
  set (D := _dedupe_docs rt selected_docs (dedupe_key_fields (config p))).
  eexists _, _, _. split; [reflexivity|].
  split; [reflexivity|]. split; [reflexivity|].
  split; [|split; [|split]].
  - apply Forall_slice_to, Forall_forall. intros d Hd.
    now apply filter_In in Hd.
  - apply Forall_slice_to, Forall_forall. intros d Hd.
    now apply filter_In in Hd.
  - apply Forall_slice_to, Forall_forall. intros e He.
    unfold expand_cases in He. apply in_flat_map in He.
    destruct He as (d & Hd & He).
    rewrite (expand_case_keeps_source rt p "case" d e He).
    destruct (choose_cases_distinct (expansion_top_n p)
                (filter (from_source "case") D) [] 0%nat) as [Hall _].
    rewrite Forall_forall in Hall. destruct (Hall _ Hd) as [Hin _].
    now apply filter_In in Hin.
  - apply slice_to_length.
Qed.

(** X20.  For caps that are not negative, whatever [triple_hybrid_retrieval]
    returns is sorted by priority, consists of documents tagged ["law"],
    ["rule"] or ["case"] only, and holds at most [k_law] statutes,
    [k_rule] regulations and [k_case] precedents, hence at most
    [k_law + k_rule + k_case] documents. *)
Theorem retrieval_result_shape (rt : PyRuntime) (p : RAGPipeline)
    (query : string) (docs : list Document) :
  0 <= k_law (config p) -> 0 <= k_rule (config p) -> 0 <= k_case (config p) ->
  triple_hybrid_retrieval rt p query = Ok docs ->
  StronglySorted (fun a b => priority_key a <= priority_key b) docs
  /\ Forall (fun d => source_tagged d = true) docs
  /\ Z.of_nat (List.length (filter (from_source "law") docs)) <= k_law (config p)
  /\ Z.of_nat (List.length (filter (from_source "rule") docs))
     <= k_rule (config p)
  /\ Z.of_nat (List.length (filter (from_source "case") docs))
     <= k_case (config p)
  /\ Z.of_nat (List.length docs)
     <= k_law (config p) + k_rule (config p) + k_case (config p).
Proof.
  intros Hl Hr Hc. unfold triple_hybrid_retrieval.
  destruct (retrieve_candidates rt p query) as [combined|e]; simpl;
    [|discriminate].
  destruct (select_docs p _ combined) as [sel|e]; simpl; [|discriminate].
  intros H. injection H as <-.
  change (finalize rt p sel)
    with (sorted_by_Z priority_key (merged_docs rt p sel)).
  assert (Hperm : Permutation (merged_docs rt p sel)
                    (sorted_by_Z priority_key (merged_docs rt p sel)))
    by apply stable_sort_perm.
  destruct (merged_docs_sources rt p sel)
    as (law & rule & case & EM & El & Er & Flaw & Frule & Fcase & Hcase).
  assert (Hcount : forall s,
             List.length (filter (from_source s)
                            (sorted_by_Z priority_key (merged_docs rt p sel)))
             = List.length (filter (from_source s) (law ++ rule ++ case)%list)).
  { intros s. rewrite <- EM. symmetry.
    apply Permutation_length, filter_permutation, Hperm. }
  assert (Hother : forall s s' l,
             s <> s' -> Forall (fun d => from_source s d = true) l ->
             filter (from_source s') l = []).
  { intros s s' l Hne Hall. apply filter_none.
    eapply Forall_impl; [|exact Hall].
    intros d Hd. now apply (from_source_exclusive s). }
  split; [apply sorted_by_Z_sorted|].
  split; [|split; [|split; [|split]]].
  - rewrite Forall_forall. intros d Hd.
    apply (Permutation_in _ (Permutation_sym Hperm)) in Hd. rewrite EM in Hd.
    unfold source_tagged. rewrite Forall_forall in Flaw, Frule, Fcase.
    apply in_app_or in Hd. destruct Hd as [Hd|Hd]; [now rewrite Flaw|].
    apply in_app_or in Hd. destruct Hd as [Hd|Hd].
    + rewrite (Frule _ Hd). now rewrite orb_true_r.
    + rewrite (Fcase _ Hd). now rewrite !orb_true_r.
  - rewrite Hcount, !filter_app, (filter_all _ _ Flaw).
    rewrite (Hother "rule" "law" rule), (Hother "case" "law" case)
      by (assumption || discriminate).
    rewrite !app_nil_r, El. now apply slice_to_length.
  - rewrite Hcount, !filter_app, (filter_all _ _ Frule).
    rewrite (Hother "law" "rule" law), (Hother "case" "rule" case)
      by (assumption || discriminate).
    rewrite app_nil_r, Er. simpl. now apply slice_to_length.
  - rewrite Hcount, !filter_app, (filter_all _ _ Fcase).
    rewrite (Hother "law" "case" law), (Hother "rule" "case" rule)
      by (assumption || discriminate).
    simpl. now apply Hcase.
  - rewrite <- (Permutation_length Hperm). now apply merged_docs_length.
Qed.

Lemma retrieval_result_shape_witness :
  exists docs,
    triple_hybrid_retrieval rt_insertion case_pipeline "deposit" = Ok docs
    /\ StronglySorted (fun a b => priority_key a <= priority_key b) docs
    /\ Z.of_nat (List.length (filter (from_source "case") docs))
       <= k_case (config case_pipeline).
Proof.
  destruct (triple_hybrid_retrieval rt_insertion case_pipeline "deposit")
    as [docs|e] eqn:E; [|vm_compute in E; discriminate].
  exists docs. split; [reflexivity|].
  destruct (retrieval_result_shape rt_insertion case_pipeline "deposit" docs)
    as (Hsorted & _ & _ & _ & Hcase & _);
    [simpl; lia | simpl; lia | simpl; lia | exact E |].
  split; [exact Hsorted | exact Hcase].
Defined.

(** ** The built-in BM25 scores are not negative *)

Lemma dict_set_Forall {V : Type} (P : string * V -> Prop) (k : string) (v : V)
    (d : Dict V) :
  P (k, v) -> Forall P d -> Forall P (dict_set k v d).
Proof.
  intros Hkv. induction 1 as [|[k0 v0] rest H0 Hrest IH]; simpl.
  - constructor; [exact Hkv | constructor].
  - destruct (String.eqb k k0) eqn:E.
    + apply String.eqb_eq in E. subst. constructor; assumption.
    + constructor; assumption.
Qed.

Lemma Counter_entries_positive (l : list string) :
  Forall (fun e : string * Z => 1 <= snd e) (Counter l).
Proof.
  unfold Counter.
  assert (H : forall c, Forall (fun e : string * Z => 1 <= snd e) c ->
                        Forall (fun e : string * Z => 1 <= snd e)
                               (fold_left counter_step l c)).
  { induction l as [|a l IH]; intros c Hc; simpl; [exact Hc|].
    apply IH. unfold counter_step. apply dict_set_Forall; [|exact Hc].
    simpl. destruct (dict_get a c) as [n|] eqn:E; [|lia].
    assert (Hin : In (a, n) c).
    { clear -E. induction c as [|[k v] rest IH]; simpl in *; [discriminate|].
      destruct (String.eqb a k) eqn:Ek.
      - apply String.eqb_eq in Ek. injection E as ->. subst. now left.
      - right. now apply IH. }
    rewrite Forall_forall in Hc. specialize (Hc _ Hin). simpl in Hc. lia. }
  apply H. constructor.
Qed.

Lemma doc_freq_bounds (rt : PyRuntime) (docs_tokens : list (list string)) :
  set_iter_ok rt ->
  forall (acc : Dict Z) (j : Z),
    0 <= j ->
    (forall t n, dict_get t acc = Some n -> 1 <= n <= j) ->
    forall t n,
      dict_get t (fold_left (fun df toks => fold_left df_step (set_iter rt toks) df)
                            docs_tokens acc) = Some n ->
      1 <= n <= j + Z.of_nat (List.length docs_tokens).
Proof.
  intros Hrt. induction docs_tokens as [|toks rest IH]; intros acc j Hj Hacc t n;
    simpl fold_left.
  - intros H. specialize (Hacc _ _ H). simpl. lia.
  - intros H.
    assert (Hstep : forall t n,
               dict_get t (fold_left df_step (set_iter rt toks) acc) = Some n ->
               1 <= n <= j + 1).
    { intros t' n' H'. destruct (Hrt toks) as [Hnd _].
      destruct (in_dec string_dec t' (set_iter rt toks)) as [Hin|Hout].
      - rewrite (df_step_fold_once t' _ acc Hnd Hin) in H'.
        injection H' as <-.
        destruct (dict_get t' acc) as [m|] eqn:E; [|lia].
        specialize (Hacc _ _ E). lia.
      - rewrite (df_step_fold_other t' _ acc Hout) in H'.
        specialize (Hacc _ _ H'). lia. }
    assert (Hj' : 0 <= j + 1) by lia.
    specialize (IH _ (j + 1) Hj' Hstep _ _ H).
    cbn [List.length]. lia.
Qed.

Lemma Qdiv_nonneg (a b : Q) : (0 <= a -> 0 < b -> 0 <= a / b)%Q.
Proof.
  intros Ha Hb. apply Qle_shift_div_l; [exact Hb|]. now rewrite Qmult_0_l.
Qed.

Lemma idf_value_nonneg (rt : PyRuntime) (N : nat) (dfi : Z) :
  (forall x, (1 <= x)%Q -> (0 <= math_log rt x)%Q) ->
  1 <= dfi <= Z.of_nat N ->
  (0 <= idf_value rt N dfi)%Q.
Proof.
  intros Hlog [H1 HN]. unfold idf_value. apply Hlog.
  rewrite Zle_Qle in H1, HN. fold (Qnat N) in HN.
  change (inject_Z 1) with 1%Q in H1.
  assert (Hfrac : (0 <= (Qnat N - inject_Z dfi + (1 # 2))
                        / (inject_Z dfi + (1 # 2)))%Q).
  { apply Qdiv_nonneg; lra. }
  lra.
Qed.

Lemma bm25_doc_score_nonneg (idf : Dict Q) (qtf : Dict Z) (k1 b avgdl : Q)
    (toks : list string) :
  (forall t v, dict_get t idf = Some v -> (0 <= v)%Q) ->
  Forall (fun e : string * Z => 1 <= snd e) qtf ->
  (0 <= k1)%Q -> (0 <= b <= 1)%Q -> (0 < avgdl)%Q ->
  (0 <= bm25_doc_score idf qtf k1 b avgdl toks)%Q.
Proof.
  intros Hidf Hqtf Hk1 Hb Havg. unfold bm25_doc_score. cbv zeta.
  assert (Hdl : (0 <= Qnat (List.length toks))%Q).
  { unfold Qnat. change 0%Q with (inject_Z 0). rewrite <- Zle_Qle. lia. }
  assert (Hratio : (0 <= Qnat (List.length toks) / avgdl)%Q)
    by now apply Qdiv_nonneg.
  set (norm := (1 - b + b * (Qnat (List.length toks) / avgdl))%Q).
  assert (Hnorm : (0 <= norm)%Q).
  { unfold norm. assert (0 <= b * (Qnat (List.length toks) / avgdl))%Q.
    { apply Qmult_le_0_compat; tauto. }
    lra. }
  assert (Hkn : (0 <= k1 * norm)%Q) by now apply Qmult_le_0_compat.
  match goal with
  | |- (0 <= fold_left ?f qtf 0)%Q =>
      enough (Hfold : forall score, (0 <= score)%Q ->
                                    (0 <= fold_left f qtf score)%Q)
        by (apply Hfold; lra)
  end.
  induction Hqtf as [|[term qf] rest Hqf _ IH]; intros score Hs; simpl;
    [exact Hs|].
  apply IH. simpl in Hqf.
  destruct (dict_get term (Counter toks)) as [f|] eqn:Ef; [|exact Hs].
  rewrite Counter_get in Ef.
  assert (Hf1 : 1 <= f).
  { destruct (count_occ string_dec toks term) as [|m]; [discriminate|].
    injection Ef as <-. lia. }
  clear Ef.
  destruct (Qeq_bool _ 0); [exact Hs|].
  assert (Hf : (1 <= inject_Z f)%Q).
  { change 1%Q with (inject_Z 1). now rewrite <- Zle_Qle. }
  assert (Hq : (1 <= inject_Z qf)%Q).
  { change 1%Q with (inject_Z 1). now rewrite <- Zle_Qle. }
  assert (Hv : (0 <= match dict_get term idf with
                     | Some v => v | None => 0 end)%Q).
  { destruct (dict_get term idf) as [v|] eqn:E; [now apply (Hidf term) | lra]. }
  assert (Hnum : (0 <= inject_Z f * (k1 + 1))%Q).
  { apply Qmult_le_0_compat; lra. }
  assert (Htf : (0 <= inject_Z f * (k1 + 1)
                      / (inject_Z f + k1 * norm))%Q).
  { apply Qdiv_nonneg; [exact Hnum | lra]. }
  assert (Hterm : (0 <= (match dict_get term idf with
                         | Some v => v | None => 0 end
                         * (inject_Z f * (k1 + 1)
                            / (inject_Z f + k1 * norm)))
                        * (1 + (1 # 10) * (inject_Z qf - 1)))%Q).
  { apply Qmult_le_0_compat; [now apply Qmult_le_0_compat | lra]. }
  lra.
Qed.

(** X6.  With [k1 >= 0], [0 <= b <= 1] and a logarithm that is not negative
    from 1 on, no score of the built-in BM25 is negative: a document
    frequency lies between 1 and the number of documents, so that the
    argument of the logarithm is at least 1. *)
Theorem bm25_scores_are_not_negative (rt : PyRuntime)
    (query_tokens : list string) (docs_tokens : list (list string))
    (k1 b : Q) :
  set_iter_ok rt ->
  (forall x, (1 <= x)%Q -> (0 <= math_log rt x)%Q) ->
  (0 <= k1)%Q -> (0 <= b <= 1)%Q ->
  Forall (fun s => (0 <= s)%Q)
         (_bm25_scores_builtin rt query_tokens docs_tokens k1 b).
Proof.
  intros Hrt Hlog Hk1 Hb. unfold _bm25_scores_builtin.
  destruct (List.length docs_tokens) as [|n] eqn:En; [constructor|].
  destruct query_tokens as [|q qs] eqn:Eq.
  { apply Forall_forall. intros x Hx. apply repeat_spec in Hx. subst. lra. }
  rewrite <- Eq, <- En. cbv zeta.
  apply Forall_map, Forall_forall. intros toks _.
  apply bm25_doc_score_nonneg; try assumption.
  - intros t v Hv. rewrite idf_table_get in Hv.
    destruct (dict_get t (doc_freq rt docs_tokens)) as [dfi|] eqn:E;
      [|discriminate].
    injection Hv as <-. apply idf_value_nonneg; [exact Hlog|].
    unfold doc_freq in E.
    apply (doc_freq_bounds rt docs_tokens Hrt [] 0 (Z.le_refl 0)) in E;
      [lia | discriminate].
  - apply Counter_entries_positive.
  - destruct (Qle_bool _ 0) eqn:E; [lra|].
    apply Qnot_le_lt. intros Hle. apply Qle_bool_iff in Hle. congruence.
Qed.

Lemma log_series_nonneg (x : Q) : (1 <= x)%Q -> (0 <= log_series x)%Q.
Proof.
  intros Hx. unfold log_series. cbv zeta. rewrite (Qred_correct (2 * _)).
  assert (Hz : (0 <= Qred ((x - 1) / (x + 1)))%Q).
  { rewrite Qred_correct. apply Qdiv_nonneg; lra. }
  set (z := Qred ((x - 1) / (x + 1))) in *.
  assert (H2 : (0 <= z * z)%Q) by now apply Qmult_le_0_compat.
  assert (H3 : (0 <= z ^ 3)%Q).
  { simpl. repeat apply Qmult_le_0_compat; assumption. }
  assert (H5 : (0 <= z ^ 5)%Q).
  { simpl. repeat apply Qmult_le_0_compat; assumption. }
  assert (H7 : (0 <= z ^ 7)%Q).
  { simpl. repeat apply Qmult_le_0_compat; assumption. }
  assert (H3' : (0 <= z ^ 3 / 3)%Q) by (apply Qdiv_nonneg; [assumption | lra]).
  assert (H5' : (0 <= z ^ 5 / 5)%Q) by (apply Qdiv_nonneg; [assumption | lra]).
  assert (H7' : (0 <= z ^ 7 / 7)%Q) by (apply Qdiv_nonneg; [assumption | lra]).
  lra.
Qed.

Lemma bm25_scores_are_not_negative_witness :
  Forall (fun s => (0 <= s)%Q)
         (_bm25_scores_builtin rt_insertion ["deposit"; "return"]
            [["lease"; "term"]; ["return"; "of"; "the"; "deposit"]]
            (3#2) (3#4)).
Proof.
  apply (bm25_scores_are_not_negative rt_insertion).
  - exact rt_insertion_ok.
  - exact log_series_nonneg.
  - lra.
  - lra.
Defined.
